(** * DSGNR: the post / like data model, the feed ranking and the
      account operations of [backend/app.py], embedded in Rocq.

    Conventions of the embedding.
    - A Python [str] is a [string]: a sequence of characters, each a code
      point below 256.  SQLite compares TEXT values with the BINARY
      collation, i.e. code point by code point, which is [String.compare].
    - A Python [int] is a [Z], and so is an SQLite INTEGER; where the id
      of a request is bound to a statement, the range of an INTEGER, a
      signed value of 64 bits, is checked ([bind_post_id]).
    - A table is the list of its rows in rowid order; the AUTOINCREMENT
      counter of each table is part of the database.
    - A function that talks to the database connection, the file system or
      the clock runs in the monad [M]: it threads a [World] and either
      returns or raises. *)

From Stdlib Require Import ZArith String Ascii List Bool Lia.
From stdpp Require Import base decidable option list strings gmap sorting.

Open Scope string_scope.
Open Scope list_scope.
Open Scope Z_scope.

(** ** Text *)

Module Text.

(** TEXT comparison of SQLite (BINARY collation). *)
Definition le (s t : string) : Prop := String.leb s t = true.

#[global] Instance le_dec s t : Decision (le s t).
Proof. unfold le. apply _. Defined.

(** [str.isspace] on one character, for code points below 256: TAB, LF, VT,
    FF, CR, the separators FS, GS, RS, US, the space, NEL and NBSP. *)
Definition isspace (c : ascii) : bool :=
  let n := N_of_ascii c in
  ((9 <=? n) && (n <=? 13) || (28 <=? n) && (n <=? 32)
   || (n =? 133) || (n =? 160))%N.

(** [s.lstrip()] *)
Fixpoint lstrip (s : string) : string :=
  match s with
  | EmptyString => EmptyString
  | String c s' => if isspace c then lstrip s' else s
  end.

(** [s.rstrip()] *)
Fixpoint rstrip (s : string) : string :=
  match s with
  | EmptyString => EmptyString
  | String c s' =>
      match rstrip s' with
      | EmptyString => if isspace c then EmptyString else String c EmptyString
      | r => String c r
      end
  end.

(** [s.strip()] *)
Definition strip (s : string) : string := rstrip (lstrip s).

End Text.

(** ** Dates and times: the part of Python's [datetime] that the
       application uses *)

Module Datetime.

(** An aware or naive [datetime].  [utcoffset] is the offset of its [tzinfo]
    in minutes east of UTC, [None] for a naive value. *)
Record datetime := mk_datetime {
  year : Z; month : Z; day : Z;
  hour : Z; minute : Z; second : Z; microsecond : Z;
  utcoffset : option Z
}.

Definition is_leap (y : Z) : bool :=
  (y mod 4 =? 0) && (negb (y mod 100 =? 0) || (y mod 400 =? 0)).

Definition days_in_month (y m : Z) : Z :=
  if m =? 2 then (if is_leap y then 29 else 28)
  else if (m =? 4) || (m =? 6) || (m =? 9) || (m =? 11) then 30
  else 31.

(** The range checks of the [datetime] constructor (MINYEAR = 1,
    MAXYEAR = 9999). *)
Definition valid_date (y m d : Z) : bool :=
  (1 <=? y) && (y <=? 9999) && (1 <=? m) && (m <=? 12)
  && (1 <=? d) && (d <=? days_in_month y m).

Definition valid_time (h mi s us : Z) : bool :=
  (0 <=? h) && (h <? 24) && (0 <=? mi) && (mi <? 60)
  && (0 <=? s) && (s <? 60) && (0 <=? us) && (us <? 1000000).

(** A [tzinfo] must answer an offset strictly between -24h and +24h. *)
Definition valid_offset (o : option Z) : bool :=
  match o with
  | None => true
  | Some m => (-1440 <? m) && (m <? 1440)
  end.

Definition valid (d : datetime) : bool :=
  valid_date (year d) (month d) (day d)
  && valid_time (hour d) (minute d) (second d) (microsecond d)
  && valid_offset (utcoffset d).

(** What [datetime.now(timezone.utc)] can return: a valid value whose
    [tzinfo] is UTC. *)
Definition is_utc (d : datetime) : bool :=
  valid d && bool_decide (utcoffset d = Some 0).

(** *** Formatting *)

Definition digit (n : Z) : ascii := ascii_of_N (48 + Z.to_N n).

(** ["%0kd" % n] for [0 <= n < 10^k]: the [k] decimal digits of [n], most
    significant first. *)
Fixpoint zfill (k : nat) (n : Z) : string :=
  match k with
  | O => EmptyString
  | S k' => String (digit (n / 10 ^ Z.of_nat k')) (zfill k' (n mod 10 ^ Z.of_nat k'))
  end.

(** The ["+HH:MM"] / ["-HH:MM"] suffix of [isoformat] for an offset in whole
    minutes. *)
Definition format_offset (o : option Z) : string :=
  match o with
  | None => ""
  | Some m =>
      (if m <? 0 then "-" else "+")
      +:+ zfill 2 (Z.abs m / 60) +:+ ":" +:+ zfill 2 (Z.abs m mod 60)
  end.

(** [d.isoformat()]: ["YYYY-MM-DDTHH:MM:SS"], then [".ffffff"] when the
    microsecond is not 0, then the offset. *)
Definition isoformat (d : datetime) : string :=
  zfill 4 (year d) +:+ "-" +:+ zfill 2 (month d) +:+ "-" +:+ zfill 2 (day d)
  +:+ "T" +:+ zfill 2 (hour d) +:+ ":" +:+ zfill 2 (minute d)
  +:+ ":" +:+ zfill 2 (second d)
  +:+ (if microsecond d =? 0 then "" else "." +:+ zfill 6 (microsecond d))
  +:+ format_offset (utcoffset d).

(** *** Parsing *)

Definition digit_value (c : ascii) : option Z :=
  let n := N_of_ascii c in
  if ((48 <=? n) && (n <=? 57))%N then Some (Z.of_N n - 48) else None.

(** Exactly [k] decimal digits. *)
Fixpoint take_digits (k : nat) (acc : Z) (s : string) : option (Z * string) :=
  match k with
  | O => Some (acc, s)
  | S k' =>
      match s with
      | EmptyString => None
      | String c s' =>
          v ← digit_value c; take_digits k' (10 * acc + v) s'
      end
  end.

Definition expect (c : ascii) (s : string) : option string :=
  match s with
  | String c' s' => if Ascii.eqb c c' then Some s' else None
  | EmptyString => None
  end.

(** The optional [".ffffff"]. *)
Definition parse_fraction (s : string) : option (Z * string) :=
  match s with
  | String "." s' => take_digits 6 0 s'
  | _ => Some (0, s)
  end.

(** The optional offset, which must end the text. *)
Definition parse_offset (s : string) : option (option Z) :=
  match s with
  | EmptyString => Some None
  | String c s' =>
      sign ← (if Ascii.eqb c "+" then Some 1
              else if Ascii.eqb c "-" then Some (-1) else None);
      '(hh, s1) ← take_digits 2 0 s';
      s2 ← expect ":" s1;
      '(mm, s3) ← take_digits 2 0 s2;
      if bool_decide (s3 = "") && (hh <? 24) && (mm <? 60)
      then Some (Some (sign * (hh * 60 + mm))) else None
  end.

(** [datetime.fromisoformat(s)] on the layout that [isoformat] writes;
    [None] stands for [ValueError].  (Python also reads some other ISO 8601
    layouts, which the application never stores.) *)
Definition fromisoformat (s : string) : option datetime :=
  '(y, s) ← take_digits 4 0 s; s ← expect "-" s;
  '(m, s) ← take_digits 2 0 s; s ← expect "-" s;
  '(d, s) ← take_digits 2 0 s; s ← expect "T" s;
  '(h, s) ← take_digits 2 0 s; s ← expect ":" s;
  '(mi, s) ← take_digits 2 0 s; s ← expect ":" s;
  '(sec, s) ← take_digits 2 0 s;
  '(us, s) ← parse_fraction s;
  off ← parse_offset s;
  let r := mk_datetime y m d h mi sec us off in
  if valid r then Some r else None.

(** *** Arithmetic *)

Definition next_day (d : datetime) : datetime :=
  if day d <? days_in_month (year d) (month d)
  then mk_datetime (year d) (month d) (day d + 1)
         (hour d) (minute d) (second d) (microsecond d) (utcoffset d)
  else if month d <? 12
  then mk_datetime (year d) (month d + 1) 1
         (hour d) (minute d) (second d) (microsecond d) (utcoffset d)
  else mk_datetime (year d + 1) 1 1
         (hour d) (minute d) (second d) (microsecond d) (utcoffset d).

Definition prev_day (d : datetime) : datetime :=
  if 1 <? day d
  then mk_datetime (year d) (month d) (day d - 1)
         (hour d) (minute d) (second d) (microsecond d) (utcoffset d)
  else if 1 <? month d
  then mk_datetime (year d) (month d - 1) (days_in_month (year d) (month d - 1))
         (hour d) (minute d) (second d) (microsecond d) (utcoffset d)
  else mk_datetime (year d - 1) 12 31
         (hour d) (minute d) (second d) (microsecond d) (utcoffset d).

(** [d + timedelta(minutes=delta)] for [-1440 < delta < 1440], keeping the
    [tzinfo]; [None] stands for [OverflowError] (year out of range). *)
Definition add_minutes (d : datetime) (delta : Z) : option datetime :=
  let t := hour d * 60 + minute d + delta in
  let d' := if t <? 0 then prev_day d
            else if 1440 <=? t then next_day d else d in
  let t' := t mod 1440 in
  let r := mk_datetime (year d') (month d') (day d') (t' / 60) (t' mod 60)
             (second d) (microsecond d) (utcoffset d) in
  if (1 <=? year r) && (year r <=? 9999) then Some r else None.

(** *** Time zones *)

(** A [tzinfo] object: an IANA zone read from the host's time zone database
    ([rules] gives its offset from UTC, in minutes, at a UTC date and time),
    or [timezone(timedelta(minutes=offset))]. *)
Inductive tzinfo :=
  | ZoneInfo (key : string) (rules : datetime -> Z)
  | timezone (offset : Z).

Definition tz_utcoffset (tz : tzinfo) (utc : datetime) : Z :=
  match tz with
  | ZoneInfo _ rules => rules utc
  | timezone offset => offset
  end.

(** What the host contributes: its time zone database ([None] for a zone it
    does not know, the [ZoneInfoNotFoundError] case) and its local zone,
    which [astimezone] consults for a naive value. *)
Record Host := mk_Host {
  tzdata : string -> option (datetime -> Z);
  local_utcoffset : datetime -> Z
}.

Definition with_offset (d : datetime) (o : option Z) : datetime :=
  mk_datetime (year d) (month d) (day d)
    (hour d) (minute d) (second d) (microsecond d) o.

(** [d.astimezone(tz)]: convert to UTC with the value's own offset (the
    host's local zone when it is naive), then to the local time of [tz]. *)
Definition astimezone (host : Host) (d : datetime) (tz : tzinfo)
  : option datetime :=
  let myoffset := match utcoffset d with
                  | Some o => o
                  | None => local_utcoffset host d
                  end in
  if negb (valid_offset (Some myoffset)) then None else
  utc ← add_minutes d (- myoffset);
  let off := tz_utcoffset tz utc in
  if negb (valid_offset (Some off)) then None else
  r ← add_minutes utc off;
  Some (with_offset r (Some off)).

(** *** strftime *)

Definition month_abbr (m : Z) : string :=
  nth (Z.to_nat (m - 1))
    ["Jan"; "Feb"; "Mar"; "Apr"; "May"; "Jun";
     "Jul"; "Aug"; "Sep"; "Oct"; "Nov"; "Dec"] "".

(** [%I]: the hour on the 12-hour clock. *)
Definition hour12 (h : Z) : Z := if h mod 12 =? 0 then 12 else h mod 12.

(** [%p] *)
Definition am_pm (h : Z) : string := if h <? 12 then "AM" else "PM".

(** U+00B7 MIDDLE DOT *)
Definition middle_dot : string := String (ascii_of_N 183) EmptyString.

(** [d.strftime("%b %d, %Y · %I:%M %p")] in the C locale, the year written
    with four digits. *)
Definition strftime_display (d : datetime) : string :=
  month_abbr (month d) +:+ " " +:+ zfill 2 (day d) +:+ ", "
  +:+ zfill 4 (year d) +:+ " " +:+ middle_dot +:+ " "
  +:+ zfill 2 (hour12 (hour d)) +:+ ":" +:+ zfill 2 (minute d)
  +:+ " " +:+ am_pm (hour d).

(** Chronological comparison of two values with the same offset. *)
Definition lex (c1 c2 : comparison) : comparison :=
  match c1 with Eq => c2 | _ => c1 end.

Definition chrono_compare (a b : datetime) : comparison :=
  lex (year a ?= year b) (lex (month a ?= month b) (lex (day a ?= day b)
  (lex (hour a ?= hour b) (lex (minute a ?= minute b)
  (lex (second a ?= second b) (microsecond a ?= microsecond b)))))).

End Datetime.

(** ** The relational store: the three tables of [create_tables] and the
       SQL statements of the application as functions on them *)

Module Store.

(** [users]: id, username (UNIQUE), password_hash, is_admin. *)
Record User := mk_User {
  user_id : Z; username : string; password_hash : string; is_admin : Z
}.

(** [posts]: id, user_id, image_path, caption, created_at (TEXT). *)
Record Post := mk_Post {
  post_id : Z; post_user_id : Z; image_path : string; caption : string;
  post_created_at : string
}.

(** [likes]: id, user_id, post_id, created_at; UNIQUE (user_id, post_id). *)
Record Like := mk_Like {
  like_id : Z; like_user_id : Z; like_post_id : Z; like_created_at : string
}.

(** The database file.  [seq_*] is the AUTOINCREMENT counter of a table:
    the largest rowid it has ever handed out. *)
Record DB := mk_DB {
  users : list User; posts : list Post; likes : list Like;
  seq_users : Z; seq_posts : Z; seq_likes : Z
}.

(** A database file that does not exist yet; [CREATE TABLE IF NOT EXISTS]
    makes the three empty tables of it and leaves existing tables alone. *)
Definition empty_db : DB := mk_DB [] [] [] 0 0 0.

#[global] Instance User_eq_dec : EqDecision User.
Proof. solve_decision. Defined.
#[global] Instance Post_eq_dec : EqDecision Post.
Proof. solve_decision. Defined.
#[global] Instance Like_eq_dec : EqDecision Like.
Proof. solve_decision. Defined.
#[global] Instance DB_eq_dec : EqDecision DB.
Proof. solve_decision. Defined.

(** [SELECT COUNT( * ) FROM users WHERE is_admin = 1] *)
Definition count_admins (db : DB) : Z :=
  Z.of_nat (length (filter (λ u, is_admin u = 1) (users db))).

(** [SELECT ... FROM users WHERE username = ?] *)
Definition select_users_by_username (db : DB) (name : string) : list User :=
  filter (λ u, username u = name) (users db).

(** [INSERT INTO users (username, password_hash, is_admin) VALUES (?, ?, ?)];
    [None] is the IntegrityError of the UNIQUE constraint on username. *)
Definition insert_user (name hash : string) (admin : Z) (db : DB) : option DB :=
  if bool_decide (select_users_by_username db name = []) then
    let id := seq_users db + 1 in
    Some (mk_DB (users db ++ [mk_User id name hash admin]) (posts db) (likes db)
            id (seq_posts db) (seq_likes db))
  else None.

(** [INSERT INTO posts (user_id, image_path, caption, created_at)
     VALUES (?, ?, ?, ?)] *)
Definition insert_post (uid : Z) (image caption created_at : string) (db : DB)
  : DB :=
  let id := seq_posts db + 1 in
  mk_DB (users db) (posts db ++ [mk_Post id uid image caption created_at])
    (likes db) (seq_users db) id (seq_likes db).

(** [COALESCE(COUNT(likes.id), 0)] of the group of one post under
    [LEFT JOIN likes ON likes.post_id = posts.id]. *)
Definition like_count_of (db : DB) (pid : Z) : Z :=
  Z.of_nat (length (filter (λ l, like_post_id l = pid) (likes db))).

(** A row of the SELECT of [fetch_posts]. *)
Record PostRow := mk_PostRow {
  row_id : Z; row_image_path : string; row_caption : string;
  row_created_at : string; row_username : string; row_like_count : Z
}.

#[global] Instance PostRow_eq_dec : EqDecision PostRow.
Proof. solve_decision. Defined.

(** [FROM posts JOIN users ON posts.user_id = users.id
     LEFT JOIN likes ON likes.post_id = posts.id GROUP BY posts.id]:
    one row per post whose author exists ([users.id] is the primary key, so
    at most one user joins), in rowid order. *)
Definition joined_posts (db : DB) : list PostRow :=
  flat_map (λ p,
    match filter (λ u, user_id u = post_user_id p) (users db) with
    | u :: _ =>
        [mk_PostRow (post_id p) (image_path p) (caption p) (post_created_at p)
           (username u) (like_count_of db (post_id p))]
    | [] => []
    end) (posts db).

(** The two ORDER BY clauses of [order_map]. *)
Inductive OrderClause := CreatedDesc | LikesDescCreatedDesc.

(** [posts.created_at DESC]: [r1] may come before [r2]. *)
Definition created_desc (r1 r2 : PostRow) : Prop :=
  Text.le (row_created_at r2) (row_created_at r1).

(** [like_count DESC, posts.created_at DESC] *)
Definition likes_desc_created_desc (r1 r2 : PostRow) : Prop :=
  row_like_count r2 < row_like_count r1
  ∨ (row_like_count r1 = row_like_count r2 ∧ created_desc r1 r2).

Definition order_rel (c : OrderClause) : relation PostRow :=
  match c with
  | CreatedDesc => created_desc
  | LikesDescCreatedDesc => likes_desc_created_desc
  end.

#[global] Instance created_desc_dec r1 r2 : Decision (created_desc r1 r2).
Proof. unfold created_desc. apply _. Defined.
#[global] Instance likes_desc_created_desc_dec r1 r2 :
  Decision (likes_desc_created_desc r1 r2).
Proof. unfold likes_desc_created_desc. apply _. Defined.
#[global] Instance order_rel_dec c r1 r2 : Decision (order_rel c r1 r2).
Proof. destruct c; simpl; apply _. Defined.

(** The sorter of ORDER BY: it moves a row in front of the rows that the
    clause puts after it, and keeps rows that tie on every key of the
    clause in the order in which they arrive. *)
Section Sorter.
Context {A : Type} (R : relation A) `{∀ x y, Decision (R x y)}.

Fixpoint sorter_insert (x : A) (l : list A) : list A :=
  match l with
  | [] => [x]
  | y :: l' => if decide (R x y) then x :: l else y :: sorter_insert x l'
  end.

Fixpoint order_by (l : list A) : list A :=
  match l with
  | [] => []
  | x :: l' => sorter_insert x (order_by l')
  end.

End Sorter.

(** The order of a clause [R] followed by a last key [T]. *)
Definition then_by {A : Type} (R T : relation A) : relation A :=
  λ a b, R a b ∧ (R b a → T a b).

(** [SELECT ... GROUP BY posts.id ORDER BY c]: the rows of the groups, which
    come in rowid order, through the sorter.  Rows that agree on every key
    of the clause stay in rowid order. *)
Definition select_posts (c : OrderClause) (db : DB) : list PostRow :=
  order_by (order_rel c) (joined_posts db).

(** The table [posts] holds its rows in the order of their ids, the order
    in which a scan of the table delivers them. *)
Definition posts_in_rowid_order (db : DB) : Prop :=
  StronglySorted (λ p q, post_id p < post_id q) (posts db).

(** Two rows tie on the keys of [like_count DESC, posts.created_at DESC]. *)
Definition tied (r1 r2 : PostRow) : Prop :=
  row_like_count r1 = row_like_count r2
  ∧ row_created_at r1 = row_created_at r2.

#[global] Instance tied_dec r1 r2 : Decision (tied r1 r2).
Proof. unfold tied. apply _. Defined.

(** The order of the like-ranked feed with the rowid as the last key: more
    likes first, then the larger creation text, then the smaller id. *)
Definition likes_created_rowid (r1 r2 : PostRow) : Prop :=
  row_like_count r2 < row_like_count r1
  ∨ (row_like_count r1 = row_like_count r2
     ∧ (¬ Text.le (row_created_at r1) (row_created_at r2)
        ∨ (row_created_at r1 = row_created_at r2 ∧ row_id r1 < row_id r2))).

(** A row of the SELECT of [fetch_post_by_id]: [posts.*], the author's name
    and the like count. *)
Record PostDetail := mk_PostDetail {
  det_id : Z; det_user_id : Z; det_image_path : string; det_caption : string;
  det_created_at : string; det_username : string; det_like_count : Z
}.

(** [SELECT posts.*, ... WHERE posts.id = ? GROUP BY posts.id] *)
Definition select_post_by_id (pid : Z) (db : DB) : list PostDetail :=
  flat_map (λ p,
    match filter (λ u, user_id u = post_user_id p) (users db) with
    | u :: _ =>
        [mk_PostDetail (post_id p) (post_user_id p) (image_path p) (caption p)
           (post_created_at p) (username u) (like_count_of db (post_id p))]
    | [] => []
    end) (filter (λ p, post_id p = pid) (posts db)).

(** [DELETE FROM likes WHERE post_id = ?] *)
Definition delete_likes_of_post (pid : Z) (db : DB) : DB :=
  mk_DB (users db) (posts db) (filter (λ l, like_post_id l ≠ pid) (likes db))
    (seq_users db) (seq_posts db) (seq_likes db).

(** [DELETE FROM posts WHERE id = ?] *)
Definition delete_post_row (pid : Z) (db : DB) : DB :=
  mk_DB (users db) (filter (λ p, post_id p ≠ pid) (posts db)) (likes db)
    (seq_users db) (seq_posts db) (seq_likes db).

(** [SELECT post_id FROM likes WHERE user_id = ?] *)
Definition select_liked_post_ids (uid : Z) (db : DB) : list Z :=
  like_post_id <$> filter (λ l, like_user_id l = uid) (likes db).

(** [SELECT 1 FROM likes WHERE user_id = ? AND post_id = ?] *)
Definition select_like (uid pid : Z) (db : DB) : list Like :=
  filter (λ l, like_user_id l = uid ∧ like_post_id l = pid) (likes db).

(** [INSERT OR IGNORE INTO likes (user_id, post_id, created_at)
     VALUES (?, ?, ?)]: a row that would break UNIQUE (user_id, post_id) is
    skipped. *)
Definition insert_or_ignore_like (uid pid : Z) (created_at : string) (db : DB)
  : DB :=
  if bool_decide (select_like uid pid db = []) then
    let id := seq_likes db + 1 in
    mk_DB (users db) (posts db) (likes db ++ [mk_Like id uid pid created_at])
      (seq_users db) (seq_posts db) id
  else db.

(** [DELETE FROM likes WHERE user_id = ? AND post_id = ?] *)
Definition delete_like (uid pid : Z) (db : DB) : DB :=
  mk_DB (users db) (posts db)
    (filter (λ l, ¬ (like_user_id l = uid ∧ like_post_id l = pid)) (likes db))
    (seq_users db) (seq_posts db) (seq_likes db).

End Store.

(** ** The world the application runs in, and the monad of its effects *)

Module Runtime.
Import Store.

(** The exceptions that the modelled calls can raise. *)
Inductive Exn :=
  | IntegrityError | ValueError | OverflowError
  | FileNotFoundError | PermissionError
  | RequestEntityTooLarge.

Inductive Res (A : Type) :=
  | Ok (a : A)
  | Raise (e : Exn).
Arguments Ok {A} a.
Arguments Raise {A} e.

(** The SQL statements of [app.py], with their parameters. *)
Inductive Statement :=
  | CreateTable (table : string)
  | CountAdmins
  | InsertAdmin (name hash : string)
  | SelectUserExists (name : string)
  | SelectUser (name : string)
  | InsertUser (name hash : string)
  | InsertPost (uid : Z) (image caption created_at : string)
  | SelectPosts (c : OrderClause)
  | SelectPostById (pid : Z)
  | DeleteLikesOfPost (pid : Z)
  | DeletePost (pid : Z)
  | SelectLikedPostIds (uid : Z)
  | SelectLike (uid pid : Z)
  | InsertOrIgnoreLike (uid pid : Z) (created_at : string)
  | DeleteLike (uid pid : Z).

(** What a run does to the outside, in the order it does it. *)
Inductive Event :=
  | Execute (s : Statement)          (* cursor.execute *)
  | Commit                           (* db.commit() *)
  | PathExists (path : string)       (* os.path.exists *)
  | OsRemove (path : string)         (* os.remove *)
  | Flash (message category : string).

(** [disk] is the committed database; [conn] is the database as the open
    connection sees it, with its uncommitted changes.  [files] are the paths
    that exist; [os.remove] is refused (PermissionError) on the [protected]
    ones.  [log] is the trace of events so far. *)
Record World := mk_World {
  disk : DB; conn : DB;
  files : gset string; protected : gset string;
  log : list Event
}.

Definition M (A : Type) : Type := World → Res A * World.


Definition ret {A} (a : A) : M A := λ w, (Ok a, w).

Definition bind {A B} (m : M A) (f : A → M B) : M B := λ w,
  match m w with
  | (Ok a, w') => f a w'
  | (Raise e, w') => (Raise e, w')
  end.

Declare Scope py_scope.
Delimit Scope py_scope with py.
Notation "'do' x <- m ; k" := (bind m (λ x, k))
  (at level 10, x name, m at level 100, k at level 200,
   format "'[v' 'do'  x  <-  m ; '/' k ']'") : py_scope.
Notation "m >> k" := (bind m (λ _, k))
  (at level 100, k at level 200, right associativity) : py_scope.

Definition raise {A} (e : Exn) : M A := λ w, (Raise e, w).

(** Nothing to do (the missing [else] of an [if]). *)
Definition pass : M unit := λ w, (Ok (), w).

Definition lift {A} (r : Res A) : M A := λ w, (r, w).

Definition record (e : Event) (w : World) : World :=
  mk_World (disk w) (conn w) (files w) (protected w) (log w ++ [e]).

Definition emit (e : Event) : M unit := λ w, (Ok (), record e w).

(** [cursor.execute] of a SELECT, and the rows it fetches. *)
Definition query {A} (s : Statement) (f : DB → A) : M A := λ w,
  (Ok (f (conn w)), record (Execute s) w).

(** [cursor.execute] of an INSERT or DELETE; it changes what the connection
    sees, not yet the committed database.  [None] is IntegrityError. *)
Definition update (s : Statement) (f : DB → option DB) : M unit := λ w,
  let w := record (Execute s) w in
  match f (conn w) with
  | Some db => (Ok (), mk_World (disk w) db (files w) (protected w) (log w))
  | None => (Raise IntegrityError, w)
  end.

(** [db.commit()] *)
Definition commit : M unit := λ w,
  let w := record Commit w in
  (Ok (), mk_World (conn w) (conn w) (files w) (protected w) (log w)).

(** Opening a connection: it sees the committed database. *)
Definition connect : M unit := λ w,
  (Ok (), mk_World (disk w) (disk w) (files w) (protected w) (log w)).

(** Closing a connection (or rolling back): uncommitted changes are lost. *)
Definition close (w : World) : World :=
  mk_World (disk w) (disk w) (files w) (protected w) (log w).

(** [os.path.exists(path)] *)
Definition path_exists (path : string) : M bool := λ w,
  (Ok (bool_decide (path ∈ files w)), record (PathExists path) w).

(** [os.remove(path)] *)
Definition os_remove (path : string) : M unit := λ w,
  let w := record (OsRemove path) w in
  if bool_decide (path ∈ files w) then
    if bool_decide (path ∈ protected w) then (Raise PermissionError, w)
    else (Ok (), mk_World (disk w) (conn w) (files w ∖ {[path]}) (protected w)
                   (log w))
  else (Raise FileNotFoundError, w).

(** [flash(message, category)] *)
Definition flash (message category : string) : M unit :=
  emit (Flash message category).

(** [cursor.fetchone()] *)
Definition fetchone {A} (rows : list A) : option A := head rows.

(** [posixpath.join(a, b)] *)
Definition endswith_sep (a : string) : bool :=
  match String.length a with
  | O => false
  | S n => bool_decide (String.get n a = Some "/"%char)
  end.

Definition path_join (a b : string) : string :=
  match b with
  | String "/" _ => b
  | _ => if bool_decide (a = "") || endswith_sep a then a +:+ b
         else a +:+ "/" +:+ b
  end.
Arguments path_join : simpl never.

End Runtime.

(** ** The application: the functions and views of [app.py] *)

Module App.
Import Store Runtime Datetime.
Open Scope py_scope.

(** The dictionary that [format_posts_for_view] builds for one post. *)
Record PostView := mk_PostView {
  view_id : Z; view_image_path : string; view_caption : string;
  view_username : string; view_created_at : datetime;
  view_display_time : string; view_like_count : Z; view_liked : bool
}.

Inductive Location :=
  | UrlFor (endpoint : string)
  | Url (url : string).

Inductive Response :=
  | Redirect (location : Location)
  | RenderTemplate (name : string) (posts : list PostView).

Inductive Method := GET | POST.

(** The session cookie: ["user_id"], ["username"] (absent when [None]) and
    ["is_admin"] ([false] also when absent). *)
Record Session := mk_Session {
  session_user_id : option Z;
  session_username : option string;
  session_is_admin : bool
}.

(** [IST]: the zone Asia/Kolkata of the host's time zone database, and the
    fixed offset of 5 hours 30 minutes when the host does not have it. *)
Definition IST (host : Host) : tzinfo :=
  match tzdata host "Asia/Kolkata" with
  | Some rules => ZoneInfo "Asia/Kolkata" rules
  | None => timezone (5 * 60 + 30)
  end.

(** The default of the column [is_admin INTEGER NOT NULL DEFAULT 0]. *)
Definition is_admin_default : Z := 0.

Definition create_tables : M unit :=
  emit (Execute (CreateTable "users")) >>
  emit (Execute (CreateTable "posts")) >>
  emit (Execute (CreateTable "likes")) >>
  commit.

Definition user_exists (username : string) : M bool :=
  do rows <- query (SelectUserExists username)
           (λ db, select_users_by_username db username);
  ret (bool_decide (is_Some (fetchone rows))).

Definition create_user (username password_hash : string) : M unit :=
  update (InsertUser username password_hash)
    (insert_user username password_hash is_admin_default) >>
  commit.

Definition fetch_user_by_username (username : string) : M (option User) :=
  do rows <- query (SelectUser username)
           (λ db, select_users_by_username db username);
  ret (fetchone rows).

(** [now] is [datetime.now(timezone.utc)]. *)
Definition create_post (user_id : Z) (image_filename caption : string)
    (now : datetime) : M unit :=
  update (InsertPost user_id image_filename caption (isoformat now))
    (λ db, Some (insert_post user_id image_filename caption (isoformat now) db)) >>
  commit.

(** [order_map] *)
Definition order_map : gmap string OrderClause :=
  {[ "recent" := CreatedDesc; "likes" := LikesDescCreatedDesc ]}.

Definition fetch_posts (sort : string) : M (list PostRow) :=
  let order_clause := default CreatedDesc (order_map !! sort) in
  query (SelectPosts order_clause) (select_posts order_clause).

(** The body of the loop of [format_posts_for_view]. *)
Definition format_row (host : Host) (liked_set : gset Z) (row : PostRow)
  : Res PostView :=
  match fromisoformat (row_created_at row) with
  | None => Raise ValueError
  | Some parsed =>
      match astimezone host parsed (IST host) with
      | None => Raise OverflowError
      | Some created_at =>
          Ok (mk_PostView (row_id row) (row_image_path row) (row_caption row)
                (row_username row) created_at (strftime_display created_at)
                (row_like_count row) (bool_decide (row_id row ∈ liked_set)))
      end
  end.

(** [for row in posts: formatted.append(...)] *)
Fixpoint format_loop (host : Host) (liked_set : gset Z) (posts : list PostRow)
    (formatted : list PostView) : Res (list PostView) :=
  match posts with
  | [] => Ok formatted
  | row :: rest =>
      match format_row host liked_set row with
      | Ok v => format_loop host liked_set rest (formatted ++ [v])
      | Raise e => Raise e
      end
  end.

Definition format_posts_for_view (host : Host) (posts : list PostRow)
    (liked_ids : option (gset Z)) : Res (list PostView) :=
  let liked_set := default ∅ liked_ids in
  format_loop host liked_set posts [].

(** An SQLite INTEGER: a signed value of 64 bits. *)
Definition is_integer (n : Z) : bool := (- 2 ^ 63 <=? n) && (n <? 2 ^ 63).

(** Binding [post_id] to the [?] of a statement: sqlite3 raises
    OverflowError for a Python int outside the range of an INTEGER.  SQLite
    keeps every id as an INTEGER, so the ids of the rows of [posts] lie in
    that range; the type [DB] does not bound them, and an id that a row of
    [posts] carries is taken to bind. *)
Definition bind_post_id (post_id : Z) : M unit := λ w,
  if is_integer post_id
     || bool_decide (post_id ∈ Store.post_id <$> posts (conn w))
  then (Ok (), w) else (Raise OverflowError, w).
Arguments bind_post_id : simpl never.

Definition fetch_post_by_id (post_id : Z) : M (option PostDetail) :=
  bind_post_id post_id >>
  do rows <- query (SelectPostById post_id) (select_post_by_id post_id);
  ret (fetchone rows).

(** [module_dir host] is [os.path.dirname(__file__)]. *)
Definition remove_post (module_dir : string) (post : PostDetail) : M unit :=
  update (DeleteLikesOfPost (det_id post))
    (λ db, Some (delete_likes_of_post (det_id post) db)) >>
  update (DeletePost (det_id post))
    (λ db, Some (delete_post_row (det_id post) db)) >>
  commit >>
  let uploads_dir := path_join module_dir "uploads" in
  let image_path := path_join uploads_dir (det_image_path post) in
  do ex <- path_exists image_path;
  if ex then os_remove image_path else pass.

Definition get_user_liked_post_ids (user_id : Z) : M (gset Z) :=
  do rows <- query (SelectLikedPostIds user_id) (select_liked_post_ids user_id);
  ret (list_to_set rows).

Definition user_has_liked (user_id post_id : Z) : M bool :=
  do rows <- query (SelectLike user_id post_id) (select_like user_id post_id);
  ret (bool_decide (is_Some (fetchone rows))).

Definition add_like (user_id post_id : Z) (now : datetime) : M unit :=
  update (InsertOrIgnoreLike user_id post_id (isoformat now))
    (λ db, Some (insert_or_ignore_like user_id post_id (isoformat now) db)) >>
  commit.

Definition remove_like (user_id post_id : Z) : M unit :=
  update (DeleteLike user_id post_id)
    (λ db, Some (delete_like user_id post_id db)) >>
  commit.

(** *** Guards *)

Definition login_required (session : Session) (view : Z → M Response)
  : M Response :=
  match session_user_id session with
  | None =>
      flash "Please log in to continue." "warning" >>
      ret (Redirect (UrlFor "login"))
  | Some uid => view uid
  end.

Definition admin_required (session : Session) (view : M Response)
  : M Response :=
  if negb (session_is_admin session) then
    flash "You do not have permission to perform this action." "danger" >>
    ret (Redirect (UrlFor "feed"))
  else view.

(** *** Views *)

Definition feed (host : Host) (session : Session) : M Response :=
  login_required session (λ uid,
    do raw_posts <- fetch_posts "recent";
    do liked_ids <- get_user_liked_post_ids uid;
    do posts <- lift (format_posts_for_view host raw_posts (Some liked_ids));
    ret (RenderTemplate "feed.html" posts)).

Definition leaderboard (host : Host) (session : Session) : M Response :=
  login_required session (λ uid,
    do raw_posts <- fetch_posts "likes";
    do liked_ids <- get_user_liked_post_ids uid;
    do posts <- lift (format_posts_for_view host raw_posts (Some liked_ids));
    ret (RenderTemplate "leaderboard.html" posts)).

Definition delete_post (module_dir : string) (session : Session) (post_id : Z)
  : M Response :=
  login_required session (λ _,
    admin_required session (
      do post <- fetch_post_by_id post_id;
      match post with
      | None =>
          flash "Post not found." "warning" >>
          ret (Redirect (UrlFor "feed"))
      | Some post =>
          remove_post module_dir post >>
          flash "Post deleted." "info" >>
          ret (Redirect (UrlFor "feed"))
      end)).

(** [redirect(request.referrer or url_for("feed"))] *)
Definition redirect_back (referrer : option string) : Response :=
  Redirect (match referrer with
            | Some r => if bool_decide (r = "") then UrlFor "feed" else Url r
            | None => UrlFor "feed"
            end).

(** [referrer] is [request.referrer]. *)
Definition toggle_like (session : Session) (post_id : Z) (now : datetime)
    (referrer : option string) : M Response :=
  login_required session (λ user_id,
    do post <- fetch_post_by_id post_id;
    match post with
    | None =>
        flash "Post not found." "warning" >>
        ret (Redirect (UrlFor "feed"))
    | Some _ =>
        do liked <- user_has_liked user_id post_id;
        (if liked then remove_like user_id post_id
         else add_like user_id post_id now) >>
        ret (redirect_back referrer)
    end).

Section Hashing.

(** [werkzeug.security.generate_password_hash]: the hash of a password under
    the salt that the call draws. *)
Variable generate_password_hash : string → string → string.

Definition ensure_admin_exists (salt : string) : M unit :=
  do n <- query CountAdmins count_admins;
  if n =? 0 then
    update (InsertAdmin "admin" (generate_password_hash salt "adminpass"))
      (insert_user "admin" (generate_password_hash salt "adminpass") 1) >>
    commit
  else pass.

Definition register (salt : string) (method : Method)
    (form : gmap string string) : M Response :=
  match method with
  | POST =>
      let username := Text.strip (default "" (form !! "username")) in
      let password := default "" (form !! "password") in
      if bool_decide (username = "") || bool_decide (password = "") then
        flash "Username and password are required." "danger" >>
        ret (Redirect (UrlFor "register"))
      else
        do taken <- user_exists username;
        if taken then
          flash "That username is already taken." "warning" >>
          ret (Redirect (UrlFor "register"))
        else
          let password_hash := generate_password_hash salt password in
          create_user username password_hash >>
          flash "Account created successfully! Please log in." "success" >>
          ret (Redirect (UrlFor "login"))
  | GET => ret (RenderTemplate "register.html" [])
  end.

(** The part of [create_app] that touches the database: under
    [with sqlite3.connect(...) as db], which commits when the block ends
    and rolls back when it raises. *)
Definition create_app (salt : string) : M unit := λ w,
  match (connect >> create_tables >> ensure_admin_exists salt) w with
  | (Ok _, w') => commit w'
  | (Raise e, w') => (Raise e, close w')
  end.

End Hashing.

(** What follows the existence check in the trace of a deletion: the call
    of [os.remove] when the file is there, and the flash message of the
    view when nothing has raised. *)
Definition after_exists_check (w : World) (path : string) : list Event :=
  if bool_decide (path ∈ files w) then
    OsRemove path
    :: (if bool_decide (path ∈ protected w) then []
        else [Flash "Post deleted." "info"])
  else [Flash "Post deleted." "info"].

(** One request: [attach_db_connection], the view, [close_db_connection]. *)
Definition request {A} (view : M A) : M A := λ w,
  match (connect >> view) w with
  | (r, w') => (r, close w')
  end.

(** *** The states the application can be in *)

(** What can happen to a running application: a request to one of its
    views (with whatever session cookie and form the client sends), an
    upload reaching [create_post], or a restart. *)
Inductive Action :=
  | DoRegister (salt : string) (method : Method) (form : gmap string string)
  | DoCreatePost (user_id : Z) (image_filename caption : string)
      (now : datetime)
  | DoDeletePost (session : Session) (post_id : Z)
  | DoToggleLike (session : Session) (post_id : Z) (now : datetime)
      (referrer : option string)
  | DoFeed (host : Host) (session : Session)
  | DoLeaderboard (host : Host) (session : Session)
  | DoRestart (salt : string).

Section Running.

Variable generate_password_hash : string → string → string.
Variable module_dir : string.

Definition perform (a : Action) (w : World) : World :=
  match a with
  | DoRegister salt method form =>
      snd (request (register generate_password_hash salt method form) w)
  | DoCreatePost user_id image_filename caption now =>
      snd (request (create_post user_id image_filename caption now) w)
  | DoDeletePost session post_id =>
      snd (request (delete_post module_dir session post_id) w)
  | DoToggleLike session post_id now referrer =>
      snd (request (toggle_like session post_id now referrer) w)
  | DoFeed host session => snd (request (feed host session) w)
  | DoLeaderboard host session => snd (request (leaderboard host session) w)
  | DoRestart salt => snd (create_app generate_password_hash salt w)
  end.

(** The first start finds no database file; everything later is an action
    on a started application. *)
Inductive reachable : World → Prop :=
  | reachable_first_start w salt :
      disk w = empty_db →
      reachable (snd (create_app generate_password_hash salt w))
  | reachable_perform w a :
      reachable w → reachable (perform a w).

End Running.

(** The like count that the application reports for a post: the
    [like_count] column of the row that [fetch_post_by_id] returns. *)
Definition reported_like_count (db : DB) (post_id : Z) : option Z :=
  det_like_count <$> fetchone (select_post_by_id post_id db).

(** The rows of [users] with the admin flag set. *)
Definition admins (db : DB) : list User :=
  filter (λ u, is_admin u = 1) (users db).


(** Every stored post carries a timestamp written by [create_post] that the
    display zone of [host] can show: the text is the [isoformat] of a UTC
    value whose conversion stays within the years 1 to 9999. *)
Definition displayable (host : Host) (created_at : string) : Prop :=
  ∃ d, is_utc d = true ∧ created_at = isoformat d
       ∧ valid_offset (Some (tz_utcoffset (IST host) d)) = true
       ∧ is_Some (add_minutes d (tz_utcoffset (IST host) d)).

End App.

(** ** Concrete data for the examples *)

Module Examples.
Import Store Runtime Datetime App.

(** A stand-in for werkzeug's hash in closed examples. *)
Definition toy_hash (salt password : string) : string :=
  salt +:+ "$" +:+ password.

Definition form_of (username password : string) : gmap string string :=
  {[ "username" := username; "password" := password ]}.

Definition fresh_world : World :=
  mk_World empty_db empty_db {[ "/srv/app/uploads/a.png" ]} ∅ [].

(** The world after the first start. *)
Definition started_world : World := snd (create_app toy_hash "s0" fresh_world).

Definition noon : datetime := mk_datetime 2024 2 29 12 0 0 0 (Some 0).
Definition evening : datetime := mk_datetime 2024 2 29 20 15 7 250000 (Some 0).

(** A host without a time zone database, and one whose database holds the
    IANA history of Asia/Kolkata in outline: +6:30 during the war years up
    to 1945, +5:30 since. *)
Definition host_without_tzdata : Host :=
  mk_Host (λ _, None) (λ _, 60).

Definition host_with_tzdata : Host :=
  mk_Host (λ key, if bool_decide (key = "Asia/Kolkata")
                  then Some (λ utc, if year utc <? 1945 then 390 else 330)
                  else None)
          (λ _, -300).

Definition bob : Session := mk_Session (Some 2) (Some "bob") false.
Definition carol : Session := mk_Session (Some 3) (Some "carol") false.
Definition dave : Session := mk_Session (Some 4) (Some "dave") false.
Definition admin : Session := mk_Session (Some 1) (Some "admin") true.

(** After the first start, the registration of bob and his first post. *)
Definition started_post_world : World :=
  foldl (λ w a, perform toy_hash "/srv/app" a w) started_world
    [ DoRegister "s1" POST (form_of "bob" "pw1");
      DoCreatePost 2 "a.png" "P1" noon ].

(** Three members and two posts: P1 (the older one) with 2 likes and P2
    with 3 likes. *)
Definition two_posts_world : World :=
  let acts :=
    [ DoRegister "s1" POST (form_of "bob" "pw1");
      DoRegister "s2" POST (form_of "carol" "pw2");
      DoRegister "s3" POST (form_of "dave" "pw3");
      DoCreatePost 2 "a.png" "P1" noon;
      DoCreatePost 3 "b.png" "P2" evening;
      DoToggleLike bob 1 evening None;
      DoToggleLike carol 1 evening None;
      DoToggleLike bob 2 evening None;
      DoToggleLike carol 2 evening None;
      DoToggleLike dave 2 evening None ] in
  foldl (λ w a, perform toy_hash "/srv/app" a w) started_world acts.

(** The same, with the image of P1 in place but not removable. *)
Definition locked_world : World :=
  mk_World (disk two_posts_world) (conn two_posts_world)
    (files two_posts_world) {[ "/srv/app/uploads/a.png" ]}
    (log two_posts_world).

(** A stored row dated in 1943, and one dated in 2024. *)
Definition row_1943 : PostRow :=
  mk_PostRow 7 "old.png" "archive" "1943-01-01T00:00:00+00:00" "bob" 0.

Definition row_2024 : PostRow :=
  mk_PostRow 1 "a.png" "P1" (isoformat noon) "bob" 2.

(** Three posts of bob, made in the same microsecond and not liked yet. *)
Definition tied_world : World :=
  foldl (λ w a, perform toy_hash "/srv/app" a w) started_world
    [ DoRegister "s1" POST (form_of "bob" "pw1");
      DoCreatePost 2 "a.png" "P1" noon;
      DoCreatePost 2 "b.png" "P2" noon;
      DoCreatePost 2 "c.png" "P3" noon ].

Definition post1 : PostDetail :=
  mk_PostDetail 1 2 "a.png" "P1" "2024-02-29T12:00:00+00:00" "bob" 2.

End Examples.

(** ** More of [app.py]: file names, uploads, logging in and out *)

Module Filename.

(** [c.lower()] for a code point below 256: the capital letters A to Z and
    the capitals of Latin-1 (U+00C0 to U+00DE, but not the multiplication
    sign U+00D7) move up by 32. *)
Definition lower_char (c : ascii) : ascii :=
  let n := N_of_ascii c in
  if ((65 <=? n) && (n <=? 90) || (192 <=? n) && (n <=? 214)
      || (216 <=? n) && (n <=? 222))%N
  then ascii_of_N (n + 32) else c.

(** [s.lower()] *)
Fixpoint lower (s : string) : string :=
  match s with
  | EmptyString => EmptyString
  | String c s' => String (lower_char c) (lower s')
  end.

(** ["." in s] *)
Fixpoint contains_dot (s : string) : bool :=
  match s with
  | EmptyString => false
  | String c s' => Ascii.eqb c "." || contains_dot s'
  end.

(** The split of [s] at its last dot, when it has one. *)
Fixpoint split_last_dot (s : string) : option (string * string) :=
  match s with
  | EmptyString => None
  | String c s' =>
      match split_last_dot s' with
      | Some (h, t) => Some (String c h, t)
      | None => if Ascii.eqb c "." then Some (EmptyString, s') else None
      end
  end.

(** [s.rsplit(".", 1)] *)
Definition rsplit_dot (s : string) : list string :=
  match split_last_dot s with
  | Some (h, t) => [h; t]
  | None => [s]
  end.

(** [app.config["ALLOWED_EXTENSIONS"]] *)
Definition ALLOWED_EXTENSIONS : gset string :=
  {[ "png"; "jpg"; "jpeg"; "gif"; "webp" ]}.

(** [allowed_file(filename, app)].  The second operand of [and] is only
    evaluated when the name has a dot, and then the split has two parts. *)
Definition allowed_file (filename : string) : bool :=
  contains_dot filename
  && match rsplit_dot filename !! 1%nat with
     | Some ext => bool_decide (lower ext ∈ ALLOWED_EXTENSIONS)
     | None => false
     end.

End Filename.

Module Upload.
Import Store Runtime Datetime App Filename.
Open Scope py_scope.

(** [d.strftime("%Y%m%d%H%M%S%f")], the year written with four digits. *)
Definition strftime_compact (d : datetime) : string :=
  zfill 4 (year d) +:+ zfill 2 (month d) +:+ zfill 2 (day d)
  +:+ zfill 2 (hour d) +:+ zfill 2 (minute d) +:+ zfill 2 (second d)
  +:+ zfill 6 (microsecond d).

(** [app.config["MAX_CONTENT_LENGTH"]]: 10 MB. *)
Definition MAX_CONTENT_LENGTH : Z := 10 * 1024 * 1024.

(** The first read of [request.form] or [request.files]: Flask raises
    RequestEntityTooLarge (the response 413) when the body of the request is
    longer than MAX_CONTENT_LENGTH. *)
Definition load_form_data (content_length : Z) : M unit :=
  if MAX_CONTENT_LENGTH <? content_length then raise RequestEntityTooLarge
  else pass.
Arguments load_form_data : simpl never.

(** [image.save(path)]: afterwards the path exists. *)
Definition save (path : string) : M unit := λ w,
  (Ok (), mk_World (disk w) (conn w) (files w ∪ {[path]}) (protected w)
            (log w)).

Section Werkzeug.

(** [werkzeug.utils.secure_filename] *)
Variable secure_filename : string → string.

(** The view [upload].  [root_path] is [app.root_path]; [content_length]
    is the length of the body of the request; [image] is the file name of
    [request.files.get("image")], [None] when the form has no such part;
    [now] is the clock reading that names the file and [now_post] the later
    one that [create_post] stores. *)
Definition upload (root_path : string) (session : Session) (method : Method)
    (content_length : Z) (form : gmap string string) (image : option string)
    (now now_post : datetime) : M Response :=
  login_required session (λ user_id,
    match method with
    | POST =>
        load_form_data content_length >>
        let caption := Text.strip (default "" (form !! "caption")) in
        match image with
        | Some image_filename =>
            if bool_decide (image_filename = "") then
              flash "Please choose an image to upload." "warning" >>
              ret (Redirect (UrlFor "upload"))
            else if negb (allowed_file image_filename) then
              flash "Unsupported file type. Please upload an image." "danger" >>
              ret (Redirect (UrlFor "upload"))
            else
              let filename := secure_filename image_filename in
              let timestamp := strftime_compact now in
              let stored_filename := timestamp +:+ "_" +:+ filename in
              let image_path :=
                path_join (path_join root_path "uploads") stored_filename in
              save image_path >>
              create_post user_id stored_filename caption now_post >>
              flash "Your art has been shared!" "success" >>
              ret (Redirect (UrlFor "feed"))
        | None =>
            flash "Please choose an image to upload." "warning" >>
            ret (Redirect (UrlFor "upload"))
        end
    | GET => ret (RenderTemplate "upload.html" [])
    end).

End Werkzeug.

End Upload.

Module Account.
Import Store Runtime Datetime App.
Open Scope py_scope.

(** The session after [session.clear()]. *)
Definition cleared : Session := mk_Session None None false.

Section Werkzeug.

(** [werkzeug.security.check_password_hash(pwhash, password)] *)
Variable check_password_hash : string → string → bool.

(** The view [login]; it answers with the response and the session it
    leaves. *)
Definition login (method : Method) (form : gmap string string)
    (session : Session) : M (Response * Session) :=
  match method with
  | POST =>
      let username := Text.strip (default "" (form !! "username")) in
      let password := default "" (form !! "password") in
      do user <- fetch_user_by_username username;
      match user with
      | Some user =>
          if negb (check_password_hash (password_hash user) password) then
            flash "Invalid username or password." "danger" >>
            ret (Redirect (UrlFor "login"), session)
          else
            flash ("Welcome back, " +:+ Store.username user +:+ "!") "success" >>
            ret (Redirect (UrlFor "feed"),
                 mk_Session (Some (Store.user_id user))
                   (Some (Store.username user))
                   (bool_decide (is_admin user ≠ 0)))
      | None =>
          flash "Invalid username or password." "danger" >>
          ret (Redirect (UrlFor "login"), session)
      end
  | GET => ret (RenderTemplate "login.html" [], session)
  end.

End Werkzeug.

(** The view [logout]. *)
Definition logout : M (Response * Session) :=
  flash "You have been logged out." "info" >>
  ret (Redirect (UrlFor "login"), cleared).

End Account.

Module Schema.
Import Store.

(** The constraints that [create_tables] declares, as a property of a
    database: the primary keys and the UNIQUE columns hold no value twice,
    no row carries an id above the counter of its table, and every Like row
    points to a post that is there. *)
Record constraints (db : DB) : Prop := mk_constraints {
  users_pk : NoDup (user_id <$> users db);
  users_seq : ∀ u, u ∈ users db → user_id u ≤ seq_users db;
  users_unique : NoDup (username <$> users db);
  posts_pk : NoDup (post_id <$> posts db);
  posts_seq : ∀ p, p ∈ posts db → post_id p ≤ seq_posts db;
  likes_pk : NoDup (like_id <$> likes db);
  likes_seq : ∀ l, l ∈ likes db → like_id l ≤ seq_likes db;
  likes_unique :
    NoDup ((λ l, (like_user_id l, like_post_id l)) <$> likes db);
  likes_post : ∀ l, l ∈ likes db →
                    ∃ p, p ∈ posts db ∧ post_id p = like_post_id l
}.

(** The users who have a Like row for a post. *)
Definition likers (db : DB) (pid : Z) : gset Z :=
  list_to_set (like_user_id <$> filter (λ l, like_post_id l = pid) (likes db)).

(** No stored name is empty, and trimming a stored name gives it back. *)
Definition names_trimmed (db : DB) : Prop :=
  ∀ u, u ∈ users db → username u ≠ "" ∧ Text.strip (username u) = username u.

End Schema.

Module MoreExamples.
Import Store Runtime Datetime App Examples.

(** Stand-ins for werkzeug in closed examples. *)
Definition toy_check (pwhash password : string) : bool :=
  bool_decide (Exists (λ salt, pwhash = toy_hash salt password)
                 ["s0"; "s1"; "s2"; "s3"]).

Definition toy_secure_filename (name : string) : string := name.

Definition caption_form (caption : string) : gmap string string :=
  {[ "caption" := caption ]}.

(** A database in which the account "admin" has lost its admin flag. *)
Definition demoted_world : World :=
  let db := mk_DB [mk_User 1 "admin" (toy_hash "s0" "adminpass") 0]
              [] [] 1 0 0 in
  mk_World db db ∅ ∅ [].

End MoreExamples.

(** * Properties *)

Import Store Runtime Datetime App Examples.
Open Scope py_scope.

(** ** The order of TEXT values *)

Lemma ascii_compare_refl c : Ascii.compare c c = Eq.
Proof. unfold Ascii.compare. apply N.compare_refl. Qed.

Lemma string_compare_refl s : String.compare s s = Eq.
Proof. induction s as [|c s IH]; simpl; [done|]. by rewrite ascii_compare_refl. Qed.

Lemma string_compare_trans_le s t u :
  String.compare s t ≠ Gt → String.compare t u ≠ Gt → String.compare s u ≠ Gt.
Proof.
  revert t u. induction s as [|a s IH]; intros [|b t] [|c u]; simpl; try done.
  unfold Ascii.compare.
  destruct (N.compare_spec (N_of_ascii a) (N_of_ascii b)) as [Hab|Hab|Hab];
    try done;
    destruct (N.compare_spec (N_of_ascii b) (N_of_ascii c)) as [Hbc|Hbc|Hbc];
    try done;
    destruct (N.compare_spec (N_of_ascii a) (N_of_ascii c)) as [Hac|Hac|Hac];
    try done; try lia.
  apply IH.
Qed.

Lemma text_le_compare s t : Text.le s t ↔ String.compare s t ≠ Gt.
Proof.
  unfold Text.le, String.leb. destruct (String.compare s t); split; done.
Qed.

Lemma text_le_refl s : Text.le s s.
Proof. apply text_le_compare. by rewrite string_compare_refl. Qed.

Lemma text_le_trans s t u : Text.le s t → Text.le t u → Text.le s u.
Proof. rewrite !text_le_compare. apply string_compare_trans_le. Qed.

Lemma text_le_total s t : Text.le s t ∨ Text.le t s.
Proof.
  rewrite !text_le_compare, (String.compare_antisym t s).
  destruct (String.compare s t); simpl; auto.
Qed.

Lemma text_le_antisym s t : Text.le s t → Text.le t s → s = t.
Proof. apply String.leb_antisym. Qed.

(** ** Timestamps as text *)

Lemma digit_code n : 0 ≤ n ≤ 9 → N_of_ascii (digit n) = (48 + Z.to_N n)%N.
Proof. intros H. unfold digit. apply N_ascii_embedding. lia. Qed.

Lemma digit_compare a b :
  0 ≤ a ≤ 9 → 0 ≤ b ≤ 9 → Ascii.compare (digit a) (digit b) = (a ?= b).
Proof.
  intros Ha Hb. unfold Ascii.compare. rewrite !digit_code by done.
  rewrite <- N2Z.inj_compare, !N2Z.inj_add, !Z2N.id by lia.
  apply Z.add_compare_mono_l.
Qed.

Lemma digit_value_digit n : 0 ≤ n ≤ 9 → digit_value (digit n) = Some n.
Proof.
  intros H. unfold digit_value. rewrite digit_code by done.
  replace ((48 <=? 48 + Z.to_N n)%N && (48 + Z.to_N n <=? 57)%N) with true.
  - f_equal. lia.
  - symmetry. apply andb_true_iff. split; apply N.leb_le; lia.
Qed.

Lemma pow10_pos k : 0 < 10 ^ Z.of_nat k.
Proof. apply Z.pow_pos_nonneg; lia. Qed.

Lemma pow10_succ k : 10 ^ Z.of_nat (S k) = 10 * 10 ^ Z.of_nat k.
Proof. rewrite Nat2Z.inj_succ, Z.pow_succ_r by lia. reflexivity. Qed.

(** The leading digit and the rest of a number below [10^(k+1)]. *)
Lemma split_digits k n :
  0 ≤ n < 10 ^ Z.of_nat (S k) →
  0 ≤ n / 10 ^ Z.of_nat k ≤ 9
  ∧ 0 ≤ n mod 10 ^ Z.of_nat k < 10 ^ Z.of_nat k
  ∧ n = 10 ^ Z.of_nat k * (n / 10 ^ Z.of_nat k) + n mod 10 ^ Z.of_nat k.
Proof.
  intros [H0 H1]. rewrite pow10_succ in H1. pose proof (pow10_pos k) as Hp.
  split; [|split].
  - split; [apply Z.div_pos; lia|].
    assert (n / 10 ^ Z.of_nat k < 10); [|lia].
    apply Z.div_lt_upper_bound; lia.
  - apply Z.mod_pos_bound; lia.
  - apply Z.div_mod; lia.
Qed.

Lemma lex_eq c : lex Eq c = c.
Proof. reflexivity. Qed.

(** Zero-padded numbers of one width compare as texts the way they compare
    as numbers. *)
Lemma zfill_compare k a b s t :
  0 ≤ a < 10 ^ Z.of_nat k → 0 ≤ b < 10 ^ Z.of_nat k →
  String.compare (zfill k a +:+ s) (zfill k b +:+ t)
  = lex (a ?= b) (String.compare s t).
Proof.
  revert a b. induction k as [|k IH]; intros a b Ha Hb.
  - simpl in *. assert (a = 0) as -> by lia. assert (b = 0) as -> by lia.
    reflexivity.
  - destruct (split_digits k a Ha) as (Hqa & Hra & Ea).
    destruct (split_digits k b Hb) as (Hqb & Hrb & Eb).
    simpl zfill. simpl String.append. simpl String.compare.
    rewrite digit_compare by done.
    pose proof (pow10_pos k) as Hp.
    destruct (Z.compare_spec (a / 10 ^ Z.of_nat k) (b / 10 ^ Z.of_nat k))
      as [Hq|Hq|Hq].
    + rewrite IH by done. f_equal. rewrite Hq in Ea.
      destruct (Z.compare_spec (a mod 10 ^ Z.of_nat k) (b mod 10 ^ Z.of_nat k));
        symmetry;
        [apply Z.compare_eq_iff|apply Z.compare_lt_iff|apply Z.compare_gt_iff];
        lia.
    + assert (a < b) as ->%Z.compare_lt_iff by nia. reflexivity.
    + assert (b < a) as ->%Z.compare_gt_iff by nia. reflexivity.
Qed.

Lemma compare_same_head c s t :
  String.compare (String c s) (String c t) = String.compare s t.
Proof. simpl. by rewrite ascii_compare_refl. Qed.

Lemma compare_same_sep c s t :
  String.compare (String c "" +:+ s) (String c "" +:+ t) = String.compare s t.
Proof. apply compare_same_head. Qed.

Lemma lex_Eq_r c : lex c Eq = c.
Proof. by destruct c. Qed.

Lemma days_in_month_le y m : 28 ≤ days_in_month y m ≤ 31.
Proof.
  unfold days_in_month.
  repeat match goal with |- context [if ?b then _ else _] => destruct b end;
    lia.
Qed.

(** The ranges of the fields of a valid value. *)
Lemma valid_bounds d :
  valid d = true →
  (1 ≤ year d ≤ 9999) ∧ (1 ≤ month d ≤ 12)
  ∧ (1 ≤ day d ≤ days_in_month (year d) (month d))
  ∧ (0 ≤ hour d < 24) ∧ (0 ≤ minute d < 60) ∧ (0 ≤ second d < 60)
  ∧ (0 ≤ microsecond d < 1000000).
Proof.
  unfold valid, valid_date, valid_time. rewrite !andb_true_iff.
  rewrite !Z.leb_le, !Z.ltb_lt. tauto.
Qed.

Lemma is_utc_inv d :
  is_utc d = true → valid d = true ∧ utcoffset d = Some 0.
Proof.
  unfold is_utc. rewrite andb_true_iff, bool_decide_eq_true. tauto.
Qed.

Ltac field_bound :=
  match goal with
  | |- _ ≤ _ < 10 ^ Z.of_nat ?k =>
      let p := eval vm_compute in (10 ^ Z.of_nat k) in
      change (10 ^ Z.of_nat k) with p; lia
  end.

(** The texts that [create_post] stores compare the way the instants they
    denote do. *)
Lemma isoformat_compare d1 d2 :
  is_utc d1 = true → is_utc d2 = true →
  String.compare (isoformat d1) (isoformat d2) = chrono_compare d1 d2.
Proof.
  intros [V1 O1]%is_utc_inv [V2 O2]%is_utc_inv.
  pose proof (days_in_month_le (year d1) (month d1)).
  pose proof (days_in_month_le (year d2) (month d2)).
  apply valid_bounds in V1 as (? & ? & ? & ? & ? & ? & ?).
  apply valid_bounds in V2 as (? & ? & ? & ? & ? & ? & ?).
  unfold isoformat, chrono_compare. rewrite O1, O2.
  repeat (rewrite zfill_compare by field_bound; rewrite ?compare_same_sep).
  repeat f_equal.
  change (format_offset (Some 0)) with "+00:00".
  destruct (Z.eqb_spec (microsecond d1) 0) as [E1|E1];
    destruct (Z.eqb_spec (microsecond d2) 0) as [E2|E2].
  - rewrite E1, E2. reflexivity.
  - rewrite E1.
    assert ((0 ?= microsecond d2) = Lt) as -> by (apply Z.compare_lt_iff; lia).
    reflexivity.
  - rewrite E2.
    assert ((microsecond d1 ?= 0) = Gt) as -> by (apply Z.compare_gt_iff; lia).
    reflexivity.
  - change (("." +:+ zfill 6 (microsecond d1)) +:+ "+00:00")
      with (String "." (zfill 6 (microsecond d1) +:+ "+00:00")).
    change (("." +:+ zfill 6 (microsecond d2)) +:+ "+00:00")
      with (String "." (zfill 6 (microsecond d2) +:+ "+00:00")).
    rewrite compare_same_head, zfill_compare by field_bound.
    apply lex_Eq_r.
Qed.

Lemma chrono_compare_refl d : chrono_compare d d = Eq.
Proof. unfold chrono_compare. by rewrite !Z.compare_refl. Qed.

(** *** Reading back what [isoformat] wrote *)

Lemma take_digits_zfill k n acc s :
  0 ≤ n < 10 ^ Z.of_nat k →
  take_digits k acc (zfill k n +:+ s) = Some (acc * 10 ^ Z.of_nat k + n, s).
Proof.
  revert n acc. induction k as [|k IH]; intros n acc Hn.
  - simpl in *. do 2 f_equal. lia.
  - destruct (split_digits k n Hn) as (Hq & Hr & En).
    simpl zfill. simpl String.append. simpl take_digits.
    rewrite digit_value_digit by done. simpl.
    rewrite IH by done. do 2 f_equal. rewrite pow10_succ. lia.
Qed.

Lemma bind_take_digits {A} k n s (f : Z * string → option A) :
  0 ≤ n < 10 ^ Z.of_nat k →
  (take_digits k 0 (zfill k n +:+ s) ≫= f) = f (n, s).
Proof. intros H. by rewrite take_digits_zfill. Qed.

Lemma bind_expect {A} c s (f : string → option A) :
  (expect c (String c "" +:+ s) ≫= f) = f s.
Proof. simpl. by rewrite Ascii.eqb_refl. Qed.

Lemma parse_tail_utc us :
  0 ≤ us < 1000000 →
  parse_fraction ((if us =? 0 then "" else "." +:+ zfill 6 us)
                  +:+ format_offset (Some 0))
  = Some (us, "+00:00").
Proof.
  intros H. change (format_offset (Some 0)) with "+00:00".
  destruct (Z.eqb_spec us 0) as [->|Hne]; [reflexivity|].
  change (("." +:+ zfill 6 us) +:+ "+00:00")
    with (String "." (zfill 6 us +:+ "+00:00")).
  unfold parse_fraction. rewrite take_digits_zfill by field_bound.
  reflexivity.
Qed.

(** [fromisoformat] reads the text of a UTC value back to that value. *)
Lemma fromisoformat_isoformat d :
  is_utc d = true → fromisoformat (isoformat d) = Some d.
Proof.
  intros Hutc. destruct (is_utc_inv d Hutc) as [V O].
  pose proof (days_in_month_le (year d) (month d)).
  destruct (valid_bounds d V) as (? & ? & ? & ? & ? & ? & ?).
  unfold fromisoformat, isoformat. rewrite O.
  repeat (rewrite bind_take_digits by field_bound; cbv beta iota;
          rewrite ?bind_expect).
  rewrite parse_tail_utc by lia.
  cbn [mbind option_bind]. cbv zeta.
  change (parse_offset "+00:00") with (Some (Some 0)).
  cbn [mbind option_bind]. rewrite <- O.
  replace (mk_datetime (year d) (month d) (day d) (hour d) (minute d)
             (second d) (microsecond d) (utcoffset d)) with d
    by (by destruct d).
  by rewrite V.
Qed.

(** *** Converting a stored timestamp to the display zone *)

Lemma add_minutes_0 d : valid d = true → add_minutes d 0 = Some d.
Proof.
  intros V. destruct (valid_bounds d V) as (? & ? & ? & ? & ? & ? & ?).
  unfold add_minutes. rewrite Z.add_0_r.
  destruct (Z.ltb_spec (hour d * 60 + minute d) 0); [lia|].
  destruct (Z.leb_spec 1440 (hour d * 60 + minute d)); [lia|].
  rewrite (Z.mod_small _ 1440) by lia.
  replace ((hour d * 60 + minute d) / 60) with (hour d)
    by (Z.div_mod_to_equations; lia).
  replace ((hour d * 60 + minute d) mod 60) with (minute d)
    by (Z.div_mod_to_equations; lia).
  simpl. destruct (Z.leb_spec 1 (year d)); [|lia].
  destruct (Z.leb_spec (year d) 9999); [|lia].
  simpl. by destruct d.
Qed.

(** [astimezone] on a UTC value: the host's local zone plays no part. *)
Lemma astimezone_utc host d tz :
  is_utc d = true →
  valid_offset (Some (tz_utcoffset tz d)) = true →
  astimezone host d tz
  = (λ r, with_offset r (Some (tz_utcoffset tz d)))
      <$> add_minutes d (tz_utcoffset tz d).
Proof.
  intros Hutc Hoff. destruct (is_utc_inv d Hutc) as [V O].
  unfold astimezone. rewrite O.
  change (negb (valid_offset (Some 0))) with false. cbv iota.
  change (- 0) with 0. rewrite add_minutes_0 by done.
  cbn [mbind option_bind]. rewrite Hoff. cbn [negb].
  by destruct (add_minutes d (tz_utcoffset tz d)).
Qed.

(** The dictionary of one stored post. *)
Lemma format_row_utc host liked_set row d :
  is_utc d = true →
  row_created_at row = isoformat d →
  valid_offset (Some (tz_utcoffset (IST host) d)) = true →
  format_row host liked_set row
  = match add_minutes d (tz_utcoffset (IST host) d) with
    | Some r =>
        let created_at := with_offset r (Some (tz_utcoffset (IST host) d)) in
        Ok (mk_PostView (row_id row) (row_image_path row) (row_caption row)
              (row_username row) created_at (strftime_display created_at)
              (row_like_count row) (bool_decide (row_id row ∈ liked_set)))
    | None => Raise OverflowError
    end.
Proof.
  intros Hutc Hrow Hoff. unfold format_row.
  rewrite Hrow, fromisoformat_isoformat, astimezone_utc by done.
  by destruct (add_minutes d (tz_utcoffset (IST host) d)).
Qed.






(** Unfolds the views and the primitives of the monad. *)
Ltac run_monad :=
  unfold request, register, toggle_like, delete_post, feed, leaderboard,
    create_app;
  unfold login_required, admin_required;
  unfold remove_post, create_user, user_exists, fetch_post_by_id,
    user_has_liked, add_like, remove_like, create_post, fetch_posts,
    get_user_liked_post_ids, create_tables, ensure_admin_exists;
  unfold bind, ret, pass, lift, flash, emit, query, update, commit, connect,
    close, record, path_exists, os_remove; simpl.

(** ** Registration *)

Lemma insert_user_users name hash admin db db' :
  insert_user name hash admin db = Some db' →
  select_users_by_username db name = []
  ∧ users db' = users db ++ [mk_User (seq_users db + 1) name hash admin]
  ∧ posts db' = posts db ∧ likes db' = likes db.
Proof.
  unfold insert_user. case_bool_decide; [|discriminate].
  intros [= <-]. simpl. auto.
Qed.

Lemma select_users_by_username_app db name u :
  username u = name →
  filter (λ u, username u = name) (users db ++ [u]) ≠ [].
Proof.
  intros Hu. rewrite filter_app, filter_cons_True by done.
  intros H. apply app_eq_nil in H as [_ H]. discriminate.
Qed.

Lemma fetchone_is_Some {A} (rows : list A) :
  bool_decide (is_Some (fetchone rows)) = bool_decide (rows ≠ []).
Proof.
  apply bool_decide_ext. destruct rows; simpl; split; try done.
Qed.

(** The outcome of a POST to [register], by cases. *)
Lemma register_post_cases hash salt form w :
  let username := Text.strip (default "" (form !! "username")) in
  let password := default "" (form !! "password") in
  let w' := snd (request (register hash salt POST form) w) in
  let r := fst (request (register hash salt POST form) w) in
  (* a field is missing *)
  ((username = "" ∨ password = "")
   ∧ r = Ok (Redirect (UrlFor "register")) ∧ disk w' = disk w
   ∧ log w' = log w ++ [Flash "Username and password are required." "danger"])
  (* the name is taken *)
  ∨ (username ≠ "" ∧ password ≠ ""
     ∧ select_users_by_username (disk w) username ≠ []
     ∧ r = Ok (Redirect (UrlFor "register")) ∧ disk w' = disk w
     ∧ log w' = log w ++ [Execute (SelectUserExists username);
                          Flash "That username is already taken." "warning"])
  (* the account is created *)
  ∨ (username ≠ "" ∧ password ≠ ""
     ∧ select_users_by_username (disk w) username = []
     ∧ r = Ok (Redirect (UrlFor "login"))
     ∧ insert_user username (hash salt password) is_admin_default (disk w)
       = Some (disk w')).
Proof.
  intros username password. run_monad. fold username password.
  destruct (decide (username = "")) as [Hu|Hu].
  { left. rewrite (bool_decide_eq_true_2 _ Hu). simpl. auto 6. }
  destruct (decide (password = "")) as [Hp|Hp].
  { left. rewrite (bool_decide_eq_true_2 _ Hp), orb_true_r. simpl. auto 6. }
  rewrite (bool_decide_eq_false_2 _ Hu), (bool_decide_eq_false_2 _ Hp). simpl.
  rewrite fetchone_is_Some.
  destruct (decide (select_users_by_username (disk w) username = [])) as [He|He].
  - right; right. rewrite (bool_decide_eq_false_2 (_ ≠ [])) by (intros H; auto).
    unfold insert_user. simpl. rewrite (bool_decide_eq_true_2 _ He). simpl. repeat split; auto.
  - right; left. rewrite (bool_decide_eq_true_2 _ He). simpl. repeat split; auto.
    by rewrite <- app_assoc.
Qed.

(** C3, as the code has it: a POST to [register] whose username is empty
    after trimming, or whose password is empty as sent, is answered with
    the flash message "Username and password are required." and a redirect
    back to the form; no statement is executed and the database is left as
    it was. *)
Theorem register_requires_username_and_password
    (hash : string → string → string) (salt : string)
    (form : gmap string string) (w : World) :
  Text.strip (default "" (form !! "username")) = ""
  ∨ default "" (form !! "password") = "" →
  fst (request (register hash salt POST form) w)
    = Ok (Redirect (UrlFor "register"))
  ∧ disk (snd (request (register hash salt POST form) w)) = disk w
  ∧ log (snd (request (register hash salt POST form) w))
    = log w ++ [Flash "Username and password are required." "danger"].
Proof.
  intros H.
  destruct (register_post_cases hash salt form w)
    as [(_ & ? & ? & ?)|[(Hu & Hp & _)|(Hu & Hp & _)]]; auto;
    destruct H; contradiction.
Qed.

Lemma register_requires_username_and_password_witness :
  fst (request (register toy_hash "s1" POST (form_of "  " "secret")) started_world)
    = Ok (Redirect (UrlFor "register"))
  ∧ disk (snd (request (register toy_hash "s1" POST (form_of "  " "secret"))
                 started_world)) = disk started_world
  ∧ log (snd (request (register toy_hash "s1" POST (form_of "  " "secret"))
                started_world))
    = log started_world ++ [Flash "Username and password are required." "danger"].
Proof.
  apply (register_requires_username_and_password toy_hash "s1"
           (form_of "  " "secret") started_world).
  left. vm_compute. reflexivity.
Defined.

(** C3, the claim as it is written, fails: a password of three spaces is
    empty after trimming, yet the account is created. *)
Lemma register_accepts_blank_password :
  Text.strip (default "" (form_of "bob" "   " !! "password")) = ""
  ∧ fst (request (register toy_hash "s1" POST (form_of "bob" "   ")) started_world)
    = Ok (Redirect (UrlFor "login"))
  ∧ users (disk (snd (request (register toy_hash "s1" POST (form_of "bob" "   "))
                        started_world)))
    = users (disk started_world) ++ [mk_User 2 "bob" (toy_hash "s1" "   ") 0].
Proof. vm_compute. auto. Qed.

(** C9: whatever is sent to [register], every row of [users] afterwards is
    a row that was there before or has the admin flag 0; the rows with the
    admin flag set are the same; and the row that [create_user] inserts
    carries the column default 0. *)
Theorem registration_never_creates_admin
    (hash : string → string → string) (salt : string) (method : Method)
    (form : gmap string string) (w : World) :
  (∀ u, u ∈ users (disk (snd (request (register hash salt method form) w))) →
        u ∈ users (disk w) ∨ is_admin u = 0)
  ∧ admins (disk (snd (request (register hash salt method form) w)))
    = admins (disk w)
  ∧ (∀ username password_hash,
       users (conn (snd (create_user username password_hash w))) = users (conn w)
       ∨ ∃ id, users (conn (snd (create_user username password_hash w)))
               = users (conn w) ++ [mk_User id username password_hash 0]).
Proof.
  assert (Hcases :
    disk (snd (request (register hash salt method form) w)) = disk w
    ∨ ∃ name h, insert_user name h 0 (disk w)
                = Some (disk (snd (request (register hash salt method form) w)))).
  { destruct method; [left; reflexivity|].
    destruct (register_post_cases hash salt form w)
      as [(_ & _ & ? & _)|[(_ & _ & _ & _ & ? & _)|(_ & _ & _ & _ & ?)]];
      eauto. }
  split; [|split].
  - intros u Hu. destruct Hcases as [He|(name & h & Hi)];
      [rewrite He in Hu; auto|].
    apply insert_user_users in Hi as (_ & Hi & _). rewrite Hi in Hu.
    apply elem_of_app in Hu as [Hu|Hu]; auto.
    apply list_elem_of_singleton in Hu as ->. auto.
  - destruct Hcases as [->|(name & h & Hi)]; auto.
    apply insert_user_users in Hi as (_ & Hi & _). unfold admins.
    rewrite Hi, filter_app, filter_cons_False, filter_nil, app_nil_r; auto.
  - intros username password_hash. run_monad.
    unfold insert_user. case_bool_decide; simpl; eauto.
Qed.

Lemma registration_never_creates_admin_witness :
  mk_User 2 "bob" (toy_hash "s1" "pw1") 0
    ∈ users (disk (snd (request (register toy_hash "s1" POST (form_of "bob" "pw1"))
                          started_world)))
  ∧ (mk_User 2 "bob" (toy_hash "s1" "pw1") 0 ∈ users (disk started_world)
     ∨ is_admin (mk_User 2 "bob" (toy_hash "s1" "pw1") 0) = 0).
Proof.
  assert (H : mk_User 2 "bob" (toy_hash "s1" "pw1") 0
    ∈ users (disk (snd (request (register toy_hash "s1" POST (form_of "bob" "pw1"))
                          started_world)))).
  { vm_compute. apply list_elem_of_lookup. exists 1%nat. reflexivity. }
  split; [exact H|].
  exact (proj1 (registration_never_creates_admin toy_hash "s1" POST
                  (form_of "bob" "pw1") started_world) _ H).
Defined.

(** C8: after a successful registration, a second POST with the same
    username (as trimmed) is sent back to the form and leaves the database
    as it was, with a single row for that name; when the second call carries
    a password, the statements executed are the one lookup and the message
    is "That username is already taken.". *)
Theorem register_twice_is_rejected
    (hash : string → string → string) (salt1 salt2 : string)
    (form1 form2 : gmap string string) (w : World) :
  fst (request (register hash salt1 POST form1) w)
    = Ok (Redirect (UrlFor "login")) →
  Text.strip (default "" (form2 !! "username"))
    = Text.strip (default "" (form1 !! "username")) →
  let name := Text.strip (default "" (form1 !! "username")) in
  let w1 := snd (request (register hash salt1 POST form1) w) in
  let w2 := snd (request (register hash salt2 POST form2) w1) in
  fst (request (register hash salt2 POST form2) w1)
    = Ok (Redirect (UrlFor "register"))
  ∧ disk w2 = disk w1
  ∧ length (select_users_by_username (disk w2) name) = 1%nat
  ∧ (default "" (form2 !! "password") ≠ "" →
     log w2 = log w1 ++ [Execute (SelectUserExists name);
                         Flash "That username is already taken." "warning"]).
Proof.
  intros Hok Hname. cbv zeta.
  set (name := Text.strip (default "" (form1 !! "username"))) in *.
  set (w1 := snd (request (register hash salt1 POST form1) w)).
  assert (Hfirst : select_users_by_username (disk w) name = []
    ∧ name ≠ ""
    ∧ ∃ u, username u = name ∧ users (disk w1) = users (disk w) ++ [u]).
  { destruct (register_post_cases hash salt1 form1 w)
      as [(_ & Hr & _)|[(_ & _ & _ & Hr & _)|(Hu & _ & He & _ & Hi)]];
      try (rewrite Hok in Hr; discriminate).
    apply insert_user_users in Hi as (_ & Hi & _).
    repeat split; auto. eexists; split; [|exact Hi]. reflexivity. }
  destruct Hfirst as (Hnone & Hne & u & Hu & Husers).
  assert (Hone : select_users_by_username (disk w1) name = [u]).
  { unfold select_users_by_username in *.
    rewrite Husers, filter_app, Hnone, filter_cons_True by done. reflexivity. }
  destruct (register_post_cases hash salt2 form2 w1)
    as [(Hc & Hr & Hd & _)|[(_ & Hp & _ & Hr & Hd & Hl)|(_ & _ & He & _)]];
    rewrite Hname in *.
  - repeat split; auto.
    + rewrite Hd, Hone. reflexivity.
    + intros Hp. destruct Hc; contradiction.
  - repeat split; auto. rewrite Hd, Hone. reflexivity.
  - rewrite Hone in He. discriminate.
Qed.

Lemma register_twice_is_rejected_witness :
  fst (request (register toy_hash "s2" POST (form_of "bob " "other"))
         (snd (request (register toy_hash "s1" POST (form_of " bob" "pw1"))
                 started_world)))
    = Ok (Redirect (UrlFor "register"))
  ∧ length (select_users_by_username
              (disk (snd (request (register toy_hash "s2" POST (form_of "bob " "other"))
                 (snd (request (register toy_hash "s1" POST (form_of " bob" "pw1"))
                         started_world))))) "bob") = 1%nat.
Proof.
  destruct (register_twice_is_rejected toy_hash "s1" "s2"
              (form_of " bob" "pw1") (form_of "bob " "other") started_world)
    as (H1 & _ & H3 & _).
  - vm_compute. reflexivity.
  - vm_compute. reflexivity.
  - split; [exact H1 | exact H3].
Defined.

(** ** Deleting a post *)

Lemma select_post_by_id_id pid db post :
  post ∈ select_post_by_id pid db → det_id post = pid.
Proof.
  unfold select_post_by_id. intros H.
  apply list_elem_of_In, in_flat_map in H as (p & Hp & H).
  apply list_elem_of_In, list_elem_of_filter in Hp as [Hp _].
  destruct (filter _ (users db)); simpl in H; [contradiction|].
  destruct H as [<-|[]]. exact Hp.
Qed.

Lemma select_post_by_id_post pid db :
  select_post_by_id pid db ≠ [] → ∃ p, p ∈ posts db ∧ post_id p = pid.
Proof.
  intros Hne. destruct (select_post_by_id pid db) as [|d rows] eqn:E; [done|].
  assert (Hd : d ∈ select_post_by_id pid db) by (rewrite E; left).
  unfold select_post_by_id in Hd.
  apply list_elem_of_In, in_flat_map in Hd as (p & Hp & _).
  apply list_elem_of_In, list_elem_of_filter in Hp as [Hid Hp]. eauto.
Qed.

(** Binding the id of a post that is found, or an id within the range of
    an INTEGER, succeeds; any other id overflows. *)
Lemma bind_post_id_found pid w :
  select_post_by_id pid (conn w) ≠ [] → bind_post_id pid w = (Ok (), w).
Proof.
  intros (p & Hp & Hid)%select_post_by_id_post. unfold bind_post_id.
  rewrite (bool_decide_eq_true_2 (pid ∈ post_id <$> posts (conn w))).
  - by rewrite orb_true_r.
  - apply list_elem_of_fmap. eauto.
Qed.

Lemma bind_post_id_in_range pid w :
  is_integer pid = true → bind_post_id pid w = (Ok (), w).
Proof. intros H. unfold bind_post_id. by rewrite H. Qed.

Lemma bind_post_id_overflow pid w :
  is_integer pid = false → pid ∉ post_id <$> posts (conn w) →
  bind_post_id pid w = (Raise OverflowError, w).
Proof.
  intros H Hn. unfold bind_post_id. by rewrite H, (bool_decide_eq_false_2 _ Hn).
Qed.

Lemma bind_post_id_cases pid w :
  bind_post_id pid w = (Ok (), w) ∨ bind_post_id pid w = (Raise OverflowError, w).
Proof. unfold bind_post_id. destruct (_ || _); auto. Qed.

(** Case analysis on the binding of a post id in an unfolded view. *)
Ltac bind_cases :=
  match goal with
  | |- context [bind_post_id ?p ?w] =>
      let Hb := fresh "Hb" in
      destruct (bind_post_id_cases p w) as [Hb|Hb]; rewrite Hb; simpl
  end.

Lemma fetchone_Some_nonempty {A} (rows : list A) (x : A) :
  fetchone rows = Some x → rows ≠ [].
Proof. by destruct rows. Qed.

Lemma fetchone_elem_of {A} (rows : list A) (x : A) :
  fetchone rows = Some x → x ∈ rows.
Proof. destruct rows; simpl; intros [= ->]. left. Qed.

Lemma delete_likes_of_post_none pid db l :
  l ∈ likes (delete_post_row pid (delete_likes_of_post pid db)) →
  like_post_id l ≠ pid.
Proof. simpl. intros H. by apply list_elem_of_filter in H as [H _]. Qed.

Lemma delete_post_row_none pid db p :
  p ∈ posts (delete_post_row pid (delete_likes_of_post pid db)) →
  post_id p ≠ pid.
Proof. simpl. intros H. by apply list_elem_of_filter in H as [H _]. Qed.

(** C10: when the image of the post is not in the upload directory,
    [remove_post] returns normally; the Like rows of the post and its Post
    row are deleted and committed; [os.remove] is not called and the files
    are left as they were. *)
Theorem remove_post_without_media_file
    (module_dir : string) (post : PostDetail) (w : World) :
  path_join (path_join module_dir "uploads") (det_image_path post) ∉ files w →
  fst (remove_post module_dir post w) = Ok ()
  ∧ disk (snd (remove_post module_dir post w))
    = delete_post_row (det_id post) (delete_likes_of_post (det_id post) (conn w))
  ∧ (∀ l, l ∈ likes (disk (snd (remove_post module_dir post w))) →
          like_post_id l ≠ det_id post)
  ∧ (∀ p, p ∈ posts (disk (snd (remove_post module_dir post w))) →
          post_id p ≠ det_id post)
  ∧ files (snd (remove_post module_dir post w)) = files w
  ∧ log (snd (remove_post module_dir post w))
    = log w ++ [Execute (DeleteLikesOfPost (det_id post));
                Execute (DeletePost (det_id post)); Commit;
                PathExists (path_join (path_join module_dir "uploads")
                              (det_image_path post))].
Proof.
  intros Hfile. run_monad. rewrite (bool_decide_eq_false_2 _ Hfile). simpl.
  repeat split.
  - intros l. apply delete_likes_of_post_none.
  - intros p. apply delete_post_row_none.
  - by rewrite <- !app_assoc.
Qed.

Lemma remove_post_without_media_file_witness :
  fst (remove_post "/srv/app"
         (mk_PostDetail 2 3 "b.png" "P2" "2024-02-29T20:15:07.250000+00:00" "carol" 3)
         two_posts_world) = Ok ()
  ∧ posts (disk (snd (remove_post "/srv/app"
         (mk_PostDetail 2 3 "b.png" "P2" "2024-02-29T20:15:07.250000+00:00" "carol" 3)
         two_posts_world)))
    = [mk_Post 1 2 "a.png" "P1" "2024-02-29T12:00:00+00:00"].
Proof.
  destruct (remove_post_without_media_file "/srv/app"
         (mk_PostDetail 2 3 "b.png" "P2" "2024-02-29T20:15:07.250000+00:00" "carol" 3)
         two_posts_world) as (H1 & H2 & _).
  - apply (proj1 (bool_decide_eq_false _)). vm_compute. reflexivity.
  - split; [exact H1|]. rewrite H2. vm_compute. reflexivity.
Defined.

(** C4: a request of an administrator to delete an existing post executes,
    in this order, the DELETE of the Like rows of the post, the DELETE of
    the Post row and the commit, and only then looks for the image and,
    when it is there, asks for its removal.  The committed database has
    lost the rows whatever the removal answers: a removal that is refused
    raises, the view does not complete, and the rows stay deleted. *)
Theorem delete_post_steps
    (module_dir : string) (session : Session) (uid pid : Z)
    (post : PostDetail) (w : World) :
  session_user_id session = Some uid →
  session_is_admin session = true →
  fetchone (select_post_by_id pid (disk w)) = Some post →
  let path := path_join (path_join module_dir "uploads") (det_image_path post) in
  let w' := snd (request (delete_post module_dir session pid) w) in
  log w' = log w ++ [Execute (SelectPostById pid);
                     Execute (DeleteLikesOfPost pid); Execute (DeletePost pid);
                     Commit; PathExists path] ++ after_exists_check w path
  ∧ disk w' = delete_post_row pid (delete_likes_of_post pid (disk w))
  ∧ (path ∈ files w → path ∈ protected w →
     fst (request (delete_post module_dir session pid) w) = Raise PermissionError
     ∧ files w' = files w)
  ∧ (path ∈ files w → path ∉ protected w →
     fst (request (delete_post module_dir session pid) w)
       = Ok (Redirect (UrlFor "feed"))
     ∧ files w' = files w ∖ {[path]})
  ∧ (path ∉ files w →
     fst (request (delete_post module_dir session pid) w)
       = Ok (Redirect (UrlFor "feed"))
     ∧ files w' = files w).
Proof.
  intros Hlogin Hadmin Hpost.
  assert (Hid : det_id post = pid)
    by (eapply select_post_by_id_id, fetchone_elem_of, Hpost).
  unfold after_exists_check. run_monad.
  rewrite Hlogin, Hadmin. simpl.
  rewrite bind_post_id_found
    by (simpl; eapply fetchone_Some_nonempty, Hpost).
  simpl. rewrite Hpost. simpl. rewrite Hid.
  destruct (decide (path_join (path_join module_dir "uploads")
                      (det_image_path post) ∈ files w)) as [Hf|Hf].
  - repeat (rewrite (bool_decide_eq_true_2 _ Hf); simpl).
    destruct (decide (path_join (path_join module_dir "uploads")
                        (det_image_path post) ∈ protected w)) as [Hp|Hp].
    + rewrite (bool_decide_eq_true_2 _ Hp). simpl.
      repeat split; try done. by rewrite <- !app_assoc.
    + rewrite (bool_decide_eq_false_2 _ Hp). simpl.
      repeat split; try done. by rewrite <- !app_assoc.
  - rewrite (bool_decide_eq_false_2 _ Hf). simpl.
    repeat split; try done. by rewrite <- !app_assoc.
Qed.

Lemma delete_post_steps_witness :
  fst (request (delete_post "/srv/app" admin 1) locked_world)
    = Raise PermissionError
  ∧ posts (disk (snd (request (delete_post "/srv/app" admin 1) locked_world)))
    = [mk_Post 2 3 "b.png" "P2" "2024-02-29T20:15:07.250000+00:00"]
  ∧ likes (disk (snd (request (delete_post "/srv/app" admin 1) locked_world)))
    = filter (λ l, like_post_id l ≠ 1) (likes (disk locked_world)).
Proof.
  destruct (delete_post_steps "/srv/app" admin 1 1 post1 locked_world)
    as (_ & Hdisk & Hlocked & _).
  - reflexivity.
  - reflexivity.
  - vm_compute. reflexivity.
  - destruct Hlocked as [Hr _].
    + apply (proj1 (bool_decide_eq_true _)). vm_compute. reflexivity.
    + apply (proj1 (bool_decide_eq_true _)). vm_compute. reflexivity.
    + split; [exact Hr|]. rewrite Hdisk. split; vm_compute; reflexivity.
Defined.

(** ** Liking and unliking *)

(** The effect of one toggle on the committed database. *)
Lemma toggle_like_disk session u p now referrer w :
  session_user_id session = Some u →
  select_post_by_id p (disk w) ≠ [] →
  fst (request (toggle_like session p now referrer) w)
    = Ok (redirect_back referrer)
  ∧ disk (snd (request (toggle_like session p now referrer) w))
    = if bool_decide (select_like u p (disk w) ≠ [])
      then delete_like u p (disk w)
      else insert_or_ignore_like u p (isoformat now) (disk w).
Proof.
  intros Hu Hp. run_monad. rewrite Hu. simpl.
  rewrite bind_post_id_found by done. simpl.
  destruct (select_post_by_id p (disk w)) as [|post rows] eqn:E; [done|]. simpl.
  rewrite fetchone_is_Some. case_bool_decide; simpl; auto.
Qed.

Lemma select_post_by_id_same_posts p db db' :
  posts db' = posts db → users db' = users db →
  select_post_by_id p db'
  = (λ d, mk_PostDetail (det_id d) (det_user_id d) (det_image_path d)
            (det_caption d) (det_created_at d) (det_username d)
            (like_count_of db' (det_id d))) <$> select_post_by_id p db.
Proof.
  intros Hp Hu. unfold select_post_by_id. rewrite Hp, Hu.
  induction (filter (λ p0, post_id p0 = p) (posts db)) as [|q l IH]; [done|].
  simpl. rewrite fmap_app, <- IH.
  destruct (filter _ (users db)); reflexivity.
Qed.

Lemma reported_like_count_spec db p :
  select_post_by_id p db ≠ [] →
  reported_like_count db p = Some (like_count_of db p).
Proof.
  unfold reported_like_count. intros H.
  destruct (select_post_by_id p db) as [|d rows] eqn:E; [done|]. simpl.
  assert (Hd : d ∈ select_post_by_id p db) by (rewrite E; left).
  pose proof (select_post_by_id_id _ _ _ Hd) as Hid.
  unfold select_post_by_id in Hd.
  apply list_elem_of_In, in_flat_map in Hd as (q & _ & Hd).
  destruct (filter _ (users db)); simpl in Hd; [contradiction|].
  destruct Hd as [<-|[]]. simpl in *. by rewrite Hid.
Qed.

Lemma select_like_delete_like u p db :
  select_like u p (delete_like u p db) = [].
Proof.
  unfold select_like, delete_like. simpl.
  induction (likes db) as [|l ls IH]; [done|].
  destruct (decide (like_user_id l = u ∧ like_post_id l = p)) as [H|H].
  - rewrite filter_cons_False by tauto. exact IH.
  - rewrite filter_cons_True by done. rewrite filter_cons_False by done.
    exact IH.
Qed.

Lemma filter_none_id {A} (P Q : A → Prop) `{∀ x, Decision (P x)}
    `{∀ x, Decision (Q x)} (l : list A) :
  filter P l = [] → (∀ x, ¬ P x → Q x) → filter Q l = l.
Proof.
  intros Hnone HPQ. induction l as [|x l IH]; [done|].
  destruct (decide (P x)) as [HP|HP].
  - rewrite filter_cons_True in Hnone by done. discriminate.
  - rewrite filter_cons_False in Hnone by done.
    rewrite filter_cons_True by auto. by rewrite IH.
Qed.

Lemma likes_insert_new u p ts db :
  select_like u p db = [] →
  likes (insert_or_ignore_like u p ts db)
  = likes db ++ [mk_Like (seq_likes db + 1) u p ts].
Proof.
  intros H. unfold insert_or_ignore_like. by rewrite (bool_decide_eq_true_2 _ H).
Qed.

Lemma likes_insert_old u p ts db :
  select_like u p db ≠ [] → insert_or_ignore_like u p ts db = db.
Proof.
  intros H. unfold insert_or_ignore_like. by rewrite (bool_decide_eq_false_2 _ H).
Qed.

Lemma like_count_of_app db likes' p :
  Z.of_nat (length (filter (λ l, like_post_id l = p) (likes db ++ likes')))
  = like_count_of db p
    + Z.of_nat (length (filter (λ l, like_post_id l = p) likes')).
Proof. unfold like_count_of. rewrite filter_app, length_app. lia. Qed.

(** C2: for a logged-in user [u] and a post that [fetch_post_by_id] finds,
    two consecutive calls of [toggle_like] both return normally and leave
    [u] liking the post exactly when [u] liked it before.  Starting from
    the unliked state, the first call leaves exactly one Like row for
    [(u, p)] and the reported like count one higher; the second call leaves
    no Like row for [(u, p)], the reported like count one lower again, and
    the table of likes as it was. *)
Theorem toggle_like_twice
    (session : Session) (u p : Z) (now1 now2 : datetime)
    (referrer1 referrer2 : option string) (w : World) :
  session_user_id session = Some u →
  select_post_by_id p (disk w) ≠ [] →
  let w1 := snd (request (toggle_like session p now1 referrer1) w) in
  let w2 := snd (request (toggle_like session p now2 referrer2) w1) in
  fst (request (toggle_like session p now1 referrer1) w)
    = Ok (redirect_back referrer1)
  ∧ fst (request (toggle_like session p now2 referrer2) w1)
    = Ok (redirect_back referrer2)
  ∧ (select_like u p (disk w2) = [] ↔ select_like u p (disk w) = [])
  ∧ (select_like u p (disk w) = [] →
     select_like u p (disk w1)
       = [mk_Like (seq_likes (disk w) + 1) u p (isoformat now1)]
     ∧ reported_like_count (disk w1) p
       = (λ n, n + 1) <$> reported_like_count (disk w) p
     ∧ select_like u p (disk w2) = []
     ∧ reported_like_count (disk w2) p
       = (λ n, n - 1) <$> reported_like_count (disk w1) p
     ∧ is_Some (reported_like_count (disk w) p)
     ∧ likes (disk w2) = likes (disk w)).
Proof.
  intros Hu Hp. cbv zeta.
  destruct (toggle_like_disk session u p now1 referrer1 w Hu Hp) as [Hr1 Hd1].
  set (w1 := snd (request (toggle_like session p now1 referrer1) w)) in *.
  assert (Hsame1 : posts (disk w1) = posts (disk w)
                   ∧ users (disk w1) = users (disk w)).
  { rewrite Hd1. unfold insert_or_ignore_like.
    repeat case_bool_decide; simpl; auto. }
  destruct Hsame1 as [Hposts1 Husers1].
  assert (Hp1 : select_post_by_id p (disk w1) ≠ []).
  { rewrite (select_post_by_id_same_posts p (disk w) (disk w1)) by done.
    destruct (select_post_by_id p (disk w)); [done|]. discriminate. }
  destruct (toggle_like_disk session u p now2 referrer2 w1 Hu Hp1) as [Hr2 Hd2].
  set (w2 := snd (request (toggle_like session p now2 referrer2) w1)) in *.
  assert (Hp2 : select_post_by_id p (disk w2) ≠ []).
  { rewrite (select_post_by_id_same_posts p (disk w1) (disk w2)).
    - destruct (select_post_by_id p (disk w1)); [done|]. discriminate.
    - rewrite Hd2. unfold insert_or_ignore_like.
      repeat case_bool_decide; simpl; auto.
    - rewrite Hd2. unfold insert_or_ignore_like.
      repeat case_bool_decide; simpl; auto. }
  split; [exact Hr1|]. split; [exact Hr2|].
  destruct (decide (select_like u p (disk w) = [])) as [Hno|Hyes].
  - (* unliked before *)
    rewrite (bool_decide_eq_false_2 (_ ≠ [])) in Hd1 by (intros H; auto).
    assert (Hl1 : likes (disk w1)
      = likes (disk w) ++ [mk_Like (seq_likes (disk w) + 1) u p (isoformat now1)])
      by (rewrite Hd1; by apply likes_insert_new).
    assert (Hs1 : select_like u p (disk w1)
      = [mk_Like (seq_likes (disk w) + 1) u p (isoformat now1)]).
    { unfold select_like in *. rewrite Hl1, filter_app, Hno.
      by rewrite filter_cons_True. }
    rewrite (bool_decide_eq_true_2 (_ ≠ [])) in Hd2 by (by rewrite Hs1).
    assert (Hl2 : likes (disk w2) = likes (disk w)).
    { rewrite Hd2. simpl. rewrite Hl1, filter_app.
      rewrite filter_cons_False by (simpl; tauto).
      rewrite filter_nil, app_nil_r.
      apply (filter_none_id (λ l, like_user_id l = u ∧ like_post_id l = p)
               (λ l, ¬ (like_user_id l = u ∧ like_post_id l = p))); auto. }
    assert (Hs2 : select_like u p (disk w2) = []).
    { unfold select_like in *. by rewrite Hl2. }
    assert (Hc1 : like_count_of (disk w1) p = like_count_of (disk w) p + 1).
    { unfold like_count_of at 1. rewrite Hl1, like_count_of_app.
      by rewrite filter_cons_True. }
    assert (Hc2 : like_count_of (disk w2) p = like_count_of (disk w) p).
    { unfold like_count_of. by rewrite Hl2. }
    split; [tauto|]. intros _.
    rewrite !reported_like_count_spec by done. simpl.
    rewrite Hc1, Hc2. repeat split; eauto. f_equal. lia.
  - (* liked before *)
    rewrite (bool_decide_eq_true_2 (_ ≠ [])) in Hd1 by done.
    assert (Hs1 : select_like u p (disk w1) = [])
      by (rewrite Hd1; apply select_like_delete_like).
    rewrite (bool_decide_eq_false_2 (_ ≠ [])) in Hd2 by (intros H; auto).
    assert (Hs2 : select_like u p (disk w2) ≠ []).
    { unfold select_like. rewrite Hd2, likes_insert_new by done.
      rewrite filter_app, filter_cons_True by done.
      intros H. apply app_eq_nil in H as [_ H]. discriminate. }
    split; [tauto|]. intros H. contradiction.
Qed.

Lemma toggle_like_twice_witness :
  select_like 2 1 (disk (snd (request (toggle_like bob 1 evening None)
                                started_post_world)))
    = [mk_Like 1 2 1 (isoformat evening)]
  ∧ reported_like_count
      (disk (snd (request (toggle_like bob 1 evening None) started_post_world))) 1
    = Some 1
  ∧ likes (disk (snd (request (toggle_like bob 1 noon None)
                   (snd (request (toggle_like bob 1 evening None)
                           started_post_world)))))
    = [].
Proof.
  destruct (toggle_like_twice bob 2 1 evening noon None None started_post_world)
    as (_ & _ & _ & H).
  - reflexivity.
  - vm_compute. discriminate.
  - destruct H as (H1 & H2 & _ & _ & _ & H6).
    + vm_compute. reflexivity.
    + split; [exact H1|]. split; [rewrite H2; vm_compute; reflexivity|].
      rewrite H6. vm_compute. reflexivity.
Defined.

(** ** The bootstrap administrator *)

(** Case analysis on every [match] and [bool_decide] of a view that has
    been unfolded. *)
Ltac split_cases :=
  repeat first
    [ progress simpl
    | case_bool_decide
    | match goal with
      | |- context [match ?x with _ => _ end] =>
          lazymatch x with
          | context [match _ with _ => _ end] => fail
          | _ => destruct x eqn:?
          end
      end ].

Lemma count_admins_admins db : count_admins db = Z.of_nat (length (admins db)).
Proof. reflexivity. Qed.

Lemma create_app_without_admin hash salt w :
  count_admins (disk w) = 0 →
  select_users_by_username (disk w) "admin" = [] →
  fst (create_app hash salt w) = Ok ()
  ∧ disk (snd (create_app hash salt w))
    = mk_DB (users (disk w)
               ++ [mk_User (seq_users (disk w) + 1) "admin"
                     (hash salt "adminpass") 1])
        (posts (disk w)) (likes (disk w))
        (seq_users (disk w) + 1) (seq_posts (disk w)) (seq_likes (disk w)).
Proof.
  intros Hzero Hfree. run_monad. rewrite Hzero. simpl.
  unfold insert_user. simpl. rewrite (bool_decide_eq_true_2 _ Hfree). simpl.
  auto.
Qed.

Lemma create_app_with_admin hash salt w :
  count_admins (disk w) ≠ 0 →
  fst (create_app hash salt w) = Ok ()
  ∧ disk (snd (create_app hash salt w)) = disk w.
Proof.
  intros Hsome. run_monad.
  destruct (count_admins (disk w) =? 0) eqn:E; [lia|]. simpl. auto.
Qed.

Lemma register_admins hash salt method form w :
  admins (disk (snd (request (register hash salt method form) w)))
  = admins (disk w).
Proof.
  destruct method; [reflexivity|].
  destruct (register_post_cases hash salt form w)
    as [(_ & _ & -> & _)|[(_ & _ & _ & _ & -> & _)|(_ & _ & _ & _ & Hi)]];
    auto.
  apply insert_user_users in Hi as (_ & Hi & _). unfold admins.
  rewrite Hi, filter_app, filter_cons_False, filter_nil, app_nil_r; auto.
Qed.

Lemma create_post_users uid image caption now w :
  users (disk (snd (request (create_post uid image caption now) w)))
  = users (disk w).
Proof. reflexivity. Qed.

Lemma toggle_like_users session p now referrer w :
  users (disk (snd (request (toggle_like session p now referrer) w)))
  = users (disk w).
Proof.
  run_monad. destruct (session_user_id session); simpl; [|reflexivity].
  bind_cases; [|reflexivity].
  unfold insert_or_ignore_like. split_cases; reflexivity.
Qed.

Lemma delete_post_users module_dir session p w :
  users (disk (snd (request (delete_post module_dir session p) w)))
  = users (disk w).
Proof.
  run_monad. destruct (session_user_id session); simpl; [|reflexivity].
  destruct (session_is_admin session); simpl; [|reflexivity].
  bind_cases; [|reflexivity].
  split_cases; reflexivity.
Qed.

Lemma feed_disk host session w :
  disk (snd (request (feed host session) w)) = disk w.
Proof. run_monad. split_cases; reflexivity. Qed.

Lemma leaderboard_disk host session w :
  disk (snd (request (leaderboard host session) w)) = disk w.
Proof. run_monad. split_cases; reflexivity. Qed.

(** Every action on a database that has an administrator keeps the rows of
    the administrators as they are. *)
Lemma perform_admins hash module_dir a w :
  admins (disk w) ≠ [] →
  admins (disk (perform hash module_dir a w)) = admins (disk w).
Proof.
  intros Hadm. destruct a; simpl.
  - apply register_admins.
  - reflexivity.
  - unfold admins. by rewrite delete_post_users.
  - unfold admins. by rewrite toggle_like_users.
  - by rewrite feed_disk.
  - by rewrite leaderboard_disk.
  - destruct (create_app_with_admin hash salt w) as [_ ->]; [|done].
    rewrite count_admins_admins. destruct (admins (disk w)); [done|].
    simpl. lia.
Qed.

Lemma reachable_admins hash module_dir w :
  reachable hash module_dir w →
  ∃ salt, admins (disk w) = [mk_User 1 "admin" (hash salt "adminpass") 1].
Proof.
  induction 1 as [w salt Hfresh|w a _ [salt IH]].
  - exists salt.
    destruct (create_app_without_admin hash salt w) as [_ ->];
      rewrite Hfresh; reflexivity.
  - exists salt. rewrite perform_admins; [exact IH|]. by rewrite IH.
Qed.

(** C5: a start that finds no administrator, and the name "admin" free,
    inserts exactly one account: the administrator "admin" with the hash of
    "adminpass"; a start that finds an administrator changes nothing.  As
    the first start runs on an empty database and no view inserts, changes
    or deletes an administrator, the database of a started application
    holds exactly one administrator at all times: that account. *)
Theorem bootstrap_admin
    (hash : string → string → string) (module_dir : string) :
  (∀ salt w,
     count_admins (disk w) = 0 →
     select_users_by_username (disk w) "admin" = [] →
     fst (create_app hash salt w) = Ok ()
     ∧ users (disk (snd (create_app hash salt w)))
       = users (disk w) ++ [mk_User (seq_users (disk w) + 1) "admin"
                              (hash salt "adminpass") 1]
     ∧ count_admins (disk (snd (create_app hash salt w))) = 1)
  ∧ (∀ salt w,
       count_admins (disk w) ≠ 0 →
       fst (create_app hash salt w) = Ok ()
       ∧ disk (snd (create_app hash salt w)) = disk w)
  ∧ (∀ w,
       reachable hash module_dir w →
       count_admins (disk w) = 1
       ∧ ∃ salt, admins (disk w) = [mk_User 1 "admin" (hash salt "adminpass") 1]).
Proof.
  split; [|split].
  - intros salt w Hzero Hfree.
    destruct (create_app_without_admin hash salt w Hzero Hfree) as [Hr Hd].
    rewrite Hd. simpl. repeat split; auto.
    unfold count_admins in *. simpl.
    rewrite filter_app, filter_cons_True, length_app by done. simpl. lia.
  - apply create_app_with_admin.
  - intros w Hw. destruct (reachable_admins hash module_dir w Hw) as [salt Ha].
    split; [|eauto]. by rewrite count_admins_admins, Ha.
Qed.

Lemma bootstrap_admin_witness :
  count_admins (disk (snd (create_app toy_hash "s0" fresh_world))) = 1
  ∧ disk (snd (create_app toy_hash "s9" two_posts_world)) = disk two_posts_world
  ∧ count_admins (disk two_posts_world) = 1.
Proof.
  destruct (bootstrap_admin toy_hash "/srv/app") as (Ha & Hb & Hc).
  split; [|split].
  - apply (Ha "s0" fresh_world); reflexivity.
  - apply (Hb "s9" two_posts_world). vm_compute. discriminate.
  - apply Hc. unfold two_posts_world.
    repeat (rewrite foldl_cons || rewrite foldl_nil).
    repeat apply reachable_perform.
    apply reachable_first_start. reflexivity.
Defined.

(** ** The like-ranked feed *)

#[local] Instance likes_desc_created_desc_total : Total likes_desc_created_desc.
Proof.
  intros r1 r2. unfold likes_desc_created_desc, created_desc.
  destruct (Z.lt_trichotomy (row_like_count r1) (row_like_count r2))
    as [H|[H|H]]; auto.
  destruct (text_le_total (row_created_at r1) (row_created_at r2)); auto.
Qed.

#[local] Instance likes_desc_created_desc_trans :
  Transitive likes_desc_created_desc.
Proof.
  intros r1 r2 r3. unfold likes_desc_created_desc, created_desc.
  intros [H12|[H12 T12]] [H23|[H23 T23]]; try (left; lia).
  right. split; [lia|]. eapply text_le_trans; eauto.
Qed.

#[local] Instance created_desc_total : Total created_desc.
Proof. intros r1 r2. unfold created_desc. apply text_le_total. Qed.

#[local] Instance created_desc_trans : Transitive created_desc.
Proof. intros r1 r2 r3 H12 H23. unfold created_desc in *. eapply text_le_trans; eauto. Qed.

(** Rows that each may come before the other agree on both sort keys. *)
Lemma likes_desc_created_desc_antisym r1 r2 :
  likes_desc_created_desc r1 r2 → likes_desc_created_desc r2 r1 →
  row_like_count r1 = row_like_count r2
  ∧ row_created_at r1 = row_created_at r2.
Proof.
  unfold likes_desc_created_desc, created_desc.
  intros [H12|[H12 T12]] [H21|[H21 T21]]; try lia.
  split; [done|]. by apply text_le_antisym.
Qed.

(** ** The sorter of ORDER BY *)

Section SorterFacts.
Context {A : Type} (R : relation A) `{∀ x y, Decision (R x y)}.

Lemma sorter_insert_perm x l : sorter_insert R x l ≡ₚ x :: l.
Proof.
  induction l as [|y l IH]; simpl; [done|].
  destruct (decide (R x y)); [done|].
  rewrite IH. apply Permutation_swap.
Qed.

Lemma order_by_perm l : order_by R l ≡ₚ l.
Proof.
  induction l as [|x l IH]; simpl; [done|].
  by rewrite sorter_insert_perm, IH.
Qed.

(** Rows of a class whose members all tie keep their places among
    themselves. *)
Lemma sorter_insert_filter (P : A → Prop) `{∀ x, Decision (P x)} x l :
  (∀ a b, P a → P b → R a b) →
  filter P (sorter_insert R x l) = filter P (x :: l).
Proof.
  intros Hclass. induction l as [|y l IH]; simpl; [done|].
  destruct (decide (R x y)) as [Hxy|Hxy]; [done|].
  destruct (decide (P y)) as [Hy|Hy].
  - rewrite (filter_cons_True _ _ _ Hy), IH.
    destruct (decide (P x)) as [Hx|Hx].
    + destruct Hxy. by apply Hclass.
    + by rewrite !(filter_cons_False _ _ _ Hx), (filter_cons_True _ _ _ Hy).
  - rewrite (filter_cons_False _ _ _ Hy), IH.
    destruct (decide (P x)) as [Hx|Hx].
    + by rewrite !(filter_cons_True _ _ _ Hx), (filter_cons_False _ _ _ Hy).
    + by rewrite !(filter_cons_False _ _ _ Hx), (filter_cons_False _ _ _ Hy).
Qed.

Lemma order_by_filter_class (P : A → Prop) `{∀ x, Decision (P x)} l :
  (∀ a b, P a → P b → R a b) →
  filter P (order_by R l) = filter P l.
Proof.
  intros Hclass. induction l as [|x l IH]; simpl; [done|].
  rewrite sorter_insert_filter by done.
  destruct (decide (P x)) as [Hx|Hx].
  - by rewrite !(filter_cons_True _ _ _ Hx), IH.
  - by rewrite !(filter_cons_False _ _ _ Hx), IH.
Qed.

Context `{!Total R} `{!Transitive R}.

Lemma sorter_insert_sorted x l :
  StronglySorted R l → StronglySorted R (sorter_insert R x l).
Proof.
  induction 1 as [|y l Hs IH Hall]; simpl.
  - repeat constructor.
  - destruct (decide (R x y)) as [Hxy|Hxy].
    + constructor; [by constructor|].
      constructor; [done|].
      eapply Forall_impl; [exact Hall|]. intros z Hz. by transitivity y.
    + constructor; [done|].
      rewrite sorter_insert_perm. constructor; [|done].
      by destruct (total R x y).
Qed.

Lemma order_by_sorted l : StronglySorted R (order_by R l).
Proof.
  induction l as [|x l IH]; simpl; [constructor|].
  by apply sorter_insert_sorted.
Qed.

(** A row that may come before the first row of a sorted list goes to the
    front. *)
Lemma sorter_insert_front x l :
  Forall (R x) l → sorter_insert R x l = x :: l.
Proof.
  intros Hall. destruct l as [|y l]; simpl; [done|].
  apply Forall_cons in Hall as [Hxy _].
  by destruct (decide (R x y)).
Qed.

(** Leaving rows out commutes with sorting. *)
Lemma sorter_insert_filter_sorted (P : A → Prop) `{∀ x, Decision (P x)} x l :
  StronglySorted R l →
  filter P (sorter_insert R x l)
  = if decide (P x) then sorter_insert R x (filter P l) else filter P l.
Proof.
  induction 1 as [|y l Hs IH Hall]; simpl.
  - destruct (decide (P x)) as [Hx|Hx].
    + by rewrite (filter_cons_True _ _ _ Hx).
    + by rewrite (filter_cons_False _ _ _ Hx).
  - destruct (decide (R x y)) as [Hxy|Hxy].
    + destruct (decide (P x)) as [Hx|Hx].
      * rewrite (filter_cons_True _ _ _ Hx).
        symmetry. apply sorter_insert_front.
        apply Forall_forall. intros z Hz.
        apply list_elem_of_filter in Hz as [_ Hz].
        apply elem_of_cons in Hz as [->|Hz]; [done|].
        transitivity y; [done|].
        rewrite Forall_forall in Hall. by apply Hall.
      * by rewrite (filter_cons_False _ _ _ Hx).
    + destruct (decide (P y)) as [Hy|Hy].
      * rewrite !(filter_cons_True _ _ _ Hy), IH.
        destruct (decide (P x)); [|done].
        simpl. by destruct (decide (R x y)).
      * by rewrite !(filter_cons_False _ _ _ Hy), IH.
Qed.

Lemma order_by_filter (P : A → Prop) `{∀ x, Decision (P x)} l :
  order_by R (filter P l) = filter P (order_by R l).
Proof.
  induction l as [|x l IH]; simpl; [done|].
  rewrite sorter_insert_filter_sorted by apply order_by_sorted.
  destruct (decide (P x)) as [Hx|Hx].
  - by rewrite (filter_cons_True _ _ _ Hx); simpl; rewrite IH.
  - by rewrite (filter_cons_False _ _ _ Hx).
Qed.

(** With a last key [T] that the rows arrive sorted by, the result is
    sorted by the keys of the clause and then by [T]. *)
Lemma sorter_insert_then_by (T : relation A) x l :
  StronglySorted (then_by R T) l → Forall (T x) l →
  StronglySorted (then_by R T) (sorter_insert R x l).
Proof.
  induction 1 as [|y l Hs IH Hall]; simpl; intros HT.
  - repeat constructor.
  - apply Forall_cons in HT as [HTy HT].
    destruct (decide (R x y)) as [Hxy|Hxy].
    + constructor; [by constructor|].
      constructor; [by split|].
      rewrite Forall_forall in Hall, HT. apply Forall_forall. intros z Hz.
      split; [|intros _; by apply HT].
      transitivity y; [done|]. by apply Hall.
    + constructor; [by apply IH|].
      rewrite sorter_insert_perm. constructor; [|done].
      split; [by destruct (total R x y)|done].
Qed.

Lemma order_by_then_by (T : relation A) l :
  StronglySorted T l → StronglySorted (then_by R T) (order_by R l).
Proof.
  induction 1 as [|x l Hs IH Hall]; simpl; [constructor|].
  apply sorter_insert_then_by; [done|].
  by rewrite order_by_perm.
Qed.

End SorterFacts.

Lemma StronglySorted_impl {A} (R S : relation A) l :
  (∀ a b, R a b → S a b) → StronglySorted R l → StronglySorted S l.
Proof.
  intros HRS. induction 1 as [|x l Hs IH Hall]; constructor; [done|].
  eapply Forall_impl; [exact Hall|]. auto.
Qed.

Lemma select_posts_sorted c db :
  StronglySorted (order_rel c) (select_posts c db).
Proof. destruct c; apply order_by_sorted; apply _. Qed.

Lemma select_posts_perm c db : select_posts c db ≡ₚ joined_posts db.
Proof. destruct c; apply order_by_perm. Qed.

(** Rows that tie on both keys keep the order of the join. *)
Lemma select_posts_stable r db :
  filter (tied r) (select_posts LikesDescCreatedDesc db)
  = filter (tied r) (joined_posts db).
Proof.
  apply order_by_filter_class.
  intros a b [Ha1 Ha2] [Hb1 Hb2].
  unfold order_rel, likes_desc_created_desc, created_desc. right.
  split; [congruence|]. rewrite <- Ha2, <- Hb2. apply text_le_refl.
Qed.

(** The rows of the join carry the ids of the posts, in the order of the
    posts. *)
Lemma joined_posts_rowid_order db :
  posts_in_rowid_order db →
  StronglySorted (λ r s, row_id r < row_id s) (joined_posts db).
Proof.
  unfold posts_in_rowid_order, joined_posts. generalize (like_count_of db) as count.
  generalize (users db) as us. intros us count.
  induction 1 as [|p ps Hs IH Hall]; simpl; [constructor|].
  destruct (filter _ us) as [|u ?]; simpl; [done|].
  constructor; [done|].
  apply Forall_forall. intros r Hr. simpl.
  apply list_elem_of_In, in_flat_map in Hr as (q & Hq & Hr).
  rewrite Forall_forall in Hall.
  apply list_elem_of_In in Hq. specialize (Hall q Hq).
  destruct (filter _ us) as [|u' ?]; simpl in Hr; [done|].
  destruct Hr as [<-|[]]. done.
Qed.

Lemma then_by_likes_created_rowid r1 r2 :
  then_by likes_desc_created_desc (λ r s, row_id r < row_id s) r1 r2 →
  likes_created_rowid r1 r2.
Proof.
  unfold then_by, likes_created_rowid, likes_desc_created_desc, created_desc.
  intros [[Hlt|[Heq Hle]] Hid]; [by left|]. right. split; [done|].
  destruct (decide (Text.le (row_created_at r1) (row_created_at r2)))
    as [Hle'|Hle']; [|by left].
  right. split; [by apply text_le_antisym|].
  apply Hid. right. split; [lia|done].
Qed.

Lemma select_posts_rowid_order db :
  posts_in_rowid_order db →
  StronglySorted likes_created_rowid (select_posts LikesDescCreatedDesc db).
Proof.
  intros Hs. eapply StronglySorted_impl; [apply then_by_likes_created_rowid|].
  apply order_by_then_by; [apply _..|]. by apply joined_posts_rowid_order.
Qed.

(** [likes_created_rowid] is a strict total order on rows of different
    ids. *)
Lemma likes_created_rowid_irrefl r : ¬ likes_created_rowid r r.
Proof.
  unfold likes_created_rowid. intros [?|[_ [Hn|[_ ?]]]]; try lia.
  apply Hn, text_le_refl.
Qed.

Lemma likes_created_rowid_trans r1 r2 r3 :
  likes_created_rowid r1 r2 → likes_created_rowid r2 r3 →
  likes_created_rowid r1 r3.
Proof.
  unfold likes_created_rowid.
  intros [H12|[H12 T12]] [H23|[H23 T23]]; try (left; lia).
  right. split; [lia|].
  destruct T12 as [N12|[E12 I12]], T23 as [N23|[E23 I23]].
  - left. intros H13. apply N12.
    destruct (text_le_total (row_created_at r2) (row_created_at r3)); [done|].
    eapply text_le_trans; eauto.
  - left. by rewrite <- E23.
  - left. by rewrite E12.
  - right. split; [congruence|lia].
Qed.

Lemma likes_created_rowid_total r1 r2 :
  row_id r1 ≠ row_id r2 →
  likes_created_rowid r1 r2 ∨ likes_created_rowid r2 r1.
Proof.
  unfold likes_created_rowid. intros Hne.
  destruct (Z.lt_trichotomy (row_like_count r1) (row_like_count r2))
    as [H|[H|H]]; auto.
  destruct (decide (Text.le (row_created_at r1) (row_created_at r2)))
    as [H12|H12]; [|by left; right; split; [|left]].
  destruct (decide (Text.le (row_created_at r2) (row_created_at r1)))
    as [H21|H21]; [|by right; right; split; [|left]].
  pose proof (text_le_antisym _ _ H12 H21) as Heq.
  destruct (Z.lt_trichotomy (row_id r1) (row_id r2)) as [Hi|[Hi|Hi]];
    [|done|].
  - left. right. split; [done|]. by right.
  - right. right. split; [done|]. by right.
Qed.

(** A sorted arrangement of two rows puts first the one that must come
    first. *)
Lemma sorted_pair (R : relation PostRow) rows p1 p2 :
  StronglySorted R rows → rows ≡ₚ [p1; p2] → ¬ R p1 p2 → rows = [p2; p1].
Proof.
  intros Hs Hp Hn. symmetry in Hp.
  apply Permutation_length_2_inv in Hp as [->| ->]; [|done].
  apply StronglySorted_inv in Hs as [_ Hs].
  apply Forall_cons in Hs as [Hs _]. contradiction.
Qed.

Lemma order_map_likes : order_map !! "likes" = Some LikesDescCreatedDesc.
Proof. reflexivity. Qed.

Lemma order_map_recent : order_map !! "recent" = Some CreatedDesc.
Proof. reflexivity. Qed.

(** Two arrangements of the same rows that both follow
    [likes_created_rowid] are the same list. *)
Lemma likes_created_rowid_unique rows1 rows2 :
  StronglySorted likes_created_rowid rows1 →
  StronglySorted likes_created_rowid rows2 →
  rows1 ≡ₚ rows2 → rows1 = rows2.
Proof.
  apply StronglySorted_unique. intros r1 r2 H12 H21.
  destruct (likes_created_rowid_irrefl r1).
  by apply (likes_created_rowid_trans r1 r2 r1).
Qed.

Lemma tied_world_feed :
  select_posts LikesDescCreatedDesc (conn tied_world)
  = [ mk_PostRow 1 "a.png" "P1" "2024-02-29T12:00:00+00:00" "bob" 0;
      mk_PostRow 2 "b.png" "P2" "2024-02-29T12:00:00+00:00" "bob" 0;
      mk_PostRow 3 "c.png" "P3" "2024-02-29T12:00:00+00:00" "bob" 0 ].
Proof. vm_compute. reflexivity. Qed.

(** C1: [fetch_posts "likes"] returns, for every database, the joined rows
    of the posts arranged so that every row comes before every row with
    fewer likes and, among rows with as many likes, before every row with a
    smaller creation timestamp.  The order is total and transitive, and two
    rows that each may precede the other agree on like count and timestamp;
    on the texts that [create_post] stores, the order of the timestamps is
    the order of the instants.  Of two posts, the one with more likes comes
    first; with as many likes, the newer one does.

    The sort is stable: rows that agree on like count and timestamp keep
    the order in which the join delivers them, the rowid order of the
    posts.  With the posts stored in increasing id order the feed is
    therefore sorted by like count descending, then timestamp descending,
    then id ascending; this is a strict total order on rows of different
    ids, so it is the only arrangement of the rows that follows it: the
    feed is a function of the stored data alone.  Three posts made in the
    same microsecond, none of them liked, come out as 1, 2, 3. *)
Theorem fetch_posts_by_likes (w : World) :
  fetch_posts "likes" w
    = (Ok (select_posts LikesDescCreatedDesc (conn w)),
       record (Execute (SelectPosts LikesDescCreatedDesc)) w)
  ∧ select_posts LikesDescCreatedDesc (conn w) ≡ₚ joined_posts (conn w)
  ∧ StronglySorted likes_desc_created_desc
      (select_posts LikesDescCreatedDesc (conn w))
  ∧ (∀ r1 r2, likes_desc_created_desc r1 r2 ∨ likes_desc_created_desc r2 r1)
  ∧ (∀ r1 r2 r3, likes_desc_created_desc r1 r2 →
       likes_desc_created_desc r2 r3 → likes_desc_created_desc r1 r3)
  ∧ (∀ r1 r2, likes_desc_created_desc r1 r2 → likes_desc_created_desc r2 r1 →
       row_like_count r1 = row_like_count r2
       ∧ row_created_at r1 = row_created_at r2)
  ∧ (∀ d1 d2, is_utc d1 = true → is_utc d2 = true →
       (Text.le (isoformat d1) (isoformat d2) ↔ chrono_compare d1 d2 ≠ Gt))
  ∧ (∀ p1 p2, joined_posts (conn w) ≡ₚ [p1; p2] →
       row_like_count p1 < row_like_count p2 →
       select_posts LikesDescCreatedDesc (conn w) = [p2; p1])
  ∧ (∀ p1 p2, joined_posts (conn w) ≡ₚ [p1; p2] →
       row_like_count p1 = row_like_count p2 →
       Text.le (row_created_at p1) (row_created_at p2) →
       row_created_at p1 ≠ row_created_at p2 →
       select_posts LikesDescCreatedDesc (conn w) = [p2; p1])
  ∧ (∀ r, filter (tied r) (select_posts LikesDescCreatedDesc (conn w))
          = filter (tied r) (joined_posts (conn w)))
  ∧ (posts_in_rowid_order (conn w) →
       StronglySorted likes_created_rowid
         (select_posts LikesDescCreatedDesc (conn w))
       ∧ ∀ rows, rows ≡ₚ joined_posts (conn w) →
           StronglySorted likes_created_rowid rows →
           rows = select_posts LikesDescCreatedDesc (conn w))
  ∧ (∀ r, ¬ likes_created_rowid r r)
  ∧ (∀ r1 r2 r3, likes_created_rowid r1 r2 → likes_created_rowid r2 r3 →
       likes_created_rowid r1 r3)
  ∧ (∀ r1 r2, row_id r1 ≠ row_id r2 →
       likes_created_rowid r1 r2 ∨ likes_created_rowid r2 r1)
  ∧ (∀ r1 r2, likes_created_rowid r1 r2 → likes_desc_created_desc r1 r2)
  ∧ row_id <$> select_posts LikesDescCreatedDesc (conn tied_world)
    = [1; 2; 3].
Proof.
  pose proof (select_posts_sorted LikesDescCreatedDesc (conn w)) as Hs.
  pose proof (select_posts_perm LikesDescCreatedDesc (conn w)) as Hp.
  split; [reflexivity|]. split; [exact Hp|]. split; [exact Hs|].
  split; [apply (total likes_desc_created_desc)|].
  split; [apply (transitivity (R := likes_desc_created_desc))|].
  split; [apply likes_desc_created_desc_antisym|].
  split; [|split; [|split]].
  - intros d1 d2 H1 H2.
    by rewrite text_le_compare, isoformat_compare.
  - intros p1 p2 Hj Hlt. apply (sorted_pair _ _ _ _ Hs).
    + by rewrite Hp.
    + unfold order_rel, likes_desc_created_desc. lia.
  - intros p1 p2 Hj Heq Hle Hne. apply (sorted_pair _ _ _ _ Hs).
    + by rewrite Hp.
    + unfold order_rel, likes_desc_created_desc, created_desc.
      intros [?|[_ Hge]]; [lia|].
      apply Hne. by apply text_le_antisym.
  - split; [intros r; apply select_posts_stable|].
    split.
    { intros Hid.
      pose proof (select_posts_rowid_order (conn w) Hid) as Hfull.
      split; [exact Hfull|]. intros rows Hrows Hsorted.
      apply likes_created_rowid_unique; [done..|]. by rewrite Hp. }
    split; [apply likes_created_rowid_irrefl|].
    split; [apply likes_created_rowid_trans|].
    split; [apply likes_created_rowid_total|].
    split; [|by rewrite tied_world_feed].
    unfold likes_created_rowid, likes_desc_created_desc, created_desc.
    intros r1 r2 [Hlt|[Heq [Hn|[Hc _]]]]; [by left|right; split; [done|]..].
    + by destruct (text_le_total (row_created_at r1) (row_created_at r2)).
    + rewrite Hc. apply text_le_refl.
Qed.

Lemma fetch_posts_by_likes_witness :
  fst (fetch_posts "likes" two_posts_world)
  = Ok [ mk_PostRow 2 "b.png" "P2" "2024-02-29T20:15:07.250000+00:00" "carol" 3;
         mk_PostRow 1 "a.png" "P1" "2024-02-29T12:00:00+00:00" "bob" 2 ].
Proof.
  destruct (fetch_posts_by_likes two_posts_world)
    as (Hf & _ & _ & _ & _ & _ & _ & Hpair & _).
  rewrite Hf. cbn [fst]. apply (f_equal Ok).
  apply (Hpair
    (mk_PostRow 1 "a.png" "P1" "2024-02-29T12:00:00+00:00" "bob" 2)
    (mk_PostRow 2 "b.png" "P2" "2024-02-29T20:15:07.250000+00:00" "carol" 3)).
  - replace (joined_posts (conn two_posts_world))
      with [ mk_PostRow 1 "a.png" "P1" "2024-02-29T12:00:00+00:00" "bob" 2;
             mk_PostRow 2 "b.png" "P2" "2024-02-29T20:15:07.250000+00:00" "carol" 3 ]
      by (vm_compute; reflexivity).
    reflexivity.
  - cbn [row_like_count]. lia.
Defined.

(** ** The viewer's likes *)

Lemma format_row_fields host liked_set row v :
  format_row host liked_set row = Ok v →
  view_id v = row_id row
  ∧ view_like_count v = row_like_count row
  ∧ view_liked v = bool_decide (row_id row ∈ liked_set).
Proof.
  unfold format_row. destruct (fromisoformat _); [|discriminate].
  destruct (astimezone _ _ _); [|discriminate]. by intros [= <-].
Qed.

Lemma format_loop_ok host liked_set rows formatted views :
  format_loop host liked_set rows formatted = Ok views →
  ∃ vs, views = formatted ++ vs
        ∧ Forall2 (λ row v, format_row host liked_set row = Ok v) rows vs.
Proof.
  revert formatted. induction rows as [|row rows IH]; intros formatted; simpl.
  - intros [= <-]. exists []. by rewrite app_nil_r.
  - destruct (format_row host liked_set row) as [v|e] eqn:E; [|discriminate].
    intros H. apply IH in H as (vs & -> & HF).
    exists (v :: vs). rewrite <- app_assoc. split; [done|]. by constructor.
Qed.

Lemma format_loop_total host liked_set rows formatted :
  Forall (λ row, ∃ v, format_row host liked_set row = Ok v) rows →
  ∃ views, format_loop host liked_set rows formatted = Ok views.
Proof.
  intros HF. revert formatted.
  induction HF as [|row rows [v Hv] _ IH]; intros formatted; simpl; [eauto|].
  rewrite Hv. apply IH.
Qed.

Lemma format_row_displayable host liked_set row :
  displayable host (row_created_at row) →
  ∃ v, format_row host liked_set row = Ok v.
Proof.
  intros (d & Hutc & Hrow & Hoff & [r Hr]).
  rewrite (format_row_utc host liked_set row d), Hr by done. eauto.
Qed.

Lemma joined_posts_created_at db row :
  row ∈ joined_posts db →
  ∃ p, p ∈ posts db ∧ row_id row = post_id p
       ∧ row_created_at row = post_created_at p
       ∧ row_like_count row = like_count_of db (post_id p).
Proof.
  unfold joined_posts. intros H.
  apply list_elem_of_In, in_flat_map in H as (p & Hp & H).
  apply list_elem_of_In in Hp. exists p. split; [done|].
  destruct (filter _ (users db)); simpl in H; [contradiction|].
  by destruct H as [<-|[]].
Qed.

Lemma liked_post_ids_spec uid db pid :
  pid ∈ (list_to_set (select_liked_post_ids uid db) : gset Z)
  ↔ ∃ l, l ∈ likes db ∧ like_user_id l = uid ∧ like_post_id l = pid.
Proof.
  rewrite elem_of_list_to_set. unfold select_liked_post_ids.
  rewrite list_elem_of_fmap. split.
  - intros (l & -> & [Hu Hl]%list_elem_of_filter). eauto.
  - intros (l & Hl & Hu & Hp). exists l. split; [done|].
    by apply list_elem_of_filter.
Qed.

(** C6: [format_posts_for_view] sets [liked] on the dictionary of a post
    exactly when the id of the post is in the set it was given, and the
    set that [get_user_liked_post_ids] fetches holds exactly the posts for
    which a Like row of the viewer exists.  The feed executes two
    statements whatever the number of posts, the second being the one
    SELECT of the viewer's liked post ids; every dictionary it renders has
    [liked] set exactly when a Like row exists for the viewer and the post;
    and it renders whenever the stored timestamps can be displayed. *)
Theorem annotate_viewer_state
    (host : Host) (session : Session) (uid : Z) (w : World) :
  session_user_id session = Some uid →
  (∀ rows liked_ids views,
     format_posts_for_view host rows (Some liked_ids) = Ok views →
     Forall2 (λ row v, view_id v = row_id row
                       ∧ (view_liked v = true ↔ row_id row ∈ liked_ids))
       rows views)
  ∧ (∃ liked_ids,
       fst (get_user_liked_post_ids uid w) = Ok liked_ids
       ∧ ∀ pid, pid ∈ liked_ids
                ↔ ∃ l, l ∈ likes (conn w)
                       ∧ like_user_id l = uid ∧ like_post_id l = pid)
  ∧ log (snd (request (feed host session) w))
    = log w ++ [Execute (SelectPosts CreatedDesc);
                Execute (SelectLikedPostIds uid)]
  ∧ (∀ views,
       fst (request (feed host session) w)
         = Ok (RenderTemplate "feed.html" views) →
       Forall2 (λ row v,
                  view_id v = row_id row
                  ∧ (view_liked v = true
                     ↔ ∃ l, l ∈ likes (disk w)
                            ∧ like_user_id l = uid
                            ∧ like_post_id l = view_id v))
         (select_posts CreatedDesc (disk w)) views)
  ∧ (Forall (λ p, displayable host (post_created_at p)) (posts (disk w)) →
     ∃ views, fst (request (feed host session) w)
              = Ok (RenderTemplate "feed.html" views)).
Proof.
  intros Hu.
  assert (Hfmt : ∀ rows liked_ids views,
    format_posts_for_view host rows (Some liked_ids) = Ok views →
    Forall2 (λ row v, view_id v = row_id row
                      ∧ (view_liked v = true ↔ row_id row ∈ liked_ids))
      rows views).
  { intros rows liked_ids views H. unfold format_posts_for_view in H.
    apply format_loop_ok in H as (vs & -> & HF). simpl.
    eapply Forall2_impl; [exact HF|]. intros row v Hv.
    apply format_row_fields in Hv as (Hid & _ & Hl).
    split; [done|]. rewrite Hl. apply bool_decide_eq_true. }
  split; [exact Hfmt|]. split.
  { eexists. split; [reflexivity|]. intros pid. apply liked_post_ids_spec. }
  run_monad. rewrite Hu. simpl. rewrite order_map_recent. simpl.
  destruct (format_posts_for_view host (select_posts CreatedDesc (disk w))
              (Some (list_to_set (select_liked_post_ids uid (disk w)))))
    as [views|e] eqn:E; simpl.
  - split; [by rewrite <- app_assoc|]. split; [|eauto].
    intros views' [= <-]. apply Hfmt in E.
    eapply Forall2_impl; [exact E|]. intros row v [Hid Hl]. split; [done|].
    by rewrite Hl, Hid, liked_post_ids_spec.
  - split; [by rewrite <- app_assoc|]. split; [discriminate|].
    intros Hdisp. exfalso.
    destruct (format_loop_total host
                (list_to_set (select_liked_post_ids uid (disk w)))
                (select_posts CreatedDesc (disk w)) []) as [views Hv].
    + rewrite (select_posts_perm CreatedDesc (disk w)).
      apply Forall_forall. intros row Hrow.
      apply format_row_displayable.
      apply joined_posts_created_at in Hrow as (p & Hp & _ & -> & _).
      by apply (proj1 (Forall_forall _ _) Hdisp).
    + unfold format_posts_for_view in E. simpl in E. congruence.
Qed.

Lemma annotate_viewer_state_witness :
  ∃ views, fst (request (feed host_without_tzdata dave) two_posts_world)
           = Ok (RenderTemplate "feed.html" views).
Proof.
  apply (annotate_viewer_state host_without_tzdata dave 4 two_posts_world);
    [reflexivity|].
  replace (posts (disk two_posts_world))
    with [ mk_Post 1 2 "a.png" "P1" (isoformat noon);
           mk_Post 2 3 "b.png" "P2" (isoformat evening) ]
    by (vm_compute; reflexivity).
  repeat constructor.
  - exists noon. repeat split; try reflexivity. eexists. reflexivity.
  - exists evening. repeat split; try reflexivity. eexists. reflexivity.
Defined.

(** What dave sees: the newer post, which he likes, before the older one,
    which he does not. *)
Example feed_of_dave :
  ∃ v2 v1,
    fst (request (feed host_without_tzdata dave) two_posts_world)
      = Ok (RenderTemplate "feed.html" [v2; v1])
    ∧ (view_id v2, view_liked v2, view_like_count v2) = (2, true, 3)
    ∧ (view_id v1, view_liked v1, view_like_count v1) = (1, false, 2).
Proof. do 2 eexists. split; [vm_compute; reflexivity|]. split; reflexivity. Qed.
(** ** The display time *)





(** The bound on the year matters only for rows that [create_post] cannot
    have written: for an instant of 1943 a time zone database gives the
    wartime offset of 6 hours 30 minutes. *)
Lemma display_time_before_1946 :
  ∃ v1 v2,
    format_row host_without_tzdata ∅ row_1943 = Ok v1
    ∧ format_row host_with_tzdata ∅ row_1943 = Ok v2
    ∧ view_display_time v1 = "Jan 01, 1943 " +:+ middle_dot +:+ " 05:30 AM"
    ∧ view_display_time v2 = "Jan 01, 1943 " +:+ middle_dot +:+ " 06:30 AM".
Proof. do 2 eexists. repeat split; vm_compute; reflexivity. Qed.

(** * Further properties *)

Import Filename Upload Account Schema MoreExamples.

(** ** File names *)

Lemma split_last_dot_none s :
  split_last_dot s = None ↔ contains_dot s = false.
Proof.
  induction s as [|c s IH]; simpl; [done|].
  destruct (split_last_dot s) as [[h t]|].
  - split; [done|]. intros [_ H]%orb_false_iff.
    apply IH in H. discriminate.
  - destruct (Ascii.eqb c "."); simpl; [done|]. by rewrite <- IH.
Qed.

Lemma split_last_dot_some s h t :
  split_last_dot s = Some (h, t) →
  s = h +:+ "." +:+ t ∧ contains_dot t = false.
Proof.
  revert h. induction s as [|c s IH]; intros h; simpl; [done|].
  destruct (split_last_dot s) as [[h' t']|] eqn:E.
  - intros [= <- <-]. destruct (IH h' eq_refl) as [-> Ht]. done.
  - destruct (Ascii.eqb_spec c "."); [|done].
    intros [= <- <-]. subst c. split; [done|]. by apply split_last_dot_none.
Qed.

Lemma split_last_dot_app stem ext :
  contains_dot ext = false →
  split_last_dot (stem +:+ "." +:+ ext) = Some (stem, ext).
Proof.
  intros Hext. induction stem as [|c stem IH].
  - change ("" +:+ "." +:+ ext) with (String "." ext). simpl.
    by rewrite (proj2 (split_last_dot_none ext) Hext).
  - change (String c stem +:+ "." +:+ ext)
      with (String c (stem +:+ "." +:+ ext)).
    simpl. by rewrite IH.
Qed.

Lemma contains_dot_app stem ext : contains_dot (stem +:+ "." +:+ ext) = true.
Proof.
  induction stem as [|c stem IH]; [done|].
  change (String c stem +:+ "." +:+ ext)
    with (String c (stem +:+ "." +:+ ext)).
  simpl. rewrite IH. apply orb_true_r.
Qed.

(** The verdict on a name with a last extension. *)
Lemma allowed_file_ext stem ext :
  contains_dot ext = false →
  allowed_file (stem +:+ "." +:+ ext)
  = bool_decide (lower ext ∈ ALLOWED_EXTENSIONS).
Proof.
  intros Hext. unfold allowed_file, rsplit_dot.
  by rewrite contains_dot_app, split_last_dot_app.
Qed.

(** X1: [allowed_file] accepts a name exactly when the text after its last dot,
    in lower case, is one of png, jpg, jpeg, gif and webp; a name without a
    dot is refused. *)
Theorem allowed_file_spec (filename : string) :
  allowed_file filename = true
  ↔ ∃ stem ext,
      filename = stem +:+ "." +:+ ext ∧ contains_dot ext = false
      ∧ (lower ext = "png" ∨ lower ext = "jpg" ∨ lower ext = "jpeg"
         ∨ lower ext = "gif" ∨ lower ext = "webp").
Proof.
  assert (Hset : ∀ e, e ∈ ALLOWED_EXTENSIONS
    ↔ e = "png" ∨ e = "jpg" ∨ e = "jpeg" ∨ e = "gif" ∨ e = "webp").
  { intros e. unfold ALLOWED_EXTENSIONS.
    rewrite !elem_of_union, !elem_of_singleton. tauto. }
  split.
  - unfold allowed_file, rsplit_dot.
    intros [Hdot H]%andb_true_iff.
    destruct (split_last_dot filename) as [[h t]|] eqn:E.
    + apply split_last_dot_some in E as [-> Ht]. simpl in H.
      apply bool_decide_eq_true in H. exists h, t. by rewrite <- Hset.
    + apply split_last_dot_none in E. congruence.
  - intros (stem & ext & -> & Hext & H).
    rewrite allowed_file_ext by done. apply bool_decide_eq_true.
    by apply Hset.
Qed.

(** X2: Neither the part before the last dot nor the case of the extension
    changes the verdict of [allowed_file]. *)
Theorem allowed_file_ignores_stem_and_case (stem stem' ext ext' : string) :
  contains_dot ext = false → contains_dot ext' = false →
  lower ext = lower ext' →
  allowed_file (stem +:+ "." +:+ ext) = allowed_file (stem' +:+ "." +:+ ext').
Proof. intros H H' Hl. by rewrite !allowed_file_ext, Hl. Qed.

Lemma allowed_file_ignores_stem_and_case_witness :
  allowed_file "holiday.JpEg" = allowed_file "x.jpeg".
Proof.
  apply (allowed_file_ignores_stem_and_case "holiday" "x" "JpEg" "jpeg");
    reflexivity.
Defined.

(** ** Guards *)

Ltac run_more :=
  unfold upload, login, logout; run_monad;
  unfold fetch_user_by_username, save, load_form_data, bind, ret, flash, emit,
    query, record;
  simpl.

(** X3: Without a user id in the session, each of the views behind
    [login_required] (the feed, the leaderboard, the upload, the deletion
    and the like toggle) answers with the redirect to the login page and
    the message "Please log in to continue."; it executes no statement and
    leaves the database and the files as they are. *)
Theorem anonymous_request_refused
    (session : Session) (host : Host) (secure_filename : string → string)
    (root_path : string) (method : Method) (content_length : Z)
    (form : gmap string string) (image : option string)
    (now now_post : datetime) (post_id : Z) (referrer : option string)
    (w : World) :
  session_user_id session = None →
  let refused := λ (view : M Response),
    fst (request view w) = Ok (Redirect (UrlFor "login"))
    ∧ disk (snd (request view w)) = disk w
    ∧ files (snd (request view w)) = files w
    ∧ log (snd (request view w))
      = log w ++ [Flash "Please log in to continue." "warning"] in
  refused (feed host session)
  ∧ refused (leaderboard host session)
  ∧ refused (upload secure_filename root_path session method content_length
               form image now now_post)
  ∧ refused (delete_post root_path session post_id)
  ∧ refused (toggle_like session post_id now referrer).
Proof.
  intros Hanon. cbv zeta. run_more. rewrite Hanon. simpl. done.
Qed.

Lemma anonymous_request_refused_witness :
  fst (request (toggle_like cleared 1 noon None) two_posts_world)
    = Ok (Redirect (UrlFor "login"))
  ∧ disk (snd (request (delete_post "/srv/app" cleared 1) two_posts_world))
    = disk two_posts_world.
Proof.
  destruct (anonymous_request_refused cleared host_without_tzdata
              toy_secure_filename "/srv/app" POST 0 ∅ None noon noon 1 None
              two_posts_world eq_refl)
    as (_ & _ & _ & (_ & Hd & _) & (Ht & _)).
  split; [exact Ht | exact Hd].
Defined.

(** X4: A logged-in user who is not an administrator cannot delete: the view
    answers with the redirect to the feed and the message of the guard,
    executes no statement, not even the lookup of the post, and leaves the
    database and the files as they are. *)
Theorem delete_post_needs_admin
    (module_dir : string) (session : Session) (uid post_id : Z) (w : World) :
  session_user_id session = Some uid →
  session_is_admin session = false →
  fst (request (delete_post module_dir session post_id) w)
    = Ok (Redirect (UrlFor "feed"))
  ∧ disk (snd (request (delete_post module_dir session post_id) w)) = disk w
  ∧ files (snd (request (delete_post module_dir session post_id) w)) = files w
  ∧ log (snd (request (delete_post module_dir session post_id) w))
    = log w ++ [Flash "You do not have permission to perform this action."
                  "danger"].
Proof. intros Hu Ha. run_monad. rewrite Hu, Ha. simpl. done. Qed.

Lemma delete_post_needs_admin_witness :
  fst (request (delete_post "/srv/app" bob 1) two_posts_world)
    = Ok (Redirect (UrlFor "feed"))
  ∧ disk (snd (request (delete_post "/srv/app" bob 1) two_posts_world))
    = disk two_posts_world.
Proof.
  destruct (delete_post_needs_admin "/srv/app" bob 2 1 two_posts_world
              eq_refl eq_refl) as (Hr & Hd & _).
  split; [exact Hr | exact Hd].
Defined.

(** X5: A deletion or a like toggle aimed at an id that [fetch_post_by_id]
    does not find.  When the id fits an SQLite INTEGER (or is the id of a
    post whose author is gone), the view answers with the redirect to the
    feed and the message "Post not found."; after the one lookup nothing is
    executed.  When the id does not fit an INTEGER, binding it to the
    lookup raises OverflowError: no statement is executed and no message is
    flashed.  In both cases the database and the files stay as they are. *)
Theorem missing_post_is_reported
    (module_dir : string) (session : Session) (uid post_id : Z)
    (now : datetime) (referrer : option string) (w : World) :
  session_user_id session = Some uid →
  select_post_by_id post_id (disk w) = [] →
  let not_found := λ (view : M Response),
    fst (request view w) = Ok (Redirect (UrlFor "feed"))
    ∧ disk (snd (request view w)) = disk w
    ∧ files (snd (request view w)) = files w
    ∧ log (snd (request view w))
      = log w ++ [Execute (SelectPostById post_id);
                  Flash "Post not found." "warning"] in
  let overflow := λ (view : M Response),
    fst (request view w) = Raise OverflowError
    ∧ disk (snd (request view w)) = disk w
    ∧ files (snd (request view w)) = files w
    ∧ log (snd (request view w)) = log w in
  (is_integer post_id = true ∨ post_id ∈ Store.post_id <$> posts (disk w) →
     not_found (toggle_like session post_id now referrer)
     ∧ (session_is_admin session = true →
        not_found (delete_post module_dir session post_id)))
  ∧ (is_integer post_id = false → post_id ∉ Store.post_id <$> posts (disk w) →
     overflow (toggle_like session post_id now referrer)
     ∧ (session_is_admin session = true →
        overflow (delete_post module_dir session post_id))).
Proof.
  intros Hu Hnone. cbv zeta. split.
  - intros Hbind.
    assert (∀ w', conn w' = disk w → bind_post_id post_id w' = (Ok (), w'))
      as Hok.
    { intros w' Hw'. unfold bind_post_id. rewrite Hw'.
      destruct Hbind as [->|Hin]; [done|].
      by rewrite (bool_decide_eq_true_2 _ Hin), orb_true_r. }
    split.
    + run_monad. rewrite Hu. simpl. rewrite Hok by done. simpl.
      rewrite Hnone. simpl. by rewrite <- app_assoc.
    + intros Ha. run_monad. rewrite Hu, Ha. simpl. rewrite Hok by done.
      simpl. rewrite Hnone. simpl. by rewrite <- app_assoc.
  - intros Hrange Hnotin. split.
    + run_monad. rewrite Hu. simpl.
      by rewrite bind_post_id_overflow by done.
    + intros Ha. run_monad. rewrite Hu, Ha. simpl.
      by rewrite bind_post_id_overflow by done.
Qed.

Lemma missing_post_is_reported_witness :
  fst (request (toggle_like admin 9 noon None) two_posts_world)
    = Ok (Redirect (UrlFor "feed"))
  ∧ fst (request (delete_post "/srv/app" admin 9) two_posts_world)
    = Ok (Redirect (UrlFor "feed"))
  ∧ fst (request (delete_post "/srv/app" admin (2 ^ 63)) two_posts_world)
    = Raise OverflowError.
Proof.
  destruct (missing_post_is_reported "/srv/app" admin 1 9 noon None
              two_posts_world eq_refl) as (Hfound & _).
  { vm_compute. reflexivity. }
  destruct (missing_post_is_reported "/srv/app" admin 1 (2 ^ 63) noon None
              two_posts_world eq_refl) as (_ & Hover).
  { vm_compute. reflexivity. }
  destruct (Hfound (or_introl eq_refl)) as ((Ht & _) & Hd).
  destruct (Hd eq_refl) as (Hr & _).
  destruct Hover as (_ & Ho).
  { reflexivity. }
  { vm_compute. intros H. apply list_elem_of_In in H.
    destruct H as [H|[H|[]]]; discriminate H. }
  destruct (Ho eq_refl) as (Hraise & _).
  split; [exact Ht|]. split; [exact Hr | exact Hraise].
Defined.

(** ** The constraints of the schema *)

Lemma NoDup_fmap_filter {A B} (f : A → B) (P : A → Prop)
    `{∀ x, Decision (P x)} (l : list A) :
  NoDup (f <$> l) → NoDup (f <$> filter P l).
Proof.
  intros Hl. eapply sublist_NoDup; [exact Hl|].
  apply fmap_sublist, sublist_filter.
Qed.

Lemma NoDup_fmap_snoc {A B} (f : A → B) (l : list A) (x : A) :
  NoDup (f <$> l) → (∀ y, y ∈ l → f y ≠ f x) → NoDup (f <$> (l ++ [x])).
Proof.
  intros Hl Hx. rewrite fmap_app. apply NoDup_app. split; [done|]. split.
  - intros b [y [-> Hy]]%list_elem_of_fmap Hin.
    apply list_elem_of_singleton in Hin. by apply (Hx y).
  - apply NoDup_singleton.
Qed.

Lemma constraints_empty : constraints empty_db.
Proof. split; simpl; try apply NoDup_nil_2; intros ? H; inv H. Qed.

Lemma constraints_insert_user name hash admin db db' :
  constraints db → insert_user name hash admin db = Some db' → constraints db'.
Proof.
  intros [] Hi. unfold insert_user in Hi.
  case_bool_decide as Hfree; [|discriminate]. injection Hi as <-.
  split; simpl; try done.
  - apply NoDup_fmap_snoc; [done|]. intros u Hu. simpl.
    specialize (users_seq0 u Hu). lia.
  - intros u [Hu|Hu]%elem_of_app.
    + specialize (users_seq0 u Hu). lia.
    + apply list_elem_of_singleton in Hu as ->. simpl. lia.
  - apply NoDup_fmap_snoc; [done|]. intros u Hu. simpl. intros Heq.
    assert (u ∈ select_users_by_username db name)
      by (by apply list_elem_of_filter).
    rewrite Hfree in H. inv H.
Qed.

Lemma constraints_insert_post uid image caption created_at db :
  constraints db → constraints (insert_post uid image caption created_at db).
Proof.
  intros []. split; simpl; try done.
  - apply NoDup_fmap_snoc; [done|]. intros p Hp. simpl.
    specialize (posts_seq0 p Hp). lia.
  - intros p [Hp|Hp]%elem_of_app.
    + specialize (posts_seq0 p Hp). lia.
    + apply list_elem_of_singleton in Hp as ->. simpl. lia.
  - intros l Hl. destruct (likes_post0 l Hl) as (p & Hp & Hid).
    exists p. split; [|done]. apply elem_of_app. by left.
Qed.

Lemma constraints_insert_like uid pid created_at db :
  constraints db →
  (∃ p, p ∈ posts db ∧ post_id p = pid) →
  constraints (insert_or_ignore_like uid pid created_at db).
Proof.
  intros Hc Hpost. unfold insert_or_ignore_like.
  case_bool_decide as Hfree; [|done]. destruct Hc.
  split; simpl; try done.
  - apply NoDup_fmap_snoc; [done|]. intros l Hl. simpl.
    specialize (likes_seq0 l Hl). lia.
  - intros l [Hl|Hl]%elem_of_app.
    + specialize (likes_seq0 l Hl). lia.
    + apply list_elem_of_singleton in Hl as ->. simpl. lia.
  - apply NoDup_fmap_snoc; [done|]. intros l Hl. simpl. intros [= Hu Hp].
    assert (l ∈ select_like uid pid db) by (by apply list_elem_of_filter).
    rewrite Hfree in H. inv H.
  - intros l [Hl|Hl]%elem_of_app; [by apply likes_post0|].
    apply list_elem_of_singleton in Hl as ->. exact Hpost.
Qed.

Lemma constraints_delete_like uid pid db :
  constraints db → constraints (delete_like uid pid db).
Proof.
  intros []. split; simpl; try done; try by apply NoDup_fmap_filter.
  - intros l [_ Hl]%list_elem_of_filter. by apply likes_seq0.
  - intros l [_ Hl]%list_elem_of_filter. by apply likes_post0.
Qed.

Lemma constraints_remove_post pid db :
  constraints db →
  constraints (delete_post_row pid (delete_likes_of_post pid db)).
Proof.
  intros []. split; simpl; try done; try by apply NoDup_fmap_filter.
  - intros p [_ Hp]%list_elem_of_filter. by apply posts_seq0.
  - intros l [_ Hl]%list_elem_of_filter. by apply likes_seq0.
  - intros l [Hne Hl]%list_elem_of_filter.
    destruct (likes_post0 l Hl) as (p & Hp & Hid).
    exists p. split; [|done]. apply list_elem_of_filter. split; [|done].
    by rewrite Hid.
Qed.

(** What a view can do to the committed database. *)
Lemma toggle_like_disk_cases session p now referrer w :
  disk (snd (request (toggle_like session p now referrer) w)) = disk w
  ∨ ∃ u, session_user_id session = Some u
         ∧ select_post_by_id p (disk w) ≠ []
         ∧ disk (snd (request (toggle_like session p now referrer) w))
           = if bool_decide (select_like u p (disk w) ≠ [])
             then delete_like u p (disk w)
             else insert_or_ignore_like u p (isoformat now) (disk w).
Proof.
  destruct (session_user_id session) as [u|] eqn:Hu.
  - destruct (decide (select_post_by_id p (disk w) = [])) as [Hp|Hp].
    + left. run_monad. rewrite Hu. simpl.
      bind_cases; [by rewrite Hp|done].
    + right. exists u. split; [done|]. split; [done|].
      by apply toggle_like_disk.
  - left. run_monad. by rewrite Hu.
Qed.

Lemma delete_post_disk_cases module_dir session pid w :
  disk (snd (request (delete_post module_dir session pid) w)) = disk w
  ∨ disk (snd (request (delete_post module_dir session pid) w))
    = delete_post_row pid (delete_likes_of_post pid (disk w)).
Proof.
  destruct (session_user_id session) as [u|] eqn:Hu;
    [|left; run_monad; by rewrite Hu].
  destruct (session_is_admin session) eqn:Ha;
    [|left; run_monad; by rewrite Hu, Ha].
  destruct (fetchone (select_post_by_id pid (disk w))) as [post|] eqn:Hp.
  - right.
    assert (Hid : det_id post = pid)
      by (eapply select_post_by_id_id, fetchone_elem_of, Hp).
    run_monad. rewrite Hu, Ha. simpl.
    rewrite bind_post_id_found by (simpl; eapply fetchone_Some_nonempty, Hp).
    simpl. rewrite Hp. simpl. rewrite Hid.
    repeat (case_bool_decide; simpl); reflexivity.
  - left. run_monad. rewrite Hu, Ha. simpl.
    bind_cases; [by rewrite Hp|done].
Qed.

Lemma create_app_disk_cases hash salt w :
  disk (snd (create_app hash salt w)) = disk w
  ∨ insert_user "admin" (hash salt "adminpass") 1 (disk w)
    = Some (disk (snd (create_app hash salt w))).
Proof.
  run_monad. destruct (count_admins (disk w) =? 0); simpl; [|by left].
  destruct (insert_user "admin" (hash salt "adminpass") 1 (disk w)) eqn:E;
    simpl; auto.
Qed.

Lemma perform_constraints hash module_dir a w :
  constraints (disk w) → constraints (disk (perform hash module_dir a w)).
Proof.
  intros Hc.
  destruct a as [salt method form|uid image caption now|session pid
                |session pid now referrer|host session|host session|salt];
    simpl.
  - destruct method; [done|].
    destruct (register_post_cases hash salt form w)
      as [(_ & _ & -> & _)|[(_ & _ & _ & _ & -> & _)|(_ & _ & _ & _ & Hi)]];
      try done.
    eapply constraints_insert_user; eauto.
  - by apply constraints_insert_post.
  - destruct (delete_post_disk_cases module_dir session pid w) as [->| ->];
      [done|]. by apply constraints_remove_post.
  - destruct (toggle_like_disk_cases session pid now referrer w)
      as [->|(u & _ & Hp & ->)]; [done|].
    case_bool_decide.
    + by apply constraints_delete_like.
    + apply constraints_insert_like; [done|]. by apply select_post_by_id_post.
  - by rewrite feed_disk.
  - by rewrite leaderboard_disk.
  - destruct (create_app_disk_cases hash salt w) as [->|Hi]; [done|].
    eapply constraints_insert_user; eauto.
Qed.

Lemma reachable_inv hash module_dir w :
  reachable hash module_dir w → constraints (disk w).
Proof.
  induction 1 as [w salt Hfresh|w a _ IH].
  - destruct (create_app_disk_cases hash salt w) as [->|Hi].
    + rewrite Hfresh. apply constraints_empty.
    + eapply constraints_insert_user; [|exact Hi].
      rewrite Hfresh. apply constraints_empty.
  - by apply perform_constraints.
Qed.

(** The posts stay in the order of their ids: a new post gets an id above
    the counter, which no stored id exceeds, and goes to the end. *)
Lemma StronglySorted_filter {A} (R : relation A) (P : A → Prop)
    `{∀ x, Decision (P x)} (l : list A) :
  StronglySorted R l → StronglySorted R (filter P l).
Proof.
  induction 1 as [|x l Hs IH Hall]; [constructor|].
  destruct (decide (P x)) as [Hx|Hx].
  - rewrite (filter_cons_True _ _ _ Hx). constructor; [done|].
    rewrite Forall_forall in Hall. apply Forall_forall.
    intros y [_ Hy]%list_elem_of_filter. by apply Hall.
  - by rewrite (filter_cons_False _ _ _ Hx).
Qed.

Lemma insert_user_posts name hash admin db db' :
  insert_user name hash admin db = Some db' → posts db' = posts db.
Proof.
  unfold insert_user. case_bool_decide; [|discriminate]. by intros [= <-].
Qed.

Lemma insert_user_rowid_order name hash admin db db' :
  insert_user name hash admin db = Some db' →
  posts_in_rowid_order db → posts_in_rowid_order db'.
Proof.
  unfold posts_in_rowid_order. by intros ->%insert_user_posts.
Qed.

Lemma perform_rowid_order hash module_dir a w :
  constraints (disk w) → posts_in_rowid_order (disk w) →
  posts_in_rowid_order (disk (perform hash module_dir a w)).
Proof.
  intros Hc Ho.
  destruct a as [salt method form|uid image caption now|session pid
                |session pid now referrer|host session|host session|salt];
    simpl.
  - destruct method; [done|].
    destruct (register_post_cases hash salt form w)
      as [(_ & _ & -> & _)|[(_ & _ & _ & _ & -> & _)|(_ & _ & _ & _ & Hi)]];
      try done.
    eapply insert_user_rowid_order; eauto.
  - unfold posts_in_rowid_order in *. simpl.
    apply StronglySorted_app_2; [|done|repeat constructor].
    intros p q Hp ->%list_elem_of_singleton. simpl.
    pose proof (posts_seq _ Hc p Hp). lia.
  - destruct (delete_post_disk_cases module_dir session pid w) as [->| ->];
      [done|]. unfold posts_in_rowid_order in *. simpl.
    by apply StronglySorted_filter.
  - destruct (toggle_like_disk_cases session pid now referrer w)
      as [->|(u & _ & Hp & ->)]; [done|].
    case_bool_decide; [done|].
    unfold insert_or_ignore_like. by case_bool_decide.
  - by rewrite feed_disk.
  - by rewrite leaderboard_disk.
  - destruct (create_app_disk_cases hash salt w) as [->|Hi]; [done|].
    eapply insert_user_rowid_order; eauto.
Qed.

Lemma reachable_rowid_order hash module_dir w :
  reachable hash module_dir w → posts_in_rowid_order (disk w).
Proof.
  induction 1 as [w salt Hfresh|w a Hw IH].
  - destruct (create_app_disk_cases hash salt w) as [->|Hi].
    + rewrite Hfresh. constructor.
    + eapply insert_user_rowid_order; [exact Hi|].
      rewrite Hfresh. constructor.
  - apply perform_rowid_order; [|done]. by eapply reachable_inv.
Qed.

(** In every state that the application reaches, the like-ranked feed is
    sorted by like count, then creation text, then id. *)
Lemma reachable_feed_order hash module_dir w :
  reachable hash module_dir w →
  StronglySorted likes_created_rowid
    (select_posts LikesDescCreatedDesc (disk w)).
Proof.
  intros Hw. eapply select_posts_rowid_order, reachable_rowid_order, Hw.
Qed.

Lemma two_posts_world_reachable : reachable toy_hash "/srv/app" two_posts_world.
Proof.
  unfold two_posts_world. repeat (rewrite foldl_cons || rewrite foldl_nil).
  repeat apply reachable_perform. apply reachable_first_start. reflexivity.
Qed.

(** X6: In every state that the application reaches, the committed database
    satisfies the constraints that the schema declares: no user id, user
    name, post id or like id occurs twice, no (user, post) pair has two
    Like rows, no id lies above the counter of its table, and every Like
    row points to a post that is there. *)
Theorem reachable_constraints
    (hash : string → string → string) (module_dir : string) (w : World) :
  reachable hash module_dir w → constraints (disk w).
Proof. apply reachable_inv. Qed.

Lemma reachable_constraints_witness : constraints (disk two_posts_world).
Proof.
  apply (reachable_constraints toy_hash "/srv/app").
  apply two_posts_world_reachable.
Defined.

(** ** Posts in the feed *)

Lemma like_count_of_remove pid q db :
  q ≠ pid →
  like_count_of (delete_post_row pid (delete_likes_of_post pid db)) q
  = like_count_of db q.
Proof.
  intros Hq. unfold like_count_of. simpl. do 2 f_equal.
  induction (likes db) as [|l ls IH]; [done|].
  destruct (decide (like_post_id l = pid)) as [E|E].
  - rewrite (filter_cons_False (λ l, like_post_id l ≠ pid)) by tauto.
    rewrite (filter_cons_False (λ l, like_post_id l = q)) by congruence.
    exact IH.
  - rewrite (filter_cons_True (λ l, like_post_id l ≠ pid)) by done.
    destruct (decide (like_post_id l = q)).
    + rewrite !(filter_cons_True (λ l, like_post_id l = q)) by done.
      by rewrite IH.
    + rewrite !(filter_cons_False (λ l, like_post_id l = q)) by done.
      exact IH.
Qed.

(** The rows of the feed after a deletion: those of the other posts. *)
Lemma joined_posts_remove pid db :
  joined_posts (delete_post_row pid (delete_likes_of_post pid db))
  = filter (λ r, row_id r ≠ pid) (joined_posts db).
Proof.
  unfold joined_posts.
  change (users (delete_post_row pid (delete_likes_of_post pid db)))
    with (users db).
  change (posts (delete_post_row pid (delete_likes_of_post pid db)))
    with (filter (λ p, post_id p ≠ pid) (posts db)).
  induction (posts db) as [|p ps IH]; [done|].
  destruct (decide (post_id p = pid)) as [E|E].
  - rewrite (filter_cons_False (λ p, post_id p ≠ pid)) by tauto.
    simpl. rewrite filter_app, <- IH.
    destruct (filter _ (users db)); simpl; [done|].
    by rewrite filter_cons_False by (simpl; tauto).
  - rewrite (filter_cons_True (λ p, post_id p ≠ pid)) by done.
    simpl. rewrite filter_app, <- IH. f_equal.
    destruct (filter _ (users db)); simpl; [done|].
    rewrite filter_cons_True by done.
    by rewrite like_count_of_remove.
Qed.

Lemma select_post_by_id_remove pid db :
  select_post_by_id pid (delete_post_row pid (delete_likes_of_post pid db)) = [].
Proof.
  unfold select_post_by_id. simpl.
  replace (filter (λ p, post_id p = pid)
             (filter (λ p, post_id p ≠ pid) (posts db))) with (@nil Post);
    [done|].
  symmetry. induction (posts db) as [|p ps IH]; [done|].
  destruct (decide (post_id p = pid)).
  - by rewrite filter_cons_False by tauto.
  - rewrite filter_cons_True by done. by rewrite filter_cons_False.
Qed.

Lemma delete_post_disk module_dir session uid pid post w :
  session_user_id session = Some uid →
  session_is_admin session = true →
  fetchone (select_post_by_id pid (disk w)) = Some post →
  disk (snd (request (delete_post module_dir session pid) w))
  = delete_post_row pid (delete_likes_of_post pid (disk w)).
Proof.
  intros Hu Ha Hp.
  assert (Hid : det_id post = pid)
    by (eapply select_post_by_id_id, fetchone_elem_of, Hp).
  run_monad. rewrite Hu, Ha. simpl.
  rewrite bind_post_id_found by (simpl; eapply fetchone_Some_nonempty, Hp).
  simpl. rewrite Hp. simpl. rewrite Hid.
  repeat (case_bool_decide; simpl); reflexivity.
Qed.

(** The feed after a deletion is the feed of before with the row of the
    post left out: the sorter places the other rows as it did. *)
Lemma select_posts_remove c pid db :
  select_posts c (delete_post_row pid (delete_likes_of_post pid db))
  = filter (λ r, row_id r ≠ pid) (select_posts c db).
Proof.
  unfold select_posts. rewrite joined_posts_remove.
  destruct c; apply order_by_filter; apply _.
Qed.

(** X7: After an administrator has deleted a post, whatever became of the
    image file: the post is not found by id; the feed in either order is
    the feed of before with the row of the post left out, the other rows
    as they were and in the places they had among themselves; no Like row
    of the post is left; and a like toggle on the post (its id, as that of
    every stored row, within the range of an INTEGER) answers "Post not
    found." and changes nothing. *)
Theorem deleted_post_is_gone
    (module_dir : string) (session : Session) (uid pid : Z)
    (post : PostDetail) (viewer : Session) (vid : Z) (now : datetime)
    (referrer : option string) (w : World) :
  session_user_id session = Some uid →
  session_is_admin session = true →
  fetchone (select_post_by_id pid (disk w)) = Some post →
  is_integer pid = true →
  session_user_id viewer = Some vid →
  let w' := snd (request (delete_post module_dir session pid) w) in
  select_post_by_id pid (disk w') = []
  ∧ (∀ c, select_posts c (disk w')
          = filter (λ r, row_id r ≠ pid) (select_posts c (disk w)))
  ∧ (∀ l, l ∈ likes (disk w') → like_post_id l ≠ pid)
  ∧ fst (request (toggle_like viewer pid now referrer) w')
    = Ok (Redirect (UrlFor "feed"))
  ∧ disk (snd (request (toggle_like viewer pid now referrer) w')) = disk w'
  ∧ log (snd (request (toggle_like viewer pid now referrer) w'))
    = log w' ++ [Execute (SelectPostById pid);
                 Flash "Post not found." "warning"].
Proof.
  intros Hu Ha Hp Hrange Hv. cbv zeta.
  rewrite (delete_post_disk module_dir session uid pid post w) by done.
  set (w' := snd (request (delete_post module_dir session pid) w)).
  assert (Hd : disk w'
    = delete_post_row pid (delete_likes_of_post pid (disk w)))
    by (by apply (delete_post_disk module_dir session uid pid post w)).
  split; [apply select_post_by_id_remove|].
  split; [intros c; apply select_posts_remove|].
  split; [intros l; apply delete_likes_of_post_none|].
  run_monad. rewrite Hv. simpl.
  rewrite bind_post_id_in_range by done. simpl.
  rewrite Hd, select_post_by_id_remove. simpl.
  split; [reflexivity|]. split; [reflexivity|]. by rewrite <- app_assoc.
Qed.

Lemma deleted_post_is_gone_witness :
  select_post_by_id 1
    (disk (snd (request (delete_post "/srv/app" admin 1) two_posts_world))) = []
  ∧ select_posts LikesDescCreatedDesc
      (disk (snd (request (delete_post "/srv/app" admin 1) two_posts_world)))
    = filter (λ r, row_id r ≠ 1)
        (select_posts LikesDescCreatedDesc (disk two_posts_world))
  ∧ fst (request (toggle_like bob 1 noon None)
           (snd (request (delete_post "/srv/app" admin 1) two_posts_world)))
    = Ok (Redirect (UrlFor "feed")).
Proof.
  destruct (deleted_post_is_gone "/srv/app" admin 1 1 post1 bob 2 noon None
              two_posts_world) as (H1 & H2 & _ & H4 & _); try reflexivity.
  split; [exact H1|]. split; [exact (H2 LikesDescCreatedDesc) | exact H4].
Defined.

(** ** Like counts and fresh ids *)

Lemma NoDup_fmap_eq {A B} (f : A → B) (l : list A) (x y : A) :
  NoDup (f <$> l) → x ∈ l → y ∈ l → f x = f y → x = y.
Proof.
  induction l as [|a l IH]; simpl; [by intros _ H; inv H|].
  intros [Ha Hl]%NoDup_cons Hx Hy Hf.
  apply elem_of_cons in Hx as [->|Hx]; apply elem_of_cons in Hy as [->|Hy];
    auto.
  - exfalso. apply Ha. rewrite Hf. by apply list_elem_of_fmap_2.
  - exfalso. apply Ha. rewrite <- Hf. by apply list_elem_of_fmap_2.
Qed.

Lemma filter_all_false {A} (P : A → Prop) `{∀ x, Decision (P x)}
    (l : list A) :
  (∀ x, x ∈ l → ¬ P x) → filter P l = [].
Proof.
  induction l as [|a l IH]; [done|]. intros Hl.
  rewrite filter_cons_False by (apply Hl; left).
  apply IH. intros x Hx. apply Hl. by right.
Qed.

Lemma filter_unique {A B} `{EqDecision B} (f : A → B) (l : list A) (x : A) :
  NoDup (f <$> l) → x ∈ l → filter (λ y, f y = f x) l = [x].
Proof.
  induction l as [|a l IH]; simpl; [by intros _ H; inv H|].
  intros [Ha Hl]%NoDup_cons Hx.
  apply elem_of_cons in Hx as [->|Hx].
  - rewrite filter_cons_True by done. f_equal.
    apply filter_all_false. intros y Hy Heq. apply Ha. rewrite <- Heq. by apply list_elem_of_fmap_2.
  - rewrite filter_cons_False; [by apply IH|].
    intros Heq. apply Ha. rewrite Heq. by apply list_elem_of_fmap_2.
Qed.

Lemma likers_spec db pid u :
  u ∈ likers db pid
  ↔ pid ∈ (list_to_set (select_liked_post_ids u db) : gset Z).
Proof.
  unfold likers. rewrite liked_post_ids_spec, elem_of_list_to_set,
    list_elem_of_fmap.
  split.
  - intros (l & -> & [Hp Hl]%list_elem_of_filter). eauto.
  - intros (l & Hl & Hu & Hp). exists l. split; [done|].
    by apply list_elem_of_filter.
Qed.

Lemma like_count_of_likers db pid :
  constraints db → like_count_of db pid = Z.of_nat (size (likers db pid)).
Proof.
  intros Hc. unfold like_count_of, likers. f_equal.
  rewrite size_list_to_set, length_fmap; [done|].
  apply NoDup_fmap_2_strong.
  - intros x y [Hx Hxl]%list_elem_of_filter [Hy Hyl]%list_elem_of_filter Hu.
    apply (NoDup_fmap_eq (λ l, (like_user_id l, like_post_id l)) (likes db));
      try done.
    + apply Hc.
    + simpl. congruence.
  - apply NoDup_filter. eapply NoDup_fmap_1, (likes_pk _ Hc).
Qed.

(** X8: In every state that the application reaches, the like count of a row
    of the feed is the number of users who have a Like row for the post:
    the users whose set of liked post ids holds it. *)
Theorem like_count_counts_users
    (hash : string → string → string) (module_dir : string) (w : World)
    (c : OrderClause) (row : PostRow) :
  reachable hash module_dir w →
  row ∈ select_posts c (disk w) →
  row_like_count row = Z.of_nat (size (likers (disk w) (row_id row)))
  ∧ ∀ u, u ∈ likers (disk w) (row_id row)
         ↔ row_id row
           ∈ (list_to_set (select_liked_post_ids u (disk w)) : gset Z).
Proof.
  intros Hw Hrow. split; [|intros u; apply likers_spec].
  rewrite select_posts_perm in Hrow.
  apply joined_posts_created_at in Hrow as (p & _ & -> & _ & ->).
  apply like_count_of_likers. by eapply reachable_inv.
Qed.

Lemma like_count_counts_users_witness :
  row_like_count (mk_PostRow 2 "b.png" "P2" (isoformat evening) "carol" 3)
  = Z.of_nat (size (likers (disk two_posts_world) 2)).
Proof.
  apply (like_count_counts_users toy_hash "/srv/app" two_posts_world
           LikesDescCreatedDesc
           (mk_PostRow 2 "b.png" "P2" (isoformat evening) "carol" 3)).
  - apply two_posts_world_reachable.
  - replace (select_posts LikesDescCreatedDesc (disk two_posts_world))
      with [ mk_PostRow 2 "b.png" "P2" (isoformat evening) "carol" 3;
             mk_PostRow 1 "a.png" "P1" (isoformat noon) "bob" 2 ]
      by (vm_compute; reflexivity).
    left.
Defined.

Lemma insert_user_seq_posts name hash admin db db' :
  insert_user name hash admin db = Some db' → seq_posts db' = seq_posts db.
Proof.
  unfold insert_user. case_bool_decide; [|discriminate]. by intros [= <-].
Qed.

Lemma perform_seq_posts hash module_dir a w :
  seq_posts (disk w) ≤ seq_posts (disk (perform hash module_dir a w)).
Proof.
  destruct a as [salt method form|uid image caption now|session pid
                |session pid now referrer|host session|host session|salt];
    simpl.
  - destruct method; [done|].
    destruct (register_post_cases hash salt form w)
      as [(_ & _ & -> & _)|[(_ & _ & _ & _ & -> & _)|(_ & _ & _ & _ & Hi)]];
      try done.
    by rewrite (insert_user_seq_posts _ _ _ _ _ Hi).
  - lia.
  - by destruct (delete_post_disk_cases module_dir session pid w) as [->| ->].
  - destruct (toggle_like_disk_cases session pid now referrer w)
      as [->|(u & _ & _ & ->)]; [done|].
    unfold insert_or_ignore_like. by repeat case_bool_decide.
  - by rewrite feed_disk.
  - by rewrite leaderboard_disk.
  - destruct (create_app_disk_cases hash salt w) as [->|Hi]; [done|].
    by rewrite (insert_user_seq_posts _ _ _ _ _ Hi).
Qed.

Lemma foldl_perform_seq_posts hash module_dir acts w :
  seq_posts (disk w)
  ≤ seq_posts (disk (foldl (λ w a, perform hash module_dir a w) w acts)).
Proof.
  revert w. induction acts as [|a acts IH]; intros w; simpl; [done|].
  etrans; [apply (perform_seq_posts hash module_dir a)|apply IH].
Qed.

(** X9: The id that [create_post] gives to a post is larger than the id of
    every post that has been in the table in any earlier state, whatever
    happened in between: the id of a deleted post is not given again. *)
Theorem post_ids_are_never_reused
    (hash : string → string → string) (module_dir : string) (w : World)
    (p : Post) (acts : list Action)
    (uid : Z) (image caption : string) (now : datetime) :
  reachable hash module_dir w →
  p ∈ posts (disk w) →
  let w2 := foldl (λ w a, perform hash module_dir a w) w acts in
  let w3 := snd (request (create_post uid image caption now) w2) in
  posts (disk w3)
    = posts (disk w2)
      ++ [mk_Post (seq_posts (disk w2) + 1) uid image caption (isoformat now)]
  ∧ post_id p < seq_posts (disk w2) + 1.
Proof.
  intros Hw Hp. cbv zeta. split; [reflexivity|].
  pose proof (posts_seq _ (reachable_inv _ _ _ Hw) p Hp).
  pose proof (foldl_perform_seq_posts hash module_dir acts w). lia.
Qed.

Lemma post_ids_are_never_reused_witness :
  posts (disk (snd (request (create_post 2 "c.png" "P3" evening)
                      (foldl (λ w a, perform toy_hash "/srv/app" a w)
                         two_posts_world [DoDeletePost admin 2]))))
  = [ mk_Post 1 2 "a.png" "P1" (isoformat noon);
      mk_Post 3 2 "c.png" "P3" (isoformat evening) ].
Proof.
  destruct (post_ids_are_never_reused toy_hash "/srv/app" two_posts_world
              (mk_Post 2 3 "b.png" "P2" (isoformat evening))
              [DoDeletePost admin 2] 2 "c.png" "P3" evening) as [H _].
  - apply two_posts_world_reachable.
  - replace (posts (disk two_posts_world))
      with [ mk_Post 1 2 "a.png" "P1" (isoformat noon);
             mk_Post 2 3 "b.png" "P2" (isoformat evening) ]
      by (vm_compute; reflexivity).
    right. left.
  - rewrite H. vm_compute. reflexivity.
Defined.

Lemma like_count_of_fresh db pid :
  constraints db → seq_posts db < pid → like_count_of db pid = 0.
Proof.
  intros Hc Hpid. unfold like_count_of.
  rewrite filter_all_false; [done|].
  intros l Hl Heq. destruct (likes_post _ Hc l Hl) as (p & Hp & Hid).
  pose proof (posts_seq _ Hc p Hp). lia.
Qed.

Lemma joined_posts_insert_post db u image caption created_at :
  constraints db → u ∈ users db →
  joined_posts (insert_post (user_id u) image caption created_at db)
  = joined_posts db
    ++ [mk_PostRow (seq_posts db + 1) image caption created_at (username u) 0].
Proof.
  intros Hc Hu.
  assert (Hfu : filter (λ u', user_id u' = user_id u) (users db) = [u])
    by (apply (filter_unique user_id); [apply Hc|done]).
  assert (Hcount : like_count_of db (seq_posts db + 1) = 0)
    by (apply like_count_of_fresh; [done|lia]).
  unfold joined_posts at 1. simpl.
  rewrite flat_map_app. simpl. rewrite Hfu.
  unfold like_count_of in *. simpl. by rewrite Hcount.
Qed.

Lemma select_post_by_id_insert_post db u image caption created_at :
  constraints db → u ∈ users db →
  select_post_by_id (seq_posts db + 1)
    (insert_post (user_id u) image caption created_at db)
  = [mk_PostDetail (seq_posts db + 1) (user_id u) image caption created_at
       (username u) 0].
Proof.
  intros Hc Hu.
  assert (Hfu : filter (λ u', user_id u' = user_id u) (users db) = [u])
    by (apply (filter_unique user_id); [apply Hc|done]).
  assert (Hcount : like_count_of db (seq_posts db + 1) = 0)
    by (apply like_count_of_fresh; [done|lia]).
  unfold select_post_by_id. simpl. rewrite filter_app.
  rewrite (filter_all_false _ (posts db)).
  - rewrite filter_cons_True by done. simpl. rewrite Hfu.
    unfold like_count_of in *. simpl. by rewrite Hcount.
  - intros p Hp. pose proof (posts_seq _ Hc p Hp). lia.
Qed.

(** X10: In every state that the application reaches, a post created for an
    existing user is found at once: the feed gains the row of the new
    post, with the author's name and a like count of 0, after the rows it
    had, and [fetch_post_by_id] finds the post under the next id of the
    counter. *)
Theorem new_post_is_listed
    (hash : string → string → string) (module_dir : string) (w : World)
    (u : User) (image caption : string) (now : datetime) :
  reachable hash module_dir w →
  u ∈ users (disk w) →
  let w' := snd (request (create_post (user_id u) image caption now) w) in
  let pid := seq_posts (disk w) + 1 in
  joined_posts (disk w')
    = joined_posts (disk w)
      ++ [mk_PostRow pid image caption (isoformat now) (username u) 0]
  ∧ select_post_by_id pid (disk w')
    = [mk_PostDetail pid (user_id u) image caption (isoformat now)
         (username u) 0].
Proof.
  intros Hw Hu. cbv zeta.
  pose proof (reachable_inv _ _ _ Hw) as Hc.
  change (disk (snd (request (create_post (user_id u) image caption now) w)))
    with (insert_post (user_id u) image caption (isoformat now) (disk w)).
  split.
  - by apply joined_posts_insert_post.
  - by apply select_post_by_id_insert_post.
Qed.

Lemma new_post_is_listed_witness :
  select_post_by_id 3
    (disk (snd (request (create_post 4 "c.png" "P3" evening) two_posts_world)))
  = [mk_PostDetail 3 4 "c.png" "P3" (isoformat evening) "dave" 0].
Proof.
  destruct (new_post_is_listed toy_hash "/srv/app" two_posts_world
              (mk_User 4 "dave" (toy_hash "s3" "pw3") 0)
              "c.png" "P3" evening) as [_ H].
  - apply two_posts_world_reachable.
  - replace (users (disk two_posts_world))
      with [ mk_User 1 "admin" (toy_hash "s0" "adminpass") 1;
             mk_User 2 "bob" (toy_hash "s1" "pw1") 0;
             mk_User 3 "carol" (toy_hash "s2" "pw2") 0;
             mk_User 4 "dave" (toy_hash "s3" "pw3") 0 ]
      by (vm_compute; reflexivity).
    do 3 right. left.
  - exact H.
Defined.

(** ** What a like toggle leaves alone *)

Lemma select_like_delete_other u p u' p' db :
  (u', p') ≠ (u, p) →
  select_like u' p' (delete_like u p db) = select_like u' p' db.
Proof.
  intros Hne. unfold select_like, delete_like. simpl.
  induction (likes db) as [|l ls IH]; [done|].
  destruct (decide (like_user_id l = u ∧ like_post_id l = p)) as [[Hu Hp]|H].
  - rewrite (filter_cons_False (λ l, ¬ _)) by tauto.
    rewrite (filter_cons_False (λ l, like_user_id l = u' ∧ _)); [done|].
    intros [Hu' Hp']. apply Hne. congruence.
  - rewrite (filter_cons_True (λ l, ¬ _)) by done.
    destruct (decide (like_user_id l = u' ∧ like_post_id l = p')).
    + rewrite !(filter_cons_True (λ l, like_user_id l = u' ∧ _)) by done.
      by rewrite IH.
    + by rewrite !(filter_cons_False (λ l, like_user_id l = u' ∧ _)).
Qed.

Lemma select_like_insert_other u p ts u' p' db :
  (u', p') ≠ (u, p) →
  select_like u' p' (insert_or_ignore_like u p ts db) = select_like u' p' db.
Proof.
  intros Hne. unfold insert_or_ignore_like. case_bool_decide; [|done].
  unfold select_like. simpl. rewrite filter_app, filter_cons_False.
  - by rewrite filter_nil, app_nil_r.
  - simpl. intros [Hu Hp]. apply Hne. congruence.
Qed.

Lemma like_count_of_delete_other u p q db :
  q ≠ p → like_count_of (delete_like u p db) q = like_count_of db q.
Proof.
  intros Hq. unfold like_count_of. simpl. do 2 f_equal.
  induction (likes db) as [|l ls IH]; [done|].
  destruct (decide (like_user_id l = u ∧ like_post_id l = p)) as [[Hu Hp]|H].
  - rewrite (filter_cons_False (λ l, ¬ _)) by tauto.
    by rewrite (filter_cons_False (λ l, like_post_id l = q)) by congruence.
  - rewrite (filter_cons_True (λ l, ¬ _)) by done.
    destruct (decide (like_post_id l = q)).
    + rewrite !(filter_cons_True (λ l, like_post_id l = q)) by done.
      by rewrite IH.
    + by rewrite !(filter_cons_False (λ l, like_post_id l = q)).
Qed.

Lemma like_count_of_insert_other u p ts q db :
  q ≠ p →
  like_count_of (insert_or_ignore_like u p ts db) q = like_count_of db q.
Proof.
  intros Hq. unfold insert_or_ignore_like. case_bool_decide; [|done].
  unfold like_count_of. simpl. rewrite filter_app, filter_cons_False.
  - by rewrite filter_nil, app_nil_r.
  - simpl. congruence.
Qed.

(** X11: A like toggle of user [u] on post [p] touches nothing but the Like row
    of that pair: the users and the posts stay as they are, every other
    (user, post) pair keeps its Like rows, and every other post keeps its
    like count. *)
Theorem toggle_like_touches_one_pair
    (session : Session) (p : Z) (now : datetime) (referrer : option string)
    (w : World) :
  users (disk (snd (request (toggle_like session p now referrer) w)))
    = users (disk w)
  ∧ posts (disk (snd (request (toggle_like session p now referrer) w)))
    = posts (disk w)
  ∧ (∀ u' p', (session_user_id session ≠ Some u' ∨ p' ≠ p) →
       select_like u' p'
         (disk (snd (request (toggle_like session p now referrer) w)))
       = select_like u' p' (disk w))
  ∧ (∀ q, q ≠ p →
       like_count_of
         (disk (snd (request (toggle_like session p now referrer) w))) q
       = like_count_of (disk w) q).
Proof.
  destruct (toggle_like_disk_cases session p now referrer w)
    as [->|(u & Hu & _ & ->)]; [done|].
  split; [|split; [|split]].
  - unfold insert_or_ignore_like. by repeat case_bool_decide.
  - unfold insert_or_ignore_like. by repeat case_bool_decide.
  - intros u' p' Hne.
    assert ((u', p') ≠ (u, p)) by (intros [= -> ->]; destruct Hne; congruence).
    case_bool_decide;
      [by apply select_like_delete_other|by apply select_like_insert_other].
  - intros q Hq.
    case_bool_decide;
      [by apply like_count_of_delete_other|by apply like_count_of_insert_other].
Qed.

(** ** The feed in the order of recency *)

Lemma order_map_default sort :
  sort ≠ "likes" → default CreatedDesc (order_map !! sort) = CreatedDesc.
Proof.
  intros Hs. destruct (decide (sort = "recent")) as [->|Hr]; [done|].
  unfold order_map. rewrite lookup_insert_ne by done.
  by rewrite lookup_singleton_ne.
Qed.

(** X12: [fetch_posts] with any sort key but "likes", known or not, executes the
    SELECT ordered by [posts.created_at DESC]: it returns the joined rows,
    each before every row with a smaller creation text; with no posts it
    returns the empty list.  The rows are those of the like-ranked order,
    arranged differently. *)
Theorem fetch_posts_recent_by_default (sort : string) (w : World) :
  sort ≠ "likes" →
  fetch_posts sort w
    = (Ok (select_posts CreatedDesc (conn w)),
       record (Execute (SelectPosts CreatedDesc)) w)
  ∧ select_posts CreatedDesc (conn w) ≡ₚ joined_posts (conn w)
  ∧ StronglySorted created_desc (select_posts CreatedDesc (conn w))
  ∧ (posts (conn w) = [] → select_posts CreatedDesc (conn w) = [])
  ∧ select_posts LikesDescCreatedDesc (conn w)
    ≡ₚ select_posts CreatedDesc (conn w).
Proof.
  intros Hs. split; [|split; [|split; [|split]]]; [| | | |by rewrite !select_posts_perm].
  - unfold fetch_posts. by rewrite order_map_default.
  - apply select_posts_perm.
  - apply (select_posts_sorted CreatedDesc).
  - intros Hnone. unfold select_posts, joined_posts. by rewrite Hnone.
Qed.

Lemma fetch_posts_recent_by_default_witness :
  fst (fetch_posts "newest" two_posts_world)
  = Ok [ mk_PostRow 2 "b.png" "P2" (isoformat evening) "carol" 3;
         mk_PostRow 1 "a.png" "P1" (isoformat noon) "bob" 2 ].
Proof.
  destruct (fetch_posts_recent_by_default "newest" two_posts_world) as [H _].
  - discriminate.
  - rewrite H. vm_compute. reflexivity.
Defined.

(** ** The dictionaries of the view *)

Lemma format_row_copies host liked_set row v :
  format_row host liked_set row = Ok v →
  view_id v = row_id row ∧ view_image_path v = row_image_path row
  ∧ view_caption v = row_caption row ∧ view_username v = row_username row
  ∧ view_like_count v = row_like_count row
  ∧ view_liked v = bool_decide (row_id row ∈ liked_set).
Proof.
  unfold format_row. destruct (fromisoformat _); [|discriminate].
  destruct (astimezone _ _ _); [|discriminate]. by intros [= <-].
Qed.

(** X13: When [format_posts_for_view] returns, it returns one dictionary per
    row, in the order of the rows, with the id, image, caption, author and
    like count of its row; called without liked ids, it marks no post as
    liked. *)
Theorem format_posts_for_view_copies_rows
    (host : Host) (rows : list PostRow) (liked_ids : option (gset Z))
    (views : list PostView) :
  format_posts_for_view host rows liked_ids = Ok views →
  Forall2 (λ row v,
             view_id v = row_id row ∧ view_image_path v = row_image_path row
             ∧ view_caption v = row_caption row
             ∧ view_username v = row_username row
             ∧ view_like_count v = row_like_count row) rows views
  ∧ (liked_ids = None → Forall (λ v, view_liked v = false) views).
Proof.
  unfold format_posts_for_view. intros H.
  apply format_loop_ok in H as (vs & -> & HF). simpl. split.
  - eapply Forall2_impl; [exact HF|]. intros row v Hv.
    apply format_row_copies in Hv. tauto.
  - intros ->. simpl in HF.
    induction HF as [|row v rows vs Hv _ IH]; constructor; [|exact IH].
    apply format_row_copies in Hv as (_ & _ & _ & _ & _ & ->).
    apply bool_decide_eq_false. set_solver.
Qed.

Lemma format_posts_for_view_copies_rows_witness :
  ∃ views, format_posts_for_view host_without_tzdata [row_2024; row_1943] None
           = Ok views
           ∧ Forall (λ v, view_liked v = false) views.
Proof.
  eexists. split; [vm_compute; reflexivity|].
  eapply (format_posts_for_view_copies_rows host_without_tzdata
            [row_2024; row_1943] None); [vm_compute|]; reflexivity.
Defined.

(** ** Logging in *)

Ltac run_login :=
  unfold request, login, logout, fetch_user_by_username,
    bind, ret, flash, emit, query, connect, close, record; simpl.

(** X14: A login whose username is not registered, or whose password the stored
    hash does not verify, is answered with the redirect to the login page
    and one message for both cases, "Invalid username or password."; the
    session and the database stay as they are. *)
Theorem login_rejects_bad_credentials
    (check_password_hash : string → string → bool)
    (form : gmap string string) (session : Session) (w : World) :
  (∀ user,
     fetchone (select_users_by_username (disk w)
                 (Text.strip (default "" (form !! "username")))) = Some user →
     check_password_hash (password_hash user) (default "" (form !! "password"))
     = false) →
  fst (request (login check_password_hash POST form session) w)
    = Ok (Redirect (UrlFor "login"), session)
  ∧ disk (snd (request (login check_password_hash POST form session) w))
    = disk w
  ∧ log (snd (request (login check_password_hash POST form session) w))
    = log w ++ [Execute (SelectUser
                           (Text.strip (default "" (form !! "username"))));
                Flash "Invalid username or password." "danger"].
Proof.
  intros Hbad. run_login.
  destruct (fetchone (select_users_by_username (disk w)
              (Text.strip (default "" (form !! "username"))))) as [user|];
    simpl.
  - rewrite (Hbad user eq_refl). simpl.
    split; [done|]. split; [done|]. by rewrite <- app_assoc.
  - split; [done|]. split; [done|]. by rewrite <- app_assoc.
Qed.

Lemma login_rejects_bad_credentials_witness :
  fst (request (login toy_check POST (form_of "bob" "guess") cleared)
         two_posts_world)
  = Ok (Redirect (UrlFor "login"), cleared).
Proof.
  apply (login_rejects_bad_credentials toy_check (form_of "bob" "guess")
           cleared two_posts_world).
  intros user Huser. vm_compute in Huser. injection Huser as <-.
  vm_compute. reflexivity.
Defined.

Lemma login_found check form session user w :
  fetchone (select_users_by_username (disk w)
              (Text.strip (default "" (form !! "username")))) = Some user →
  check (password_hash user) (default "" (form !! "password")) = true →
  fst (request (login check POST form session) w)
  = Ok (Redirect (UrlFor "feed"),
        mk_Session (Some (user_id user)) (Some (username user))
          (bool_decide (is_admin user ≠ 0))).
Proof. intros Hu Hc. run_login. rewrite Hu. simpl. by rewrite Hc. Qed.

(** X15: After a successful registration, a login with the same form succeeds
    when the hash that was stored verifies the password: the session then
    carries the new user's id, the trimmed username, and no admin flag. *)
Theorem register_then_login
    (hash : string → string → string) (check : string → string → bool)
    (salt : string) (form : gmap string string) (session : Session)
    (w : World) :
  check (hash salt (default "" (form !! "password")))
    (default "" (form !! "password")) = true →
  fst (request (register hash salt POST form) w)
    = Ok (Redirect (UrlFor "login")) →
  fst (request (login check POST form session)
         (snd (request (register hash salt POST form) w)))
  = Ok (Redirect (UrlFor "feed"),
        mk_Session (Some (seq_users (disk w) + 1))
          (Some (Text.strip (default "" (form !! "username")))) false).
Proof.
  intros Hcheck Hok.
  set (name := Text.strip (default "" (form !! "username"))) in *.
  set (w1 := snd (request (register hash salt POST form) w)).
  assert (Hone : select_users_by_username (disk w1) name
    = [mk_User (seq_users (disk w) + 1) name
         (hash salt (default "" (form !! "password"))) is_admin_default]).
  { destruct (register_post_cases hash salt form w)
      as [(_ & Hr & _)|[(_ & _ & _ & Hr & _)|(_ & _ & He & _ & Hi)]];
      try (rewrite Hok in Hr; discriminate).
    apply insert_user_users in Hi as (_ & Hi & _).
    fold w1 in Hi. unfold select_users_by_username in *. fold name in He, Hi.
    rewrite Hi, filter_app, He, filter_cons_True by done. done. }
  rewrite (login_found check form session
             (mk_User (seq_users (disk w) + 1) name
                (hash salt (default "" (form !! "password"))) is_admin_default)
             w1).
  - done.
  - fold name. by rewrite Hone.
  - done.
Qed.

Lemma register_then_login_witness :
  fst (request (login toy_check POST (form_of " erin " "pw5") cleared)
         (snd (request (register toy_hash "s1" POST (form_of " erin " "pw5"))
                 two_posts_world)))
  = Ok (Redirect (UrlFor "feed"), mk_Session (Some 5) (Some "erin") false).
Proof.
  apply (register_then_login toy_hash toy_check "s1" (form_of " erin " "pw5")
           cleared two_posts_world).
  - vm_compute. reflexivity.
  - vm_compute. reflexivity.
Defined.

(** X16: In every state that the application reaches, the account that the
    first start created is still there under its default password: when
    the stored hash verifies "adminpass", a login as "admin" with that
    password yields the session of user 1 with the admin flag. *)
Theorem default_admin_login_works
    (hash : string → string → string) (check : string → string → bool)
    (module_dir : string) (session : Session) (w : World) :
  reachable hash module_dir w →
  ∃ salt,
    admins (disk w) = [mk_User 1 "admin" (hash salt "adminpass") 1]
    ∧ (check (hash salt "adminpass") "adminpass" = true →
       fst (request (login check POST (form_of "admin" "adminpass") session) w)
       = Ok (Redirect (UrlFor "feed"),
             mk_Session (Some 1) (Some "admin") true)).
Proof.
  intros Hw. destruct (reachable_admins hash module_dir w Hw) as [salt Ha].
  exists salt. split; [done|]. intros Hcheck.
  pose proof (reachable_inv _ _ _ Hw) as Hc.
  assert (Hin : mk_User 1 "admin" (hash salt "adminpass") 1 ∈ users (disk w)).
  { assert (H : mk_User 1 "admin" (hash salt "adminpass") 1 ∈ admins (disk w))
      by (rewrite Ha; left).
    unfold admins in H. by apply list_elem_of_filter in H as [_ H]. }
  rewrite (login_found check _ session
             (mk_User 1 "admin" (hash salt "adminpass") 1) w).
  - done.
  - change (Text.strip (default "" (form_of "admin" "adminpass" !! "username")))
      with "admin".
    unfold select_users_by_username.
    by rewrite (filter_unique username (users (disk w))
                  (mk_User 1 "admin" (hash salt "adminpass") 1))
      by (apply Hc || done).
  - done.
Qed.

Lemma default_admin_login_works_witness :
  ∃ salt,
    admins (disk two_posts_world)
      = [mk_User 1 "admin" (toy_hash salt "adminpass") 1]
    ∧ (toy_check (toy_hash salt "adminpass") "adminpass" = true →
       fst (request (login toy_check POST (form_of "admin" "adminpass") cleared)
              two_posts_world)
       = Ok (Redirect (UrlFor "feed"),
             mk_Session (Some 1) (Some "admin") true)).
Proof.
  apply (default_admin_login_works toy_hash toy_check "/srv/app" cleared
           two_posts_world).
  apply two_posts_world_reachable.
Defined.

(** ** Uploads *)

Ltac run_upload :=
  unfold request, upload, login_required, create_post, save,
    bind, ret, flash, emit, update, commit, connect, close, record; simpl.

Lemma load_form_data_ok content_length w :
  content_length ≤ MAX_CONTENT_LENGTH →
  load_form_data content_length w = (Ok (), w).
Proof.
  intros Hlen. unfold load_form_data.
  by rewrite (proj2 (Z.ltb_ge _ _) Hlen).
Qed.

Lemma load_form_data_too_large content_length w :
  MAX_CONTENT_LENGTH < content_length →
  load_form_data content_length w = (Raise RequestEntityTooLarge, w).
Proof.
  intros Hlen. unfold load_form_data.
  by rewrite (proj2 (Z.ltb_lt _ _) Hlen).
Qed.

(** X17: An upload whose body is within MAX_CONTENT_LENGTH and that has no
    file part, an empty file name, or a name that [allowed_file] refuses is
    sent back to the form with a message.  An upload whose body is longer
    than MAX_CONTENT_LENGTH ends with RequestEntityTooLarge at the first
    read of the form, whatever it holds, and with no message.  In both
    cases nothing is saved and the database stays as it is. *)
Theorem upload_rejects
    (secure_filename : string → string) (root_path : string)
    (session : Session) (uid content_length : Z) (form : gmap string string)
    (image : option string) (now now_post : datetime) (w : World) :
  session_user_id session = Some uid →
  let view := upload secure_filename root_path session POST content_length
                form image now now_post in
  (content_length ≤ MAX_CONTENT_LENGTH →
   (image = None ∨ image = Some ""
    ∨ ∃ f, image = Some f ∧ allowed_file f = false) →
   fst (request view w) = Ok (Redirect (UrlFor "upload"))
   ∧ disk (snd (request view w)) = disk w
   ∧ files (snd (request view w)) = files w
   ∧ log (snd (request view w))
     = log w ++ [match image with
                 | None | Some "" =>
                     Flash "Please choose an image to upload." "warning"
                 | Some _ =>
                     Flash "Unsupported file type. Please upload an image."
                       "danger"
                 end])
  ∧ (MAX_CONTENT_LENGTH < content_length →
     fst (request view w) = Raise RequestEntityTooLarge
     ∧ disk (snd (request view w)) = disk w
     ∧ files (snd (request view w)) = files w
     ∧ log (snd (request view w)) = log w).
Proof.
  intros Hu. cbv zeta. split.
  - intros Hlen Hbad. run_upload. rewrite Hu. simpl.
    rewrite load_form_data_ok by done. simpl.
    destruct Hbad as [->|[->|(f & -> & Hf)]]; simpl; [done|done|].
    destruct (decide (f = "")) as [->|Hne]; [done|].
    rewrite (bool_decide_eq_false_2 _ Hne), Hf. simpl.
    destruct f; [done|]. done.
  - intros Hlen. run_upload. rewrite Hu. simpl.
    by rewrite load_form_data_too_large by done.
Qed.

Lemma upload_rejects_witness :
  fst (request (upload toy_secure_filename "/srv/app" bob POST 2048
                  (caption_form "hi") (Some "virus.png.exe") noon evening)
         two_posts_world)
    = Ok (Redirect (UrlFor "upload"))
  ∧ disk (snd (request (upload toy_secure_filename "/srv/app" bob POST 2048
                          (caption_form "hi") (Some "virus.png.exe") noon
                          evening) two_posts_world))
    = disk two_posts_world
  ∧ fst (request (upload toy_secure_filename "/srv/app" bob POST
                    (MAX_CONTENT_LENGTH + 1) (caption_form "hi")
                    (Some "art.png") noon evening) two_posts_world)
    = Raise RequestEntityTooLarge.
Proof.
  destruct (upload_rejects toy_secure_filename "/srv/app" bob 2 2048
              (caption_form "hi") (Some "virus.png.exe") noon evening
              two_posts_world eq_refl) as (Hsmall & _).
  destruct Hsmall as (Hr & Hd & _).
  { vm_compute. discriminate. }
  { right. right. eexists. split; reflexivity. }
  destruct (upload_rejects toy_secure_filename "/srv/app" bob 2
              (MAX_CONTENT_LENGTH + 1) (caption_form "hi") (Some "art.png")
              noon evening two_posts_world eq_refl) as (_ & Hlarge).
  destruct Hlarge as (Hraise & _).
  { vm_compute. reflexivity. }
  split; [exact Hr|]. split; [exact Hd | exact Hraise].
Defined.



Lemma string_app_assoc (s1 s2 s3 : string) :
  (s1 +:+ s2) +:+ s3 = s1 +:+ (s2 +:+ s3).
Proof.
  induction s1 as [|c s1 IH]; [done|].
  change (String c s1 +:+ s2) with (String c (s1 +:+ s2)).
  change (String c (s1 +:+ s2) +:+ s3) with (String c ((s1 +:+ s2) +:+ s3)).
  change (String c s1 +:+ (s2 +:+ s3)) with (String c (s1 +:+ (s2 +:+ s3))).
  by rewrite IH.
Qed.

Lemma zfill_app_inj k a b s t :
  0 ≤ a < 10 ^ Z.of_nat k → 0 ≤ b < 10 ^ Z.of_nat k →
  zfill k a +:+ s = zfill k b +:+ t → a = b ∧ s = t.
Proof.
  intros Ha Hb Heq.
  assert (Hc : String.compare (zfill k a +:+ s) (zfill k b +:+ t) = Eq)
    by (rewrite Heq; apply string_compare_refl).
  rewrite zfill_compare in Hc by done.
  destruct (a ?= b) eqn:E; try discriminate.
  split; [by apply Z.compare_eq|]. by apply String.compare_eq_iff.
Qed.

(** X19: Two stored file names that are equal were made at the same date and
    time, to the microsecond, and from the same secured name: uploads at
    different instants never collide. *)
Theorem stored_names_do_not_collide
    (d1 d2 : datetime) (name1 name2 : string) :
  valid d1 = true → valid d2 = true →
  strftime_compact d1 +:+ "_" +:+ name1 = strftime_compact d2 +:+ "_" +:+ name2 →
  (year d1, month d1, day d1, hour d1, minute d1, second d1, microsecond d1)
  = (year d2, month d2, day d2, hour d2, minute d2, second d2, microsecond d2)
  ∧ name1 = name2.
Proof.
  intros V1 V2.
  pose proof (days_in_month_le (year d1) (month d1)).
  pose proof (days_in_month_le (year d2) (month d2)).
  apply valid_bounds in V1 as (? & ? & ? & ? & ? & ? & ?).
  apply valid_bounds in V2 as (? & ? & ? & ? & ? & ? & ?).
  unfold strftime_compact. rewrite !string_app_assoc. intros Heq.
  apply zfill_app_inj in Heq as [-> Heq]; [|field_bound..].
  apply zfill_app_inj in Heq as [-> Heq]; [|field_bound..].
  apply zfill_app_inj in Heq as [-> Heq]; [|field_bound..].
  apply zfill_app_inj in Heq as [-> Heq]; [|field_bound..].
  apply zfill_app_inj in Heq as [-> Heq]; [|field_bound..].
  apply zfill_app_inj in Heq as [-> Heq]; [|field_bound..].
  apply zfill_app_inj in Heq as [-> Heq]; [|field_bound..].
  split; [done|]. by injection Heq.
Qed.

Lemma stored_names_do_not_collide_witness :
  (year noon, month noon, day noon, hour noon, minute noon, second noon,
   microsecond noon)
  = (2024, 2, 29, 12, 0, 0, 0)
  ∧ "a.png" = "a.png".
Proof.
  apply (stored_names_do_not_collide noon
           (mk_datetime 2024 2 29 12 0 0 0 None) "a.png" "a.png");
    reflexivity.
Defined.





(** ** Stored user names *)

Lemma lstrip_head s c r : Text.lstrip s = String c r → Text.isspace c = false.
Proof.
  induction s as [|a s IH]; simpl; [done|].
  destruct (Text.isspace a) eqn:E; [done|]. by intros [= <- <-].
Qed.

Lemma rstrip_nonspace c r :
  Text.isspace c = false →
  Text.rstrip (String c r) = String c (Text.rstrip r).
Proof. intros Hc. simpl. rewrite Hc. by destruct (Text.rstrip r). Qed.

Lemma rstrip_idem s : Text.rstrip (Text.rstrip s) = Text.rstrip s.
Proof.
  induction s as [|c s IH]; [done|]. simpl.
  destruct (Text.rstrip s) as [|a r] eqn:E.
  - destruct (Text.isspace c) eqn:Hc; [done|]. simpl. by rewrite Hc.
  - change (Text.rstrip (String c (String a r)))
      with (match Text.rstrip (String a r) with
            | EmptyString =>
                if Text.isspace c then EmptyString else String c EmptyString
            | r' => String c r'
            end).
    by rewrite IH.
Qed.

Lemma strip_idem s : Text.strip (Text.strip s) = Text.strip s.
Proof.
  unfold Text.strip. destruct (Text.lstrip s) as [|c r] eqn:E; [done|].
  pose proof (lstrip_head s c r E) as Hc.
  rewrite rstrip_nonspace by done. simpl Text.lstrip. rewrite Hc.
  by rewrite rstrip_nonspace, rstrip_idem.
Qed.

Lemma names_trimmed_insert name hash admin db db' :
  names_trimmed db → name ≠ "" → Text.strip name = name →
  insert_user name hash admin db = Some db' → names_trimmed db'.
Proof.
  intros Hdb Hne Hs Hi u Hu.
  apply insert_user_users in Hi as (_ & Hi & _). rewrite Hi in Hu.
  apply elem_of_app in Hu as [Hu|Hu]; [by apply Hdb|].
  by apply list_elem_of_singleton in Hu as ->.
Qed.

Lemma perform_names_trimmed hash module_dir a w :
  names_trimmed (disk w) → names_trimmed (disk (perform hash module_dir a w)).
Proof.
  intros Hdb.
  destruct a as [salt method form|uid image caption now|session pid
                |session pid now referrer|host session|host session|salt];
    simpl.
  - destruct method; [done|].
    destruct (register_post_cases hash salt form w)
      as [(_ & _ & -> & _)|[(_ & _ & _ & _ & -> & _)|(Hne & _ & _ & _ & Hi)]];
      try done.
    eapply names_trimmed_insert; [exact Hdb|exact Hne| |exact Hi].
    apply strip_idem.
  - done.
  - intros u. rewrite delete_post_users. apply Hdb.
  - intros u. rewrite toggle_like_users. apply Hdb.
  - by rewrite feed_disk.
  - by rewrite leaderboard_disk.
  - destruct (create_app_disk_cases hash salt w) as [->|Hi]; [done|].
    eapply names_trimmed_insert; [exact Hdb| | |exact Hi]; done.
Qed.

Lemma reachable_names_trimmed hash module_dir w :
  reachable hash module_dir w → names_trimmed (disk w).
Proof.
  induction 1 as [w salt Hfresh|w a _ IH].
  - destruct (create_app_disk_cases hash salt w) as [->|Hi].
    + rewrite Hfresh. intros u Hu. inv Hu.
    + eapply names_trimmed_insert; [| | |exact Hi]; try done.
      rewrite Hfresh. intros u Hu. inv Hu.
  - by apply perform_names_trimmed.
Qed.

(** X21: In every state that the application reaches, every stored user name
    is non-empty and carries no white space at either end, so the name
    that [login] looks up after trimming what was typed is the stored name
    itself: typing the name of an account finds that account, and no
    other. *)
Theorem usernames_are_trimmed
    (hash : string → string → string) (module_dir : string) (w : World)
    (u : User) :
  reachable hash module_dir w →
  u ∈ users (disk w) →
  username u ≠ ""
  ∧ Text.strip (username u) = username u
  ∧ select_users_by_username (disk w) (Text.strip (username u)) = [u].
Proof.
  intros Hw Hu.
  destruct (reachable_names_trimmed hash module_dir w Hw u Hu) as [Hne Hs].
  split; [done|]. split; [done|]. rewrite Hs.
  apply (filter_unique username); [|done].
  apply (users_unique _ (reachable_inv _ _ _ Hw)).
Qed.

Lemma usernames_are_trimmed_witness :
  select_users_by_username (disk two_posts_world) (Text.strip "carol")
  = [mk_User 3 "carol" (toy_hash "s2" "pw2") 0].
Proof.
  apply (usernames_are_trimmed toy_hash "/srv/app" two_posts_world
           (mk_User 3 "carol" (toy_hash "s2" "pw2") 0)).
  - apply two_posts_world_reachable.
  - replace (users (disk two_posts_world))
      with [ mk_User 1 "admin" (toy_hash "s0" "adminpass") 1;
             mk_User 2 "bob" (toy_hash "s1" "pw1") 0;
             mk_User 3 "carol" (toy_hash "s2" "pw2") 0;
             mk_User 4 "dave" (toy_hash "s3" "pw3") 0 ]
      by (vm_compute; reflexivity).
    do 2 right. left.
Defined.

(** ** Looking a post up, and a start that cannot create its account *)

(** What the SELECT of [fetch_post_by_id] gives. *)
Lemma select_post_by_id_spec (pid : Z) (db : DB) :
  (fetchone (select_post_by_id pid db) = None
   ↔ ∀ p u, p ∈ posts db → post_id p = pid →
            u ∈ users db → user_id u ≠ post_user_id p)
  ∧ (∀ d, fetchone (select_post_by_id pid db) = Some d →
       det_id d = pid
       ∧ det_like_count d = like_count_of db pid
       ∧ ∃ p u, p ∈ posts db ∧ u ∈ users db
                ∧ user_id u = post_user_id p
                ∧ d = mk_PostDetail (post_id p) (post_user_id p)
                        (image_path p) (caption p) (post_created_at p)
                        (username u) (like_count_of db (post_id p))).
Proof.
  split.
  - split.
    + intros Hnone p u Hp Hid Hu Heq.
      assert (Hin : mk_PostDetail (post_id p) (post_user_id p) (image_path p)
          (caption p) (post_created_at p)
          (username (default u (head (filter (λ u, user_id u = post_user_id p)
                                        (users db)))))
          (like_count_of db (post_id p))
        ∈ select_post_by_id pid db).
      { unfold select_post_by_id.
        apply list_elem_of_In, in_flat_map. exists p. split.
        - apply list_elem_of_In, list_elem_of_filter. done.
        - destruct (filter (λ u, user_id u = post_user_id p) (users db))
            as [|u' us] eqn:E.
          + assert (Hf : u ∈ filter (λ u, user_id u = post_user_id p)
                           (users db))
              by (by apply list_elem_of_filter).
            rewrite E in Hf. inv Hf.
          + simpl. by left. }
      destruct (select_post_by_id pid db); [inv Hin|discriminate].
    + intros Hall.
      destruct (select_post_by_id pid db) as [|d rows] eqn:E; [done|].
      exfalso.
      assert (Hd : d ∈ select_post_by_id pid db) by (rewrite E; left).
      unfold select_post_by_id in Hd.
      apply list_elem_of_In, in_flat_map in Hd as (p & Hp & Hd).
      apply list_elem_of_In, list_elem_of_filter in Hp as [Hid Hp].
      destruct (filter (λ u, user_id u = post_user_id p) (users db))
        as [|u us] eqn:Eu; [done|].
      assert (Hu : u ∈ filter (λ u, user_id u = post_user_id p) (users db))
        by (rewrite Eu; left).
      apply list_elem_of_filter in Hu as [Hu1 Hu2].
      by apply (Hall p u).
  - intros d Hd. apply fetchone_elem_of in Hd.
    pose proof (select_post_by_id_id _ _ _ Hd) as Hid.
    unfold select_post_by_id in Hd.
    apply list_elem_of_In, in_flat_map in Hd as (p & Hp & Hd).
    apply list_elem_of_In, list_elem_of_filter in Hp as [Hpid Hp].
    destruct (filter (λ u, user_id u = post_user_id p) (users db))
      as [|u us] eqn:Eu; [done|].
    assert (Hu : u ∈ filter (λ u, user_id u = post_user_id p) (users db))
      by (rewrite Eu; left).
    apply list_elem_of_filter in Hu as [Hu1 Hu2].
    destruct Hd as [<-|[]]. simpl. split; [done|]. split; [by rewrite Hpid|].
    exists p, u. done.
Qed.

Lemma fetch_post_by_id_bound pid w :
  bind_post_id pid w = (Ok (), w) →
  fetch_post_by_id pid w
  = (Ok (fetchone (select_post_by_id pid (conn w))),
     record (Execute (SelectPostById pid)) w).
Proof.
  intros Hb. unfold fetch_post_by_id, bind, ret, query. by rewrite Hb.
Qed.

Lemma fetch_post_by_id_overflow pid w :
  bind_post_id pid w = (Raise OverflowError, w) →
  fetch_post_by_id pid w = (Raise OverflowError, w).
Proof.
  intros Hb. unfold fetch_post_by_id, bind, ret, query. by rewrite Hb.
Qed.

(** X22: [fetch_post_by_id], given an id that fits an SQLite INTEGER (or that
    a stored post carries), executes its SELECT and returns the first row
    of it; given any other id it raises OverflowError when the id is bound,
    and executes nothing.  It returns None exactly when the id can be bound
    and no post has the id or the author of the post with the id is
    missing; a row that it returns has the id asked for, the fields of a
    stored post with that id, and as like count the number of Like rows of
    the post at that moment. *)
Theorem fetch_post_by_id_spec (pid : Z) (w : World) :
  (is_integer pid = true ∨ pid ∈ post_id <$> posts (conn w) →
   fetch_post_by_id pid w
   = (Ok (fetchone (select_post_by_id pid (conn w))),
      record (Execute (SelectPostById pid)) w))
  ∧ (is_integer pid = false → pid ∉ post_id <$> posts (conn w) →
     fetch_post_by_id pid w = (Raise OverflowError, w))
  ∧ (fst (fetch_post_by_id pid w) = Ok None
     ↔ (is_integer pid = true ∨ pid ∈ post_id <$> posts (conn w))
       ∧ ∀ p u, p ∈ posts (conn w) → post_id p = pid →
                u ∈ users (conn w) → user_id u ≠ post_user_id p)
  ∧ (∀ d, fst (fetch_post_by_id pid w) = Ok (Some d) →
       det_id d = pid
       ∧ det_like_count d = like_count_of (conn w) pid
       ∧ ∃ p u, p ∈ posts (conn w) ∧ u ∈ users (conn w)
                ∧ user_id u = post_user_id p
                ∧ d = mk_PostDetail (post_id p) (post_user_id p)
                        (image_path p) (caption p) (post_created_at p)
                        (username u) (like_count_of (conn w) (post_id p))).
Proof.
  destruct (select_post_by_id_spec pid (conn w)) as [Hnone Hsome].
  assert (Hbindable :
    is_integer pid = true ∨ pid ∈ post_id <$> posts (conn w) →
    bind_post_id pid w = (Ok (), w)).
  { intros [Hr|Hin]; [by apply bind_post_id_in_range|].
    unfold bind_post_id.
    by rewrite (bool_decide_eq_true_2 _ Hin), orb_true_r. }
  assert (Hcases :
    (is_integer pid = true ∨ pid ∈ post_id <$> posts (conn w))
    ∨ (is_integer pid = false ∧ pid ∉ post_id <$> posts (conn w))).
  { destruct (is_integer pid); [by left; left|].
    destruct (decide (pid ∈ post_id <$> posts (conn w))); [left|right]; auto. }
  split; [intros Hb; by apply fetch_post_by_id_bound, Hbindable|].
  split.
  { intros Hr Hn. by apply fetch_post_by_id_overflow, bind_post_id_overflow. }
  split.
  - destruct Hcases as [Hb|[Hr Hn]].
    + rewrite (fetch_post_by_id_bound pid w (Hbindable Hb)). simpl.
      rewrite <- Hnone. split.
      * by intros [= ->].
      * by intros [_ ->].
    + rewrite (fetch_post_by_id_overflow pid w)
        by (by apply bind_post_id_overflow).
      simpl. split; [done|]. intros [[Hr'|Hin] _]; [congruence|done].
  - intros d. destruct Hcases as [Hb|[Hr Hn]].
    + rewrite (fetch_post_by_id_bound pid w (Hbindable Hb)). simpl.
      intros [= Hd]. by apply Hsome.
    + rewrite (fetch_post_by_id_overflow pid w)
        by (by apply bind_post_id_overflow).
      done.
Qed.

Lemma fetch_post_by_id_spec_witness :
  fst (fetch_post_by_id 1 two_posts_world) = Ok (Some post1)
  ∧ fst (fetch_post_by_id (2 ^ 63) two_posts_world) = Raise OverflowError.
Proof.
  destruct (fetch_post_by_id_spec 1 two_posts_world) as (Hfound & _).
  destruct (fetch_post_by_id_spec (2 ^ 63) two_posts_world)
    as (_ & Hover & _).
  split.
  - rewrite (Hfound (or_introl eq_refl)). vm_compute. reflexivity.
  - rewrite Hover; [reflexivity|reflexivity|].
    vm_compute. intros H. apply list_elem_of_In in H.
    destruct H as [H|[H|[]]]; discriminate H.
Defined.

(** X23: A start that finds no administrator while the name "admin" is taken
    cannot insert its account: the UNIQUE constraint on the username
    raises IntegrityError, and the database stays as it was. *)
Theorem create_app_name_taken
    (hash : string → string → string) (salt : string) (w : World) :
  count_admins (disk w) = 0 →
  select_users_by_username (disk w) "admin" ≠ [] →
  fst (create_app hash salt w) = Raise IntegrityError
  ∧ disk (snd (create_app hash salt w)) = disk w.
Proof.
  intros Hzero Htaken. run_monad. rewrite Hzero. simpl.
  unfold insert_user. simpl. by rewrite (bool_decide_eq_false_2 _ Htaken).
Qed.

Lemma create_app_name_taken_witness :
  fst (create_app toy_hash "s9" demoted_world) = Raise IntegrityError
  ∧ disk (snd (create_app toy_hash "s9" demoted_world)) = disk demoted_world.
Proof.
  apply (create_app_name_taken toy_hash "s9" demoted_world).
  - reflexivity.
  - vm_compute. discriminate.
Defined.
